(** * bluedroid: the radio power lifecycle of [bluedroid/bluetooth.c]

    A shallow embedding of [set_bluetooth_power], [check_bluetooth_power]
    (both power-rail variants of the [#if USE_UGLY_POWER_INTERFACE] switch),
    [init_rfkill], [create_hci_sock], [bt_enable], [bt_disable] and
    [bt_is_enabled].

    The C code talks to the operating system only: files under /sys, one raw
    HCI socket, three ioctls, the property service, two sleeps and one heap
    allocation.  The model threads an explicit process state (the log of
    system calls made so far and the two static variables of the rfkill
    variant) through a small state-and-divergence monad; the operating
    system is an oracle that answers each call from the log of everything
    that happened before it, so that a theorem quantified over every oracle
    speaks about every behaviour of files, sockets, services and the heap.
    Logging (LOGE, LOGW, LOGI, LOGV) has no effect on control flow and is
    left out. *)

From Stdlib Require Import ZArith List String Ascii Bool Lia DecimalString.
From Stdlib Require DecimalFacts.
Import ListNotations.

Local Open Scope string_scope.
Local Open Scope Z_scope.

(** ** System calls and their log *)

Inductive oflag : Type := O_RDONLY | O_WRONLY.

(** The three ioctl requests of the file (their numeric codes live in
    bluetooth/hci.h and play no part in the control flow). *)
Inductive ioctl_req : Type := HCIDEVUP | HCIDEVDOWN | HCIGETDEVINFO.

(** One completed system call, with its arguments and its result.
    [ERead] carries what [read] delivered: [None] for a return of -1,
    [Some data] for a return of [length data].  [ESocket] is always
    [socket(AF_BLUETOOTH, SOCK_RAW, BTPROTO_HCI)]. *)
Inductive event : Type :=
| EOpen (path : string) (fl : oflag) (fd : Z)
| ERead (fd : Z) (count : Z) (res : option string)
| EWrite (fd : Z) (data : string) (sz : Z)
| EClose (fd : Z)
| ESocket (sk : Z)
| EIoctl (sk : Z) (req : ioctl_req) (dev : Z) (ret : Z)
| EPropertySet (key value : string) (ret : Z)
| EUsleep (usec : Z)
| ESleep (sec : Z).

(** The log, newest call first. *)
Definition log := list event.

(** The operating system as the code sees it: the answer to each call is a
    function of the calls answered before. [k_dev_flags] is the [flags] word
    a successful HCIGETDEVINFO stores into [struct hci_dev_info].
    [k_asprintf] tells whether the heap has room for the one string the
    file allocates ([asprintf] in [init_rfkill]); an allocation is no
    system call and leaves no entry in the log. *)
Record kernel : Type := {
  k_open : log -> string -> oflag -> Z;
  k_read : log -> Z -> Z -> option string;
  k_write : log -> Z -> string -> Z;
  k_socket : log -> Z;
  k_ioctl : log -> Z -> ioctl_req -> Z -> Z;
  k_dev_flags : log -> Z -> Z -> Z;
  k_property_set : log -> string -> string -> Z;
  k_asprintf : log -> bool
}.

(** ** Process state *)

(** [rfkill_id] and [rfkill_state_path] are the two file-scope statics of
    the rfkill variant ([-1] and [NULL] at program start); the direct-file
    variant has no state of its own. *)
Record world : Type := {
  trace : log;
  rfkill_id : Z;
  rfkill_state_path : option string
}.

Definition fresh : world :=
  {| trace := []; rfkill_id := -1; rfkill_state_path := None |}.

Definition emit (e : event) (w : world) : world :=
  {| trace := e :: trace w;
     rfkill_id := rfkill_id w;
     rfkill_state_path := rfkill_state_path w |}.

(** The statics alone: what survives from one public call to the next. *)
Definition binding (w : world) : Z * option string :=
  (rfkill_id w, rfkill_state_path w).

(** ** The monad: state passing, [None] when a loop without bound has not
    finished within the fuel it was given *)

Definition M (A : Type) : Type := world -> option (A * world).

Definition ret {A} (a : A) : M A := fun w => Some (a, w).

Definition bind {A B} (m : M A) (k : A -> M B) : M B :=
  fun w => match m w with
           | Some (a, w') => k a w'
           | None => None
           end.

Definition diverge {A} : M A := fun _ => None.

Declare Scope bt_scope.
Delimit Scope bt_scope with bt.
Notation "x <- m ;; k" := (bind m (fun x => k))
  (at level 100, m at next level, right associativity) : bt_scope.
Notation "m ;;; k" := (bind m (fun _ => k))
  (at level 100, right associativity) : bt_scope.
Local Open Scope bt_scope.

(** Bytes that [read(fd, buf, count)] can deliver: never more than [count]. *)
Fixpoint take (n : nat) (s : string) : string :=
  match n, s with
  | S n', String c s' => String c (take n' s')
  | _, _ => EmptyString
  end.

Definition slen (s : string) : Z := Z.of_nat (String.length s).

Section Syscalls.

Variable K : kernel.

Definition sys_open (path : string) (fl : oflag) : M Z := fun w =>
  let fd := k_open K (trace w) path fl in
  Some (fd, emit (EOpen path fl fd) w).

(** [read] returns the size and the bytes now in the buffer. *)
Definition sys_read (fd count : Z) : M (Z * string) := fun w =>
  match k_read K (trace w) fd count with
  | None => Some ((-1, EmptyString), emit (ERead fd count None) w)
  | Some s =>
      let data := take (Z.to_nat count) s in
      Some ((slen data, data), emit (ERead fd count (Some data)) w)
  end.

Definition sys_write (fd : Z) (data : string) : M Z := fun w =>
  let sz := k_write K (trace w) fd data in
  Some (sz, emit (EWrite fd data sz) w).

Definition sys_close (fd : Z) : M unit := fun w =>
  Some (tt, emit (EClose fd) w).

Definition sys_socket : M Z := fun w =>
  let sk := k_socket K (trace w) in
  Some (sk, emit (ESocket sk) w).

Definition sys_ioctl (sk : Z) (req : ioctl_req) (dev : Z) : M Z := fun w =>
  let r := k_ioctl K (trace w) sk req dev in
  Some (r, emit (EIoctl sk req dev r) w).

(** HCIGETDEVINFO: the return value and the [flags] field it filled in. *)
Definition sys_ioctl_devinfo (sk dev : Z) : M (Z * Z) := fun w =>
  let r := k_ioctl K (trace w) sk HCIGETDEVINFO dev in
  let fl := k_dev_flags K (trace w) sk dev in
  Some ((r, fl), emit (EIoctl sk HCIGETDEVINFO dev r) w).

Definition property_set (key value : string) : M Z := fun w =>
  let r := k_property_set K (trace w) key value in
  Some (r, emit (EPropertySet key value r) w).

Definition usleep (usec : Z) : M unit := fun w =>
  Some (tt, emit (EUsleep usec) w).

Definition sleep (sec : Z) : M unit := fun w =>
  Some (tt, emit (ESleep sec) w).

(** The [out:] label every function of the file ends in:
    [if (fd >= 0) close(fd); return ret;] *)
Definition out (fd r : Z) : M Z :=
  if 0 <=? fd then (sys_close fd ;;; ret r) else ret r.

End Syscalls.

(** ** Direct-file power rail ([#if USE_UGLY_POWER_INTERFACE]) *)

Module UglyPower.
Section WithKernel.
Variable K : kernel.

Definition BLUETOOTH_POWER_PATH : string :=
  "/sys/module/board_trout/parameters/bluetooth_power_on".

Definition set_bluetooth_power (on : Z) : M Z :=
  let buffer := if on =? 0 then "N" else "Y" in
  fd <- sys_open K BLUETOOTH_POWER_PATH O_WRONLY ;;
  if fd =? -1 then out fd (-1)
  else
    sz <- sys_write K fd buffer ;;
    if negb (sz =? 1) then out fd (-1)
    else out fd 0.

Definition check_bluetooth_power : M Z :=
  fd <- sys_open K BLUETOOTH_POWER_PATH O_RDONLY ;;
  if fd =? -1 then out fd (-1)
  else
    rd <- sys_read K fd 1 ;;
    if negb (fst rd =? 1) then out fd (-1)
    else
      if String.eqb (snd rd) "Y" then out fd 1
      else if String.eqb (snd rd) "N" then out fd 0
      else out fd (-1).

End WithKernel.
End UglyPower.

(** ** Rfkill power rail (the [#else] branch) *)

Module Rfkill.
Section WithKernel.
Variable K : kernel.

(** [%d] of a non-negative [int]. *)
Definition dec (id : Z) : string := NilZero.string_of_int (Z.to_int id).

Definition type_path (id : Z) : string :=
  "/sys/class/rfkill/rfkill" ++ dec id ++ "/type".

Definition state_path (id : Z) : string :=
  "/sys/class/rfkill/rfkill" ++ dec id ++ "/state".

(** [sz >= 9 && memcmp(buf, "bluetooth", 9) == 0] on the bytes just read. *)
Definition is_bluetooth (rd : Z * string) : bool :=
  (9 <=? fst rd) && String.eqb (take 9 (snd rd)) "bluetooth".

(** [rfkill_id = id;] on the match, inside the loop. *)
Definition set_rfkill_id (id : Z) : M unit := fun w =>
  Some (tt, {| trace := trace w;
               rfkill_id := id;
               rfkill_state_path := rfkill_state_path w |}).

(** [asprintf(&rfkill_state_path, "/sys/class/rfkill/rfkill%d/state",
    rfkill_id);] after the loop.  Its return value is not looked at: when
    the allocation fails the pointer is NULL (the C library of the platform
    stores NULL on failure, and NULL is what the static held before) and
    [init_rfkill] returns 0 all the same. *)
Definition asprintf_state_path : M unit := fun w =>
  Some (tt, {| trace := trace w;
               rfkill_id := rfkill_id w;
               rfkill_state_path :=
                 if k_asprintf K (trace w)
                 then Some (state_path (rfkill_id w))
                 else None |}).

(** The scan [for (id = 0; ; id++)] has no bound of its own: it stops at
    the first slot whose type file does not open (return -1) or whose type
    matches (set the slot index, leave the loop, format the state path and
    return 0).  [fuel] bounds the number of slots looked at; running out of
    it is [diverge], not a result. *)
Fixpoint init_rfkill_from (fuel : nat) (id : Z) : M Z :=
  match fuel with
  | O => diverge
  | S fuel' =>
      fd <- sys_open K (type_path id) O_RDONLY ;;
      if fd <? 0 then ret (-1)
      else
        rd <- sys_read K fd 16 ;;
        sys_close fd ;;;
        if is_bluetooth rd
        then (set_rfkill_id id ;;; asprintf_state_path ;;; ret 0)
        else init_rfkill_from fuel' (id + 1)
  end.

Definition init_rfkill (fuel : nat) : M Z := init_rfkill_from fuel 0.

Definition get_rfkill_id : M Z := fun w => Some (rfkill_id w, w).

(** [open(rfkill_state_path, fl)]; on a NULL path the call fails (EFAULT). *)
Definition open_state_path (fl : oflag) : M Z := fun w =>
  match rfkill_state_path w with
  | Some p => sys_open K p fl w
  | None => Some (-1, w)
  end.

(** [if (rfkill_id == -1) { if (init_rfkill()) goto out; }] then [k];
    at [out] the descriptor is still -1 and the result -1. *)
Definition with_binding (fuel : nat) (k : M Z) : M Z :=
  id <- get_rfkill_id ;;
  if id =? -1 then
    (r <- init_rfkill fuel ;;
     if negb (r =? 0) then out (-1) (-1) else k)
  else k.

Definition check_bluetooth_power (fuel : nat) : M Z :=
  with_binding fuel
    (fd <- open_state_path O_RDONLY ;;
     if fd <? 0 then out fd (-1)
     else
       rd <- sys_read K fd 1 ;;
       if negb (fst rd =? 1) then out fd (-1)
       else
         if String.eqb (snd rd) "1" then out fd 1
         else if String.eqb (snd rd) "0" then out fd 0
         else out fd (-1)).

Definition set_bluetooth_power (fuel : nat) (on : Z) : M Z :=
  let buffer := if on =? 0 then "0" else "1" in
  with_binding fuel
    (fd <- open_state_path O_WRONLY ;;
     if fd <? 0 then out fd (-1)
     else
       sz <- sys_write K fd buffer ;;
       if sz <? 0 then out fd (-1)
       else out fd 0).

End WithKernel.
End Rfkill.

Section Lifecycle.

Variable K : kernel.

(** ** The build-time choice of the power rail *)

Definition set_bluetooth_power
    (USE_UGLY_POWER_INTERFACE : bool) (fuel : nat) (on : Z) : M Z :=
  if USE_UGLY_POWER_INTERFACE then UglyPower.set_bluetooth_power K on
  else Rfkill.set_bluetooth_power K fuel on.

Definition check_bluetooth_power
    (USE_UGLY_POWER_INTERFACE : bool) (fuel : nat) : M Z :=
  if USE_UGLY_POWER_INTERFACE then UglyPower.check_bluetooth_power K
  else Rfkill.check_bluetooth_power K fuel.

(** ** The HCI control channel *)

Definition HCI_DEV_ID : Z := 0.
Definition HCID_START_DELAY_SEC : Z := 5.
Definition HCID_STOP_DELAY_USEC : Z := 500000.

(** Modelled from the spec: the "device up" bit of the flags word and the
    test for it.  [HCI_UP] and [hci_test_bit] come from the BlueZ headers
    (bluetooth/hci.h, bluetooth/hci_lib.h), which are not under src/: there
    [HCI_UP] is the first flag of the device-flags enumeration, bit 0, and
    [hci_test_bit(nr, addr)] masks the 32-bit word number [nr >> 5] at
    [addr] with [1 << (nr & 31)].  [flags] is one 32-bit word, so only
    word 0 can be addressed. *)
Definition HCI_UP : Z := 0.

Definition hci_test_bit (nr flags : Z) : Z :=
  Z.land flags (Z.shiftl 1 (Z.land nr 31)).

Definition create_hci_sock : M Z := sys_socket K.

(** ** bt_enable *)

(** How the poll loop is left: by [break] (with the open socket), by
    [goto out] after a failed [socket], or by its condition
    [attempt > 0] turning false. [hci_sock] is the value of the variable at
    that point. *)
Inductive loop_exit : Type :=
| Break (hci_sock : Z) (attempt : nat)
| GotoOut (hci_sock : Z)
| Exhausted (hci_sock : Z).

(** [for (attempt = N; attempt > 0; attempt--) { ... }], by recursion on
    the loop counter itself. *)
Fixpoint poll_hci_up (attempt : nat) (hci_sock : Z) : M loop_exit :=
  match attempt with
  | O => ret (Exhausted hci_sock)
  | S attempt' =>
      sk <- create_hci_sock ;;
      if sk <? 0 then ret (GotoOut sk)
      else
        r <- sys_ioctl K sk HCIDEVUP HCI_DEV_ID ;;
        if r =? 0 then ret (Break sk attempt)
        else (sys_close sk ;;; usleep 10000 ;;; poll_hci_up attempt' sk)
  end.

Definition POLL_ATTEMPTS : nat := 1000.

Definition start_hcid (hci_sock : Z) : M Z :=
  p <- property_set K "ctl.start" "hcid" ;;
  if p <? 0 then out hci_sock (-1)
  else (sleep HCID_START_DELAY_SEC ;;; out hci_sock 0).

Definition bt_enable (USE_UGLY_POWER_INTERFACE : bool) (fuel : nat) : M Z :=
  r <- set_bluetooth_power USE_UGLY_POWER_INTERFACE fuel 1 ;;
  if r <? 0 then out (-1) (-1)
  else
    p <- property_set K "ctl.start" "hciattach" ;;
    if p <? 0 then out (-1) (-1)
    else
      e <- poll_hci_up POLL_ATTEMPTS (-1) ;;
      match e with
      | GotoOut sk => out sk (-1)
      | Exhausted sk => out sk (-1)
      | Break sk _ => start_hcid sk
      end.

(** ** bt_disable *)

Definition bt_disable (USE_UGLY_POWER_INTERFACE : bool) (fuel : nat) : M Z :=
  p <- property_set K "ctl.stop" "hcid" ;;
  if p <? 0 then out (-1) (-1)
  else
    usleep HCID_STOP_DELAY_USEC ;;;
    hci_sock <- create_hci_sock ;;
    if hci_sock <? 0 then out hci_sock (-1)
    else
      sys_ioctl K hci_sock HCIDEVDOWN HCI_DEV_ID ;;;
      q <- property_set K "ctl.stop" "hciattach" ;;
      if q <? 0 then out hci_sock (-1)
      else
        r <- set_bluetooth_power USE_UGLY_POWER_INTERFACE fuel 0 ;;
        if r <? 0 then out hci_sock (-1)
        else out hci_sock 0.

(** ** bt_is_enabled *)

Definition bt_is_enabled (USE_UGLY_POWER_INTERFACE : bool) (fuel : nat) : M Z :=
  r <- check_bluetooth_power USE_UGLY_POWER_INTERFACE fuel ;;
  if (r =? -1) || (r =? 0) then out (-1) r
  else
    hci_sock <- create_hci_sock ;;
    if hci_sock <? 0 then out hci_sock (-1)
    else
      info <- sys_ioctl_devinfo K hci_sock HCI_DEV_ID ;;
      if fst info <? 0 then out hci_sock 0
      else out hci_sock (hci_test_bit HCI_UP (snd info)).

End Lifecycle.

(** * Reading the log *)

Local Open Scope list_scope.

Definition is_file_event (e : event) : bool :=
  match e with
  | EOpen _ _ _ | ERead _ _ _ | EWrite _ _ _ | EClose _ => true
  | _ => false
  end.

Definition is_socket (e : event) : bool :=
  match e with ESocket _ => true | _ => false end.

Definition is_ioctl (e : event) : bool :=
  match e with EIoctl _ _ _ _ => true | _ => false end.

Definition is_devup (e : event) : bool :=
  match e with EIoctl _ HCIDEVUP _ _ => true | _ => false end.

Definition is_usleep (e : event) : bool :=
  match e with EUsleep _ => true | _ => false end.

Definition is_service (e : event) : bool :=
  match e with EPropertySet _ _ _ => true | _ => false end.

Definition count (p : event -> bool) (t : log) : nat :=
  List.length (filter p t).

(** [w'] is [w] after some more calls, all of them satisfying [p]. *)
Definition adds (p : event -> bool) (w w' : world) : Prop :=
  exists evs, trace w' = evs ++ trace w /\ forallb p evs = true.

(** A computation that only ever moves the state along [R]. *)
Definition respects {A} (R : world -> world -> Prop) (m : M A) : Prop :=
  forall w a w', m w = Some (a, w') -> R w w'.

(** The statics are left as they were. *)
Definition same_binding (w w' : world) : Prop := binding w' = binding w.

(** Computations that always return. *)
Definition total {A} (m : M A) : Prop :=
  forall w, exists a w', m w = Some (a, w').

(** The state after one turn of the poll loop in which HCIDEVUP fails:
    socket, ioctl, close, 10 ms of sleep. *)
Definition failed_turn (K : kernel) (w : world) : world :=
  let sk := k_socket K (trace w) in
  let w1 := emit (ESocket sk) w in
  let r := k_ioctl K (trace w1) sk HCIDEVUP HCI_DEV_ID in
  emit (EUsleep 10000)
    (emit (EClose sk) (emit (EIoctl sk HCIDEVUP HCI_DEV_ID r) w1)).

(** Case analysis on the test of the first conditional in the goal. *)
Ltac case_if :=
  match goal with
  | |- context [if ?b then _ else _] => destruct b eqn:?
  end.

(** Closes a goal about [out] once the tests on the descriptor are known. *)
Ltac finish_out :=
  repeat match goal with
         | H : (0 <=? _) = _ |- _ => rewrite H
         end;
  reflexivity.

(** * Concrete operating systems

    Small kernels on which the functions above can be run. *)

(** Every call gets the same answer, whatever came before. *)
Definition const_kernel (fd : Z) (rd : option string) (wr sk io fl ps : Z)
    : kernel :=
  {| k_open := fun _ _ _ => fd;
     k_read := fun _ _ _ => rd;
     k_write := fun _ _ _ => wr;
     k_socket := fun _ => sk;
     k_ioctl := fun _ _ _ _ => io;
     k_dev_flags := fun _ _ _ => fl;
     k_property_set := fun _ _ _ => ps;
     k_asprintf := fun _ => true |}.

(** Nothing works: no file opens, no socket, no service. *)
Definition dead_kernel : kernel := const_kernel (-1) None (-1) (-1) (-1) 0 (-1).

(** Files, sockets and services work; HCIDEVUP succeeds on the [k]-th call
    made to it and on no other; [io] answers the other ioctls. *)
Definition up_at_kernel (k : nat) (rd : option string) (io fl : Z) : kernel :=
  {| k_open := fun _ _ _ => 3;
     k_read := fun _ _ _ => rd;
     k_write := fun _ _ _ => 1;
     k_socket := fun _ => 4;
     k_ioctl := fun t _ req _ =>
       match req with
       | HCIDEVUP => if Nat.eqb (S (count is_devup t)) k then 0 else -1
       | _ => io
       end;
     k_dev_flags := fun _ _ _ => fl;
     k_property_set := fun _ _ _ => 0;
     k_asprintf := fun _ => true |}.

(** The content of the file at [path] in an rfkill class directory whose
    slots [id], [id + 1], ... have the type attributes [slots] and whose
    state attributes all read [state]. *)
Fixpoint rfkill_file (path : string) (id : Z) (slots : list string)
    (state : string) : option string :=
  match slots with
  | [] => None
  | s :: rest =>
      if String.eqb path (Rfkill.type_path id) then Some s
      else if String.eqb path (Rfkill.state_path id) then Some state
      else rfkill_file path (id + 1) rest state
  end.

(** An rfkill class directory: a file opens (as descriptor 3) exactly when
    it exists, a read delivers the content of the file opened last, a write
    returns [wr]; the HCI side answers [sk], [io], [fl] and the property
    service [ps]. *)
Definition rfkill_kernel (slots : list string) (state : string)
    (wr sk io fl ps : Z) : kernel :=
  {| k_open := fun _ path _ =>
       match rfkill_file path 0 slots state with Some _ => 3 | None => -1 end;
     k_read := fun t _ _ =>
       match t with
       | EOpen path _ _ :: _ => rfkill_file path 0 slots state
       | _ => None
       end;
     k_write := fun _ _ _ => wr;
     k_socket := fun _ => sk;
     k_ioctl := fun _ _ _ _ => io;
     k_dev_flags := fun _ _ _ => fl;
     k_property_set := fun _ _ _ => ps;
     k_asprintf := fun _ => true |}.

(** [K] with a heap that has no room left: every allocation fails. *)
Definition no_memory (K : kernel) : kernel :=
  {| k_open := k_open K;
     k_read := k_read K;
     k_write := k_write K;
     k_socket := k_socket K;
     k_ioctl := k_ioctl K;
     k_dev_flags := k_dev_flags K;
     k_property_set := k_property_set K;
     k_asprintf := fun _ => false |}.

(** The content of the file at [path] among the files [files]. *)
Fixpoint file_content (path : string) (files : list (string * string))
    : option string :=
  match files with
  | [] => None
  | (name, content) :: rest =>
      if String.eqb path name then Some content else file_content path rest
  end.

(** A file system with exactly the files [files]: a file opens (as
    descriptor 3) exactly when it exists, a read delivers the content of the
    file opened last; everything else succeeds. *)
Definition files_kernel (files : list (string * string)) : kernel :=
  {| k_open := fun _ path _ =>
       match file_content path files with Some _ => 3 | None => -1 end;
     k_read := fun t _ _ =>
       match t with
       | EOpen path _ _ :: _ => file_content path files
       | _ => None
       end;
     k_write := fun _ _ _ => 1;
     k_socket := fun _ => 4;
     k_ioctl := fun _ _ _ _ => 0;
     k_dev_flags := fun _ _ _ => 1;
     k_property_set := fun _ _ _ => 0;
     k_asprintf := fun _ => true |}.

(** A process of the rfkill variant whose binding is already resolved to
    slot [id]. *)
Definition bound (id : Z) : world :=
  {| trace := []; rfkill_id := id;
     rfkill_state_path := Some (Rfkill.state_path id) |}.

(** The state a fresh process of the rfkill variant is in after one
    [bt_is_enabled] on a directory with the slots wlan, bluetooth where
    every call succeeds. *)
Definition after_first_query : world :=
  {| trace := [EClose 4; EIoctl 4 HCIGETDEVINFO 0 0; ESocket 4;
               EClose 3; ERead 3 1 (Some "1");
               EOpen "/sys/class/rfkill/rfkill1/state" O_RDONLY 3;
               EClose 3; ERead 3 16 (Some "bluetooth");
               EOpen "/sys/class/rfkill/rfkill1/type" O_RDONLY 3;
               EClose 3; ERead 3 16 (Some "wlan");
               EOpen "/sys/class/rfkill/rfkill0/type" O_RDONLY 3];
     rfkill_id := 1;
     rfkill_state_path := Some "/sys/class/rfkill/rfkill1/state" |}.

(** The state the same first [bt_is_enabled] leaves when the heap has no
    room for the state path: the slot index is set, the path is NULL. *)
Definition half_bound : world :=
  {| trace := [EClose 3; ERead 3 16 (Some "bluetooth");
               EOpen "/sys/class/rfkill/rfkill1/type" O_RDONLY 3;
               EClose 3; ERead 3 16 (Some "wlan");
               EOpen "/sys/class/rfkill/rfkill0/type" O_RDONLY 3];
     rfkill_id := 1;
     rfkill_state_path := None |}.

(** ** Rfkill slots, as the specification speaks of them *)

(** The index of the first slot, in ascending order, whose type attribute
    begins with "bluetooth". *)
Fixpoint first_bluetooth (slots : list string) : option nat :=
  match slots with
  | [] => None
  | s :: rest =>
      if String.prefix "bluetooth" s then Some 0%nat
      else option_map S (first_bluetooth rest)
  end.

(** The index of the first slot whose type attribute equals [ty]. *)
Fixpoint first_equal (ty : string) (slots : list string) : option nat :=
  match slots with
  | [] => None
  | s :: rest =>
      if String.eqb s ty then Some 0%nat
      else option_map S (first_equal ty rest)
  end.

(** [K] shows an rfkill class directory whose slots are numbered without
    a gap from 0, [0 .. length slots - 1]: the type file of each opens and
    one [read] of it delivers the slot's type attribute, the type file of
    the next index does not open.  What lies beyond that index is left
    open: the scan never gets there. *)
Definition presents (K : kernel) (slots : list string) : Prop :=
  (forall t i s,
     nth_error slots i = Some s ->
     0 <= k_open K t (Rfkill.type_path (Z.of_nat i)) O_RDONLY /\
     forall fd,
       k_read K (EOpen (Rfkill.type_path (Z.of_nat i)) O_RDONLY fd :: t) fd 16
       = Some s) /\
  (forall t,
     k_open K t (Rfkill.type_path (Z.of_nat (List.length slots))) O_RDONLY < 0).

(** Allocations never fail on [K]. *)
Definition allocates (K : kernel) : Prop :=
  forall t, k_asprintf K t = true.

(** Every file opened in [evs] is the state path cached in [w]. *)
Definition opens_cached (w : world) (evs : log) : Prop :=
  forall p fl fd, In (EOpen p fl fd) evs -> rfkill_state_path w = Some p.

(** Lazy resolution of the binding by a power-rail call [c] of the rfkill
    variant ([set_bluetooth_power] or [check_bluetooth_power]) on a
    directory with the slots [slots].

    First use, and every use while the slot index is still unresolved: the
    call returns; its oldest new call is the open of the type file of slot
    0, so the scan runs; it ends with the index of the first slot that
    begins with "bluetooth" and, where allocations do not fail, with the
    state path of that slot, or, when there is no such slot, with -1 and
    the binding still unresolved.

    Later use: with the slot index resolved the call returns, leaves the
    binding as it is and opens no file but the cached state path. *)
Definition binds_lazily (K : kernel) (slots : list string) (c : M Z) : Prop :=
  (forall w,
     rfkill_id w = -1 ->
     exists r w' evs,
       c w = Some (r, w') /\
       trace w' =
         evs ++ [EOpen (Rfkill.type_path 0) O_RDONLY
                   (k_open K (trace w) (Rfkill.type_path 0) O_RDONLY)]
             ++ trace w /\
       match first_bluetooth slots with
       | Some i =>
           rfkill_id w' = Z.of_nat i /\
           (allocates K ->
            rfkill_state_path w' = Some (Rfkill.state_path (Z.of_nat i)))
       | None =>
           r = -1 /\ rfkill_id w' = -1 /\
           rfkill_state_path w' = rfkill_state_path w
       end) /\
  (forall w,
     rfkill_id w <> -1 ->
     exists r w' evs,
       c w = Some (r, w') /\
       binding w' = binding w /\
       trace w' = evs ++ trace w /\
       opens_cached w evs).

(** The paths of the files opened in a log, oldest first. *)
Fixpoint opened (t : log) : list string :=
  match t with
  | [] => []
  | EOpen path _ _ :: t' => opened t' ++ [path]
  | _ :: t' => opened t'
  end.

(** The type files of the slots [0 .. n - 1], in ascending order. *)
Definition type_paths (n : nat) : list string :=
  map (fun i => Rfkill.type_path (Z.of_nat i)) (seq 0 n).

(** ** Descriptors, sleeps and the kinds of call each operation may make *)

(** The descriptors a process holds, and the number of [close] calls it made
    on a descriptor it did not hold, after the calls of the log [t]: an
    [open] or [socket] that returns a non-negative value acquires it, a
    [close] releases it. *)
Fixpoint remove_one (fd : Z) (held : list Z) : option (list Z) :=
  match held with
  | [] => None
  | x :: rest =>
      if x =? fd then Some rest
      else option_map (cons x) (remove_one fd rest)
  end.

Definition acquire (fd : Z) (d : list Z * nat) : list Z * nat :=
  if 0 <=? fd then (fd :: fst d, snd d) else d.

Definition release (fd : Z) (d : list Z * nat) : list Z * nat :=
  match remove_one fd (fst d) with
  | Some held => (held, snd d)
  | None => (fst d, S (snd d))
  end.

Fixpoint descriptors (t : log) : list Z * nat :=
  match t with
  | [] => ([], 0%nat)
  | e :: t' =>
      let d := descriptors t' in
      match e with
      | EOpen _ _ fd => acquire fd d
      | ESocket sk => acquire sk d
      | EClose fd => release fd d
      | _ => d
      end
  end.

(** Every descriptor acquired on the way from [w] to [w'] was released
    again, and nothing else was closed. *)
Definition keeps_descriptors (w w' : world) : Prop :=
  descriptors (trace w') = descriptors (trace w).

(** Microseconds spent in [usleep] and [sleep] by the calls of a log. *)
Fixpoint slept_usec (t : log) : Z :=
  match t with
  | [] => 0
  | EUsleep usec :: t' => usec + slept_usec t'
  | ESleep sec :: t' => 1000000 * sec + slept_usec t'
  | _ :: t' => slept_usec t'
  end.

Definition is_open (e : event) : bool :=
  match e with EOpen _ _ _ => true | _ => false end.

Definition is_read (e : event) : bool :=
  match e with ERead _ _ _ => true | _ => false end.

Definition is_sleep (e : event) : bool :=
  match e with ESleep _ => true | _ => false end.

(** The byte each variant writes for "on" and for "off". *)
Definition power_byte (ugly : bool) (on : Z) : string :=
  if ugly then (if on =? 0 then "N" else "Y")
  else (if on =? 0 then "0" else "1").

(** Calls that bring the radio up: file reads, a write of the "on" byte, a
    socket, HCIDEVUP, a "ctl.start" request, sleeps. *)
Definition enable_call (ugly : bool) (e : event) : bool :=
  match e with
  | EWrite _ data _ => String.eqb data (power_byte ugly 1)
  | EIoctl _ HCIDEVUP _ _ => true
  | EIoctl _ _ _ _ => false
  | EPropertySet key _ _ => String.eqb key "ctl.start"
  | _ => true
  end.

(** Calls that take the radio down: file reads, a write of the "off" byte,
    a socket, HCIDEVDOWN, a "ctl.stop" request, the 500 ms [usleep]. *)
Definition disable_call (ugly : bool) (e : event) : bool :=
  match e with
  | EWrite _ data _ => String.eqb data (power_byte ugly 0)
  | EIoctl _ HCIDEVDOWN _ _ => true
  | EIoctl _ _ _ _ => false
  | EPropertySet key _ _ => String.eqb key "ctl.stop"
  | EUsleep usec => usec =? HCID_STOP_DELAY_USEC
  | ESleep _ => false
  | _ => true
  end.

(** Calls that only look: read-only opens, reads, closes, a socket and
    HCIGETDEVINFO. *)
Definition query_call (e : event) : bool :=
  match e with
  | EOpen _ O_RDONLY _ | ERead _ _ _ | EClose _ | ESocket _ => true
  | EIoctl _ HCIGETDEVINFO _ _ => true
  | _ => false
  end.

(** The most recent complete write in a log, and a kernel whose reads
    deliver it: a one-file store. *)
Fixpoint last_write (t : log) : option string :=
  match t with
  | [] => None
  | EWrite _ data sz :: t' =>
      if sz =? slen data then Some data else last_write t'
  | _ :: t' => last_write t'
  end.

Definition stores (K : kernel) : Prop :=
  forall t fd n, k_read K t fd n = last_write t.

(** Files and sockets open, writes are complete and reads deliver the last
    write; ioctls and the property service answer [io] and [ps]. *)
Definition store_kernel (io ps : Z) : kernel :=
  {| k_open := fun _ _ _ => 3;
     k_read := fun t _ _ => last_write t;
     k_write := fun _ _ data => slen data;
     k_socket := fun _ => 4;
     k_ioctl := fun _ _ _ _ => io;
     k_dev_flags := fun _ _ _ => 1;
     k_property_set := fun _ _ _ => ps;
     k_asprintf := fun _ => true |}.

(** The path a resolved slot index comes with, as [asprintf] left it: the
    state path of that slot if the heap had room for it at that moment, and
    NULL if not. *)
Definition asprintf_result (K : kernel) (id : Z) (path : option string)
    : Prop :=
  exists t,
    path = if k_asprintf K t then Some (Rfkill.state_path id) else None.

(** The statics are consistent: unresolved with no path, or a slot index
    with the path of that slot. *)
Definition well_bound (K : kernel) (w : world) : Prop :=
  (rfkill_id w = -1 /\ rfkill_state_path w = None) \/
  (0 <= rfkill_id w /\ asprintf_result K (rfkill_id w) (rfkill_state_path w)).

(** The statics are complete: unresolved with no path, or a slot index
    with the state path of that very slot. *)
Definition fully_bound (w : world) : Prop :=
  (rfkill_id w = -1 /\ rfkill_state_path w = None) \/
  (0 <= rfkill_id w /\
   rfkill_state_path w = Some (Rfkill.state_path (rfkill_id w))).

(** The binding is written at most once: from [w] to [w'] the statics are
    unchanged, or the slot index was unresolved and now names a slot, with
    the path of that slot. *)
Definition binds_once (K : kernel) (w w' : world) : Prop :=
  binding w' = binding w \/
  (rfkill_id w = -1 /\ 0 <= rfkill_id w' /\
   asprintf_result K (rfkill_id w') (rfkill_state_path w')).

(** The states a process can be in: the initial one, and those after any
    number of calls of the three public functions that returned. *)
Inductive reachable (K : kernel) (ugly : bool) (fuel : nat) : world -> Prop :=
| reach_fresh : reachable K ugly fuel fresh
| reach_enable w r w' :
    reachable K ugly fuel w ->
    bt_enable K ugly fuel w = Some (r, w') -> reachable K ugly fuel w'
| reach_disable w r w' :
    reachable K ugly fuel w ->
    bt_disable K ugly fuel w = Some (r, w') -> reachable K ugly fuel w'
| reach_is_enabled w r w' :
    reachable K ugly fuel w ->
    bt_is_enabled K ugly fuel w = Some (r, w') -> reachable K ugly fuel w'.

(** Three sample states: after [bt_enable] from a fresh process on a kernel
    whose HCIDEVUP succeeds at the second attempt, after [bt_is_enabled]
    and after [bt_disable] from a fresh process on a kernel where every call
    succeeds (direct-file variant). *)
Definition after_enable : world :=
  {| trace := [EClose 4; ESleep 5; EPropertySet "ctl.start" "hcid" 0;
               EIoctl 4 HCIDEVUP 0 0; ESocket 4;
               EUsleep 10000; EClose 4; EIoctl 4 HCIDEVUP 0 (-1); ESocket 4;
               EPropertySet "ctl.start" "hciattach" 0;
               EClose 3; EWrite 3 "Y" 1;
               EOpen UglyPower.BLUETOOTH_POWER_PATH O_WRONLY 3];
     rfkill_id := -1; rfkill_state_path := None |}.

Definition after_query : world :=
  {| trace := [EClose 4; EIoctl 4 HCIGETDEVINFO 0 0; ESocket 4; EClose 3;
               ERead 3 1 (Some "Y");
               EOpen UglyPower.BLUETOOTH_POWER_PATH O_RDONLY 3];
     rfkill_id := -1; rfkill_state_path := None |}.

Definition after_disable : world :=
  {| trace := [EClose 4; EClose 3; EWrite 3 "N" 1;
               EOpen UglyPower.BLUETOOTH_POWER_PATH O_WRONLY 3;
               EPropertySet "ctl.stop" "hciattach" 0;
               EIoctl 4 HCIDEVDOWN 0 0; ESocket 4; EUsleep 500000;
               EPropertySet "ctl.stop" "hcid" 0];
     rfkill_id := -1; rfkill_state_path := None |}.

(** * General facts about the monad and the log *)

Lemma count_app p t1 t2 : count p (t1 ++ t2) = (count p t1 + count p t2)%nat.
Proof. unfold count. now rewrite filter_app, length_app. Qed.

Lemma count_cons p e t :
  count p (e :: t) = ((if p e then 1 else 0) + count p t)%nat.
Proof. unfold count. simpl. now destruct (p e). Qed.

Lemma count_none p q t :
  forallb p t = true -> (forall e, p e = true -> q e = false) -> count q t = 0%nat.
Proof.
  intros Hall Hpq. induction t as [|e t IH]; [reflexivity|].
  simpl in Hall. apply andb_true_iff in Hall as [He Ht].
  rewrite count_cons, (Hpq e He). now apply IH.
Qed.

Lemma adds_refl p w : adds p w w.
Proof. now exists []. Qed.

Lemma adds_trans p w1 w2 w3 : adds p w1 w2 -> adds p w2 w3 -> adds p w1 w3.
Proof.
  intros (e1 & H1 & F1) (e2 & H2 & F2). exists (e2 ++ e1). split.
  - now rewrite H2, H1, app_assoc.
  - rewrite forallb_app. now rewrite F1, F2.
Qed.

Lemma adds_emit (p : event -> bool) e w : p e = true -> adds p w (emit e w).
Proof. intros H. exists [e]. simpl. now rewrite H. Qed.

Section Respect.

Context (R : world -> world -> Prop).
Hypothesis R_refl : forall w, R w w.
Hypothesis R_trans : forall w1 w2 w3, R w1 w2 -> R w2 w3 -> R w1 w3.

Lemma respects_ret {A} (a : A) : respects R (ret a).
Proof. intros w a' w' H. inversion H; subst. apply R_refl. Qed.

Lemma respects_bind {A B} (m : M A) (k : A -> M B) :
  respects R m -> (forall a, respects R (k a)) -> respects R (bind m k).
Proof.
  intros Hm Hk w b w' H. unfold bind in H.
  destruct (m w) as [[a w1]|] eqn:E; [|discriminate].
  eapply R_trans; [eapply Hm, E | eapply Hk, H].
Qed.

Lemma respects_diverge {A} : respects R (@diverge A).
Proof. intros w a w' H. discriminate. Qed.

Lemma respects_if {A} (b : bool) (m1 m2 : M A) :
  respects R m1 -> respects R m2 -> respects R (if b then m1 else m2).
Proof. now destruct b. Qed.

End Respect.

Lemma same_binding_refl w : same_binding w w.
Proof. reflexivity. Qed.

Lemma same_binding_trans w1 w2 w3 :
  same_binding w1 w2 -> same_binding w2 w3 -> same_binding w1 w3.
Proof. unfold same_binding. congruence. Qed.

Create HintDb bt discriminated.

#[local] Hint Resolve adds_refl adds_trans same_binding_refl
  same_binding_trans : bt.
#[local] Hint Resolve respects_ret respects_bind respects_diverge
  respects_if : bt.

Section CallFacts.

Variable K : kernel.
Variable p : event -> bool.

Lemma sys_open_adds path fl :
  (forall fd, p (EOpen path fl fd) = true) -> respects (adds p) (sys_open K path fl).
Proof. intros H w a w' E. inversion E; subst. now apply adds_emit. Qed.

Lemma sys_read_adds fd n :
  (forall r, p (ERead fd n r) = true) -> respects (adds p) (sys_read K fd n).
Proof.
  intros H w a w' E. unfold sys_read in E.
  destruct (k_read K (trace w) fd n); inversion E; subst; now apply adds_emit.
Qed.

Lemma sys_write_adds fd data :
  (forall sz, p (EWrite fd data sz) = true) -> respects (adds p) (sys_write K fd data).
Proof. intros H w a w' E. inversion E; subst. now apply adds_emit. Qed.

Lemma sys_close_adds fd :
  p (EClose fd) = true -> respects (adds p) (sys_close fd).
Proof. intros H w a w' E. inversion E; subst. now apply adds_emit. Qed.

Lemma out_adds fd r :
  p (EClose fd) = true -> respects (adds p) (out fd r).
Proof.
  intros H. unfold out. destruct (0 <=? fd).
  - apply respects_bind; eauto with bt. now apply sys_close_adds.
  - eauto with bt.
Qed.

End CallFacts.

Section CallFrame.

Variable K : kernel.

Lemma sys_open_frame path fl : respects same_binding (sys_open K path fl).
Proof. intros w a w' E. now inversion E. Qed.

Lemma sys_read_frame fd n : respects same_binding (sys_read K fd n).
Proof.
  intros w a w' E. unfold sys_read in E.
  now destruct (k_read K (trace w) fd n); inversion E.
Qed.

Lemma sys_write_frame fd data : respects same_binding (sys_write K fd data).
Proof. intros w a w' E. now inversion E. Qed.

Lemma sys_close_frame fd : respects same_binding (sys_close fd).
Proof. intros w a w' E. now inversion E. Qed.

Lemma sys_socket_frame : respects same_binding (sys_socket K).
Proof. intros w a w' E. now inversion E. Qed.

Lemma sys_ioctl_frame sk req dev : respects same_binding (sys_ioctl K sk req dev).
Proof. intros w a w' E. now inversion E. Qed.

Lemma sys_ioctl_devinfo_frame sk dev :
  respects same_binding (sys_ioctl_devinfo K sk dev).
Proof. intros w a w' E. now inversion E. Qed.

Lemma property_set_frame key v : respects same_binding (property_set K key v).
Proof. intros w a w' E. now inversion E. Qed.

Lemma out_frame fd r : respects same_binding (out fd r).
Proof.
  unfold out. destruct (0 <=? fd); eauto using sys_close_frame with bt.
Qed.

End CallFrame.

#[local] Hint Resolve sys_open_frame sys_read_frame sys_write_frame
  sys_close_frame sys_socket_frame sys_ioctl_frame sys_ioctl_devinfo_frame
  property_set_frame out_frame : bt.
#[local] Hint Resolve sys_open_adds sys_read_adds sys_write_adds
  sys_close_adds out_adds : bt.

(** * The power rail *)

Section PowerFacts.

Variable K : kernel.

(** The direct-file variant makes file calls only and has no statics. *)
Lemma ugly_set_adds on :
  respects (adds is_file_event) (UglyPower.set_bluetooth_power K on).
Proof. unfold UglyPower.set_bluetooth_power. eauto 20 with bt. Qed.

Lemma ugly_check_adds :
  respects (adds is_file_event) (UglyPower.check_bluetooth_power K).
Proof. unfold UglyPower.check_bluetooth_power. eauto 20 with bt. Qed.

Lemma ugly_set_frame on :
  respects same_binding (UglyPower.set_bluetooth_power K on).
Proof. unfold UglyPower.set_bluetooth_power. eauto 20 with bt. Qed.

Lemma ugly_check_frame :
  respects same_binding (UglyPower.check_bluetooth_power K).
Proof. unfold UglyPower.check_bluetooth_power. eauto 20 with bt. Qed.

(** The direct-file variant always returns. *)
Lemma ugly_check_total w :
  exists r w', UglyPower.check_bluetooth_power K w = Some (r, w').
Proof.
  unfold UglyPower.check_bluetooth_power, bind, sys_open, sys_read, out,
    sys_close, ret, bind.
  destruct (_ =? -1); [destruct (0 <=? _); eauto|].
  destruct (k_read _ _ _ _); cbn [fst snd];
    repeat match goal with |- context [if ?b then _ else _] => destruct b end;
    eauto.
Qed.

Lemma ugly_set_total on w :
  exists r w', UglyPower.set_bluetooth_power K on w = Some (r, w').
Proof.
  unfold UglyPower.set_bluetooth_power, bind, sys_open, sys_write, out,
    sys_close, ret, bind.
  repeat match goal with |- context [if ?b then _ else _] => destruct b end;
    eauto.
Qed.

(** The scan makes file calls only. *)
Lemma set_rfkill_id_adds id :
  respects (adds is_file_event) (Rfkill.set_rfkill_id id).
Proof. intros w a w' E. inversion E; subst. now exists []. Qed.

Lemma asprintf_state_path_adds :
  respects (adds is_file_event) (Rfkill.asprintf_state_path K).
Proof. intros w a w' E. inversion E; subst. now exists []. Qed.

Lemma init_rfkill_from_adds fuel :
  forall id, respects (adds is_file_event) (Rfkill.init_rfkill_from K fuel id).
Proof.
  induction fuel as [|fuel IH]; intros id; simpl;
    eauto 20 using set_rfkill_id_adds, asprintf_state_path_adds with bt.
Qed.

Lemma open_state_path_adds fl :
  respects (adds is_file_event) (Rfkill.open_state_path K fl).
Proof.
  intros w a w' E. unfold Rfkill.open_state_path in E.
  destruct (rfkill_state_path w).
  - revert E. apply sys_open_adds. reflexivity.
  - inversion E; subst. eauto with bt.
Qed.

Lemma open_state_path_frame fl :
  respects same_binding (Rfkill.open_state_path K fl).
Proof.
  intros w a w' E. unfold Rfkill.open_state_path in E.
  destruct (rfkill_state_path w).
  - revert E. apply sys_open_frame.
  - now inversion E.
Qed.

Lemma with_binding_adds fuel k :
  respects (adds is_file_event) k ->
  respects (adds is_file_event) (Rfkill.with_binding K fuel k).
Proof.
  intros Hk. unfold Rfkill.with_binding, Rfkill.get_rfkill_id.
  apply respects_bind; eauto with bt.
  - intros w a w' E. inversion E; subst. eauto with bt.
  - intros id. unfold Rfkill.init_rfkill.
    eauto 20 using init_rfkill_from_adds with bt.
Qed.

Lemma rfkill_check_adds fuel :
  respects (adds is_file_event) (Rfkill.check_bluetooth_power K fuel).
Proof.
  apply with_binding_adds. eauto 20 using open_state_path_adds with bt.
Qed.

Lemma rfkill_set_adds fuel on :
  respects (adds is_file_event) (Rfkill.set_bluetooth_power K fuel on).
Proof.
  apply with_binding_adds. eauto 20 using open_state_path_adds with bt.
Qed.

Lemma set_power_adds ugly fuel on :
  respects (adds is_file_event) (set_bluetooth_power K ugly fuel on).
Proof. destruct ugly; [apply ugly_set_adds | apply rfkill_set_adds]. Qed.

Lemma check_power_adds ugly fuel :
  respects (adds is_file_event) (check_bluetooth_power K ugly fuel).
Proof. destruct ugly; [apply ugly_check_adds | apply rfkill_check_adds]. Qed.

(** Once the binding is resolved the scan is skipped, whatever the fuel. *)
Lemma with_binding_resolved fuel k w :
  rfkill_id w <> -1 -> Rfkill.with_binding K fuel k w = k w.
Proof.
  intros H. unfold Rfkill.with_binding, Rfkill.get_rfkill_id, bind.
  apply Z.eqb_neq in H. now rewrite H.
Qed.

(** On an unresolved binding the scan runs first. *)
Lemma with_binding_unresolved fuel k w :
  rfkill_id w = -1 ->
  Rfkill.with_binding K fuel k w =
  match Rfkill.init_rfkill K fuel w with
  | Some (r, w0) => if r =? 0 then k w0 else Some (-1, w0)
  | None => None
  end.
Proof.
  intros H. unfold Rfkill.with_binding, Rfkill.get_rfkill_id, bind.
  rewrite H. simpl.
  destruct (Rfkill.init_rfkill K fuel w) as [[r w0]|]; [|reflexivity].
  now destruct (r =? 0).
Qed.

(** What the power read can return: 1, 0 or -1. *)
Lemma out_value fd r w a w' : out fd r w = Some (a, w') -> a = r.
Proof.
  unfold out, bind, sys_close, ret. destruct (0 <=? fd); now inversion 1.
Qed.

Lemma ugly_check_range w r w' :
  UglyPower.check_bluetooth_power K w = Some (r, w') ->
  r = -1 \/ r = 0 \/ r = 1.
Proof.
  unfold UglyPower.check_bluetooth_power, bind, sys_open.
  destruct (_ =? -1); [intros E; apply out_value in E; auto|].
  destruct (sys_read _ _ _ _) as [[rd w1]|]; [|discriminate].
  repeat match goal with |- context [if ?b then _ else _] => destruct b end;
    intros E; apply out_value in E; auto.
Qed.

Lemma with_binding_value (Q : Z -> Prop) fuel k :
  Q (-1) ->
  (forall w a w', k w = Some (a, w') -> Q a) ->
  forall w a w', Rfkill.with_binding K fuel k w = Some (a, w') -> Q a.
Proof.
  intros Hfail Hk w a w'.
  destruct (Z.eq_dec (rfkill_id w) (-1)) as [E|E].
  - rewrite with_binding_unresolved by assumption.
    destruct (Rfkill.init_rfkill K fuel w) as [[r0 w0]|]; [|discriminate].
    destruct (r0 =? 0); [apply Hk|]. now inversion 1.
  - rewrite with_binding_resolved by assumption. apply Hk.
Qed.

Lemma rfkill_check_range fuel w r w' :
  Rfkill.check_bluetooth_power K fuel w = Some (r, w') ->
  r = -1 \/ r = 0 \/ r = 1.
Proof.
  revert w r w'. apply with_binding_value; [auto|].
  intros w r w'. unfold bind.
  destruct (Rfkill.open_state_path _ _ _) as [[fd w0]|]; [|discriminate].
  destruct (fd <? 0); [intros E; apply out_value in E; auto|].
  destruct (sys_read _ _ _ _) as [[rd w1]|]; [|discriminate].
  repeat match goal with |- context [if ?b then _ else _] => destruct b end;
    intros E; apply out_value in E; auto.
Qed.

Lemma check_power_range ugly fuel w r w' :
  check_bluetooth_power K ugly fuel w = Some (r, w') ->
  r = -1 \/ r = 0 \/ r = 1.
Proof.
  destruct ugly; [apply ugly_check_range | apply rfkill_check_range].
Qed.

End PowerFacts.

(** The two tests the code puts on a descriptor, [x < 0] after the call and
    [x >= 0] at [out:], agree. *)
Lemma neg_not_nonneg x : (x <? 0) = true -> (0 <=? x) = false.
Proof. rewrite Z.ltb_lt, Z.leb_gt. trivial. Qed.

Lemma not_neg_nonneg x : (x <? 0) = false -> (0 <=? x) = true.
Proof. rewrite Z.ltb_ge, Z.leb_le. trivial. Qed.

(** * bt_is_enabled *)

Section IsEnabled.

Variable K : kernel.
Variable ugly : bool.
Variable fuel : nat.

(** The whole of [bt_is_enabled] after the power read, call by call. *)
Lemma bt_is_enabled_after_power w p w1 :
  check_bluetooth_power K ugly fuel w = Some (p, w1) ->
  bt_is_enabled K ugly fuel w =
  if (p =? -1) || (p =? 0) then Some (p, w1)
  else
    let sk := k_socket K (trace w1) in
    let w2 := emit (ESocket sk) w1 in
    if sk <? 0 then Some (-1, w2)
    else
      let r := k_ioctl K (trace w2) sk HCIGETDEVINFO HCI_DEV_ID in
      let fl := k_dev_flags K (trace w2) sk HCI_DEV_ID in
      let w3 := emit (EIoctl sk HCIGETDEVINFO HCI_DEV_ID r) w2 in
      Some (if r <? 0 then 0 else hci_test_bit HCI_UP fl, emit (EClose sk) w3).
Proof.
  intros Hp. unfold bt_is_enabled, bind. rewrite Hp.
  destruct ((p =? -1) || (p =? 0)); [reflexivity|].
  unfold create_hci_sock, sys_socket. cbv zeta.
  destruct (k_socket K (trace w1) <? 0) eqn:Hsk.
  - unfold out. now rewrite (neg_not_nonneg _ Hsk).
  - unfold sys_ioctl_devinfo. cbn [fst snd].
    unfold out, bind, sys_close, ret.
    rewrite (not_neg_nonneg _ Hsk). now case_if.
Qed.

Lemma hci_test_bit_up fl :
  hci_test_bit HCI_UP fl = Z.b2z (Z.testbit fl HCI_UP).
Proof.
  unfold hci_test_bit, HCI_UP. change (Z.shiftl 1 (Z.land 0 31)) with (Z.ones 1).
  rewrite Z.land_ones by lia. now rewrite Z.bit0_mod.
Qed.

End IsEnabled.

(** * Claims about bt_is_enabled *)

(** C1, as amended.  When the power read does not return On, [bt_is_enabled]
    returns what the power read returned - 0 (Disabled) for Off, -1 (the
    error outcome) for Unknown or unreadable - and stops there: the state is
    the one the power read left, whose new calls are file calls only, so no
    HCI socket was created and no ioctl issued. *)
Theorem bt_is_enabled_power_not_on K ugly fuel w p w1 :
  check_bluetooth_power K ugly fuel w = Some (p, w1) ->
  p <> 1 ->
  bt_is_enabled K ugly fuel w = Some (p, w1) /\
  (p = 0 \/ p = -1) /\
  exists evs, trace w1 = evs ++ trace w /\
              count is_socket evs = 0%nat /\ count is_ioctl evs = 0%nat.
Proof.
  intros Hp Hoff.
  rewrite (bt_is_enabled_after_power _ _ _ _ _ _ Hp).
  destruct (check_power_range _ _ _ _ _ _ Hp) as [->| [->| ->]];
    try contradiction; (split; [reflexivity|]); (split; [auto|]);
    destruct (check_power_adds _ _ _ _ _ _ Hp) as (evs & Ht & Hf);
    exists evs; (split; [assumption|]);
    split; apply (count_none _ _ _ Hf); now destruct e.
Qed.

Lemma bt_is_enabled_power_not_on_witness :
  bt_is_enabled (const_kernel 3 (Some "N") 1 4 0 1 0) true 0 fresh =
  Some (0, {| trace := [EClose 3; ERead 3 1 (Some "N");
                        EOpen UglyPower.BLUETOOTH_POWER_PATH O_RDONLY 3];
              rfkill_id := -1; rfkill_state_path := None |}).
Proof.
  apply (bt_is_enabled_power_not_on
           (const_kernel 3 (Some "N") 1 4 0 1 0) true 0 fresh 0).
  - reflexivity.
  - discriminate.
Defined.

(** C1 as stated fails: with an unreadable power file the power read is
    Unknown and [bt_is_enabled] returns -1, which is not Disabled (0). *)
Lemma bt_is_enabled_unknown_power_is_error :
  check_bluetooth_power dead_kernel true 0 fresh =
    Some (-1, emit (EOpen UglyPower.BLUETOOTH_POWER_PATH O_RDONLY (-1)) fresh) /\
  bt_is_enabled dead_kernel true 0 fresh =
    Some (-1, emit (EOpen UglyPower.BLUETOOTH_POWER_PATH O_RDONLY (-1)) fresh) /\
  ~ (exists w', bt_is_enabled dead_kernel true 0 fresh = Some (0, w')).
Proof.
  split; [reflexivity|]. split; [reflexivity|].
  intros [w' H]. vm_compute in H. discriminate.
Qed.

(** C2.  [bt_is_enabled] returns 1 (Enabled) exactly when the power read
    returns On, the socket is created, HCIGETDEVINFO succeeds and the up bit
    is set in the flags it returned; when the power read returns On, the
    socket is created and HCIGETDEVINFO fails, it returns 0 (Disabled), not
    the error outcome. *)
Theorem bt_is_enabled_enabled_iff K ugly fuel w p w1 :
  check_bluetooth_power K ugly fuel w = Some (p, w1) ->
  let sk := k_socket K (trace w1) in
  let t2 := ESocket sk :: trace w1 in
  exists r w',
    bt_is_enabled K ugly fuel w = Some (r, w') /\
    (r = 1 <->
       p = 1 /\ 0 <= sk /\ 0 <= k_ioctl K t2 sk HCIGETDEVINFO HCI_DEV_ID /\
       Z.testbit (k_dev_flags K t2 sk HCI_DEV_ID) HCI_UP = true) /\
    (p = 1 -> 0 <= sk -> k_ioctl K t2 sk HCIGETDEVINFO HCI_DEV_ID < 0 ->
       r = 0).
Proof.
  intros Hp sk t2.
  rewrite (bt_is_enabled_after_power _ _ _ _ _ _ Hp).
  destruct (check_power_range _ _ _ _ _ _ Hp) as [->| [->| ->]].
  - simpl. do 2 eexists. split; [reflexivity|]. split; [|lia].
    split; [discriminate|]. intros []. discriminate.
  - simpl. do 2 eexists. split; [reflexivity|]. split; [|lia].
    split; [discriminate|]. intros []. discriminate.
  - cbn [Z.eqb orb Pos.eqb]. cbv zeta. fold sk. cbn [trace emit]. fold t2.
    destruct (sk <? 0) eqn:Hsk.
    + do 2 eexists. split; [reflexivity|]. apply Z.ltb_lt in Hsk.
      split; [|lia]. split; [discriminate|]. lia.
    + apply Z.ltb_ge in Hsk.
      destruct (k_ioctl K t2 sk HCIGETDEVINFO HCI_DEV_ID <? 0) eqn:Hio.
      * do 2 eexists. split; [reflexivity|]. apply Z.ltb_lt in Hio.
        split; [|reflexivity]. split; [discriminate|]. lia.
      * apply Z.ltb_ge in Hio.
        do 2 eexists. split; [reflexivity|]. split; [|lia].
        rewrite hci_test_bit_up.
        destruct (Z.testbit _ HCI_UP); simpl; split; try tauto;
          try discriminate. intros (_ & _ & _ & ?). discriminate.
Qed.

Lemma bt_is_enabled_enabled_iff_witness :
  exists r w',
    bt_is_enabled (const_kernel 3 (Some "Y") 1 4 0 5 0) true 0 fresh =
      Some (r, w') /\
    (r = 1 <-> 1 = 1 /\ 0 <= 4 /\ 0 <= 0 /\ Z.testbit 5 HCI_UP = true) /\
    (1 = 1 -> 0 <= 4 -> 0 < 0 -> r = 0).
Proof.
  apply (bt_is_enabled_enabled_iff
           (const_kernel 3 (Some "Y") 1 4 0 5 0) true 0 fresh 1
           {| trace := [EClose 3; ERead 3 1 (Some "Y");
                        EOpen UglyPower.BLUETOOTH_POWER_PATH O_RDONLY 3];
              rfkill_id := -1; rfkill_state_path := None |}).
  reflexivity.
Defined.

(** C10.  When the power read returns On and the HCI socket cannot be
    created, [bt_is_enabled] returns -1 and calls nothing after the failed
    [socket].  That outcome is neither of the two that mean Disabled: power
    Off returns 0, and so does a failed HCIGETDEVINFO on a created socket. *)
Theorem bt_is_enabled_socket_failure K ugly fuel w p w1 :
  check_bluetooth_power K ugly fuel w = Some (p, w1) ->
  let sk := k_socket K (trace w1) in
  let w2 := emit (ESocket sk) w1 in
  (p = 1 -> sk < 0 -> bt_is_enabled K ugly fuel w = Some (-1, w2)) /\
  (p = 0 -> bt_is_enabled K ugly fuel w = Some (0, w1)) /\
  (p = 1 -> 0 <= sk ->
   k_ioctl K (trace w2) sk HCIGETDEVINFO HCI_DEV_ID < 0 ->
   exists w', bt_is_enabled K ugly fuel w = Some (0, w')).
Proof.
  intros Hp sk w2.
  rewrite (bt_is_enabled_after_power _ _ _ _ _ _ Hp). cbv zeta.
  fold sk. fold w2. repeat split.
  - intros -> Hsk. cbn [Z.eqb orb Pos.eqb].
    now rewrite (proj2 (Z.ltb_lt _ _) Hsk).
  - intros ->. reflexivity.
  - intros -> Hsk Hio. cbn [Z.eqb orb Pos.eqb].
    rewrite (proj2 (Z.ltb_ge _ _) Hsk), (proj2 (Z.ltb_lt _ _) Hio). eauto.
Qed.

Lemma bt_is_enabled_socket_failure_witness :
  bt_is_enabled (const_kernel 3 (Some "Y") 1 (-1) 0 1 0) true 0 fresh =
    Some (-1, {| trace := [ESocket (-1); EClose 3; ERead 3 1 (Some "Y");
                           EOpen UglyPower.BLUETOOTH_POWER_PATH O_RDONLY 3];
                 rfkill_id := -1; rfkill_state_path := None |}).
Proof.
  apply (proj1 (bt_is_enabled_socket_failure
                  (const_kernel 3 (Some "Y") 1 (-1) 0 1 0) true 0 fresh 1
                  {| trace := [EClose 3; ERead 3 1 (Some "Y");
                               EOpen UglyPower.BLUETOOTH_POWER_PATH O_RDONLY 3];
                     rfkill_id := -1; rfkill_state_path := None |}
                  eq_refl)).
  - reflexivity.
  - reflexivity.
Defined.

(** * bt_enable *)

Lemma out_run fd r w :
  out fd r w = Some (r, if 0 <=? fd then emit (EClose fd) w else w).
Proof. unfold out. now destruct (0 <=? fd). Qed.

Section Enable.

Variable K : kernel.

Lemma start_hcid_run sk w :
  0 <= sk ->
  let p := k_property_set K (trace w) "ctl.start" "hcid" in
  let w1 := emit (EPropertySet "ctl.start" "hcid" p) w in
  start_hcid K sk w =
  Some (if p <? 0 then -1 else 0,
        emit (EClose sk)
          (if p <? 0 then w1 else emit (ESleep HCID_START_DELAY_SEC) w1)).
Proof.
  intros Hsk p w1. apply Z.leb_le in Hsk.
  unfold start_hcid, bind, property_set. fold p. fold w1.
  destruct (p <? 0); [|unfold sleep]; rewrite out_run, Hsk; reflexivity.
Qed.

Lemma poll_hci_up_step attempt hci_sock w :
  let sk := k_socket K (trace w) in
  let w1 := emit (ESocket sk) w in
  let r := k_ioctl K (trace w1) sk HCIDEVUP HCI_DEV_ID in
  poll_hci_up K (S attempt) hci_sock w =
  if sk <? 0 then Some (GotoOut sk, w1)
  else if r =? 0 then
         Some (Break sk (S attempt), emit (EIoctl sk HCIDEVUP HCI_DEV_ID r) w1)
       else poll_hci_up K attempt sk (failed_turn K w).
Proof.
  cbv zeta. cbn [poll_hci_up]. unfold bind at 1.
  unfold create_hci_sock, sys_socket.
  destruct (k_socket K (trace w) <? 0); [reflexivity|].
  unfold bind at 1. unfold sys_ioctl at 1.
  destruct (k_ioctl K _ _ HCIDEVUP HCI_DEV_ID =? 0); reflexivity.
Qed.

(** Whatever the kernel does, the loop returns, and it has then made at most
    [attempt] sockets, at most [attempt] HCIDEVUP calls and nothing but
    socket, ioctl, close and usleep calls; the statics are untouched. *)
Lemma poll_hci_up_bounded attempt :
  forall hci_sock w,
  exists e w' evs,
    poll_hci_up K attempt hci_sock w = Some (e, w') /\
    trace w' = evs ++ trace w /\ binding w' = binding w /\
    (count is_devup evs <= attempt)%nat /\
    (count is_socket evs <= attempt)%nat /\
    count is_service evs = 0%nat /\
    match e with
    | Break sk _ => 0 <= sk
    | GotoOut sk => sk < 0
    | Exhausted sk => sk = hci_sock \/ 0 <= sk
    end.
Proof.
  induction attempt as [|attempt IH]; intros hci_sock w.
  - exists (Exhausted hci_sock), w, []. cbn. repeat split; auto.
  - rewrite poll_hci_up_step. cbv zeta.
    destruct (k_socket K (trace w) <? 0) eqn:Hsk.
    + do 2 eexists. exists [ESocket (k_socket K (trace w))].
      cbn. repeat split; auto; try lia.
    + apply Z.ltb_ge in Hsk. case_if.
      * do 2 eexists.
        exists [EIoctl (k_socket K (trace w)) HCIDEVUP HCI_DEV_ID
                  (k_ioctl K (ESocket (k_socket K (trace w)) :: trace w)
                     (k_socket K (trace w)) HCIDEVUP HCI_DEV_ID);
                ESocket (k_socket K (trace w))].
        cbn. repeat split; auto; lia.
      * destruct (IH (k_socket K (trace w)) (failed_turn K w))
          as (e & w' & evs & Hrun & Ht & Hb & Hd & Hs & Hp & He).
        exists e, w'. eexists (evs ++ [_; _; _; _]).
        split; [exact Hrun|]. split.
        { rewrite Ht, <- app_assoc. reflexivity. }
        split; [exact Hb|].
        rewrite !count_app. cbn.
        repeat split; try lia.
        destruct e; auto. destruct He as [->|]; auto.
Qed.

(** If HCIDEVUP never succeeds and sockets are always created, the loop
    runs out after exactly [attempt] turns. *)
Lemma poll_hci_up_never attempt :
  (forall t sk, k_ioctl K t sk HCIDEVUP HCI_DEV_ID <> 0) ->
  (forall t, 0 <= k_socket K t) ->
  forall hci_sock w,
  exists sk w' evs,
    poll_hci_up K attempt hci_sock w = Some (Exhausted sk, w') /\
    trace w' = evs ++ trace w /\
    count is_devup evs = attempt /\ count is_usleep evs = attempt.
Proof.
  intros Hup Hsock.
  induction attempt as [|attempt IH]; intros hci_sock w.
  - exists hci_sock, w, []. cbn. auto.
  - rewrite poll_hci_up_step. cbv zeta.
    assert ((k_socket K (trace w) <? 0) = false) as -> by (apply Z.ltb_ge, Hsock).
    assert (forall t sk, (k_ioctl K t sk HCIDEVUP HCI_DEV_ID =? 0) = false) as ->
      by (intros; apply Z.eqb_neq, Hup).
    destruct (IH (k_socket K (trace w)) (failed_turn K w))
      as (sk & w' & evs & Hrun & Ht & Hd & Hu).
    exists sk, w'. eexists (evs ++ [_; _; _; _]).
    split; [exact Hrun|]. split.
    { rewrite Ht, <- app_assoc. reflexivity. }
    rewrite !count_app. cbn. lia.
Qed.

(** If HCIDEVUP fails as long as fewer than [c] calls to it are in the log
    and succeeds once [c] are, the loop started [d] calls short of [c] leaves
    by [break] in its turn [d + 1], having made [d] failed turns before. *)
Lemma poll_hci_up_first_success c :
  (forall t, (count is_devup t <= c)%nat -> 0 <= k_socket K t) ->
  (forall t sk, (count is_devup t < c)%nat ->
                k_ioctl K t sk HCIDEVUP HCI_DEV_ID <> 0) ->
  (forall t sk, count is_devup t = c ->
                k_ioctl K t sk HCIDEVUP HCI_DEV_ID = 0) ->
  forall d attempt hci_sock w,
  (count is_devup (trace w) + d)%nat = c ->
  (d < attempt)%nat ->
  exists sk pre,
    poll_hci_up K attempt hci_sock w =
      Some (Break sk (attempt - d),
            {| trace := EIoctl sk HCIDEVUP HCI_DEV_ID 0 :: ESocket sk ::
                        pre ++ trace w;
               rfkill_id := rfkill_id w;
               rfkill_state_path := rfkill_state_path w |}) /\
    0 <= sk /\
    count is_socket pre = d /\ count is_devup pre = d /\
    count is_usleep pre = d /\ count is_service pre = 0%nat.
Proof.
  intros Hsock Hfail Hok.
  induction d as [|d IH]; intros attempt hci_sock w Hc Hlt;
    (destruct attempt as [|attempt]; [lia|]);
    rewrite poll_hci_up_step; cbv zeta;
    assert (Hsk : 0 <= k_socket K (trace w)) by (apply Hsock; lia);
    rewrite (proj2 (Z.ltb_ge _ _) Hsk).
  - rewrite Hok by (cbn [trace emit]; rewrite count_cons; cbn; lia).
    cbn [Z.eqb]. exists (k_socket K (trace w)), [].
    rewrite Nat.sub_0_r. cbn. repeat split; auto.
  - assert ((k_ioctl K (trace (emit (ESocket (k_socket K (trace w))) w))
               (k_socket K (trace w)) HCIDEVUP HCI_DEV_ID =? 0) = false) as ->.
    { apply Z.eqb_neq, Hfail. cbn [trace emit]. rewrite count_cons. cbn. lia. }
    destruct (IH attempt (k_socket K (trace w)) (failed_turn K w))
      as (sk & pre & Hrun & Hsk' & Hs & Hd & Hu & Hp).
    { unfold failed_turn. cbn [trace emit]. rewrite !count_cons. cbn. lia. }
    { lia. }
    exists sk. eexists (pre ++ [_; _; _; _]).
    split.
    { rewrite Hrun. cbn [Nat.sub]. unfold failed_turn. cbn [trace emit rfkill_id
        rfkill_state_path]. rewrite <- app_assoc. reflexivity. }
    rewrite !count_app. cbn. repeat split; lia.
Qed.

(** [bt_enable] after the power write, stage by stage. *)
Lemma bt_enable_after_power ugly fuel w r1 w1 :
  set_bluetooth_power K ugly fuel 1 w = Some (r1, w1) ->
  let p := k_property_set K (trace w1) "ctl.start" "hciattach" in
  let w2 := emit (EPropertySet "ctl.start" "hciattach" p) w1 in
  bt_enable K ugly fuel w =
  if r1 <? 0 then Some (-1, w1)
  else if p <? 0 then Some (-1, w2)
  else
    match poll_hci_up K POLL_ATTEMPTS (-1) w2 with
    | Some (Break sk _, w3) => start_hcid K sk w3
    | Some (GotoOut sk, w3) => out sk (-1) w3
    | Some (Exhausted sk, w3) => out sk (-1) w3
    | None => None
    end.
Proof.
  intros H p w2. unfold bt_enable, bind at 1. rewrite H.
  destruct (r1 <? 0); [reflexivity|].
  unfold bind at 1, property_set at 1. fold p. fold w2.
  destruct (p <? 0); [reflexivity|].
  unfold bind.
  destruct (poll_hci_up K POLL_ATTEMPTS (-1) w2) as [[[] ?]|]; reflexivity.
Qed.

End Enable.

Lemma file_events_count evs :
  forallb is_file_event evs = true ->
  count is_devup evs = 0%nat /\ count is_usleep evs = 0%nat /\
  count is_socket evs = 0%nat /\ count is_ioctl evs = 0%nat /\
  count is_service evs = 0%nat.
Proof.
  intros H. repeat split; apply (count_none _ _ _ H); now destruct e.
Qed.

(** * Claims about bt_enable and bt_disable *)

(** C3.  The power write of the direct-file variant always returns; and
    whenever the power write returns, [bt_enable] returns, having made at
    most 1000 HCIDEVUP calls.  If moreover HCIDEVUP never succeeds while
    socket creation always does, it returns -1; and if the power write and
    the start of hciattach let it reach the loop, it has then made exactly
    1000 bring-up attempts and slept 1000 times 10 ms: the timeout exit. *)
Theorem bt_enable_poll_bounded K ugly fuel w :
  (ugly = true ->
   exists r1 w1, set_bluetooth_power K ugly fuel 1 w = Some (r1, w1)) /\
  forall r1 w1,
  set_bluetooth_power K ugly fuel 1 w = Some (r1, w1) ->
  exists r w' evs,
    bt_enable K ugly fuel w = Some (r, w') /\
    trace w' = evs ++ trace w /\
    (count is_devup evs <= 1000)%nat /\
    ((forall t sk, k_ioctl K t sk HCIDEVUP HCI_DEV_ID <> 0) ->
     (forall t, 0 <= k_socket K t) ->
     r = -1 /\
     (0 <= r1 ->
      0 <= k_property_set K (trace w1) "ctl.start" "hciattach" ->
      count is_devup evs = 1000%nat /\ count is_usleep evs = 1000%nat)).
Proof.
  split; [intros ->; apply ugly_set_total|].
  intros r1 w1 Hpow.
  destruct (set_power_adds _ _ _ _ _ _ _ Hpow) as (evs0 & Ht0 & Hf0).
  destruct (file_events_count _ Hf0) as (Hd0 & Hu0 & _).
  rewrite (bt_enable_after_power _ _ _ _ _ _ Hpow). cbv zeta.
  set (p := k_property_set K (trace w1) "ctl.start" "hciattach").
  set (w2 := emit (EPropertySet "ctl.start" "hciattach" p) w1).
  destruct (r1 <? 0) eqn:Hr1.
  { exists (-1), w1, evs0. rewrite Hd0. apply Z.ltb_lt in Hr1.
    repeat split; auto; try lia. }
  destruct (p <? 0) eqn:Hp.
  { exists (-1), w2, (EPropertySet "ctl.start" "hciattach" p :: evs0).
    apply Z.ltb_lt in Hp. rewrite count_cons, Hd0. unfold w2.
    cbn [trace emit is_devup]. rewrite Ht0. repeat split; auto; try lia. }
  destruct (poll_hci_up_bounded K POLL_ATTEMPTS (-1) w2)
    as (e & w3 & evsl & Hrun & Ht & _ & Hd & _ & _ & He).
  rewrite Hrun.
  assert (Hnever :
    (forall t sk, k_ioctl K t sk HCIDEVUP HCI_DEV_ID <> 0) ->
    (forall t, 0 <= k_socket K t) ->
    exists sk, e = Exhausted sk /\
      count is_devup evsl = 1000%nat /\ count is_usleep evsl = 1000%nat).
  { intros Hup Hsock.
    destruct (poll_hci_up_never K POLL_ATTEMPTS Hup Hsock (-1) w2)
      as (sk & w3' & evs' & Hrun' & Ht' & Hd' & Hu').
    rewrite Hrun in Hrun'. inversion Hrun'; subst.
    rewrite Ht in Ht'. apply app_inv_tail in Ht'. subst. eauto. }
  assert (Htr : trace w3 =
                (evsl ++ EPropertySet "ctl.start" "hciattach" p :: evs0) ++ trace w).
  { rewrite Ht. unfold w2. cbn [trace emit]. rewrite Ht0, <- app_assoc.
    reflexivity. }
  assert (Hcd : forall post,
            count is_devup post = 0%nat ->
            (count is_devup
              (post ++ evsl ++ EPropertySet "ctl.start" "hciattach" p :: evs0)
             <= 1000)%nat).
  { intros post Hpost. rewrite !count_app, count_cons, Hpost, Hd0.
    unfold POLL_ATTEMPTS in Hd. cbn. lia. }
  destruct e as [sk a | sk | sk].
  - rewrite (start_hcid_run K sk w3 He). cbv zeta.
    set (q := k_property_set K (trace w3) "ctl.start" "hcid").
    exists (if q <? 0 then -1 else 0). eexists.
    exists ((EClose sk :: (if q <? 0 then [] else [ESleep HCID_START_DELAY_SEC])
               ++ [EPropertySet "ctl.start" "hcid" q])
            ++ evsl ++ EPropertySet "ctl.start" "hciattach" p :: evs0).
    split; [reflexivity|]. split.
    { destruct (q <? 0); cbn [trace emit]; rewrite Htr, <- !app_assoc;
        reflexivity. }
    split.
    { apply Hcd. now destruct (q <? 0). }
    intros Hup Hsock. destruct (Hnever Hup Hsock) as (sk' & Habs & _).
    discriminate.
  - rewrite out_run. exists (-1). eexists.
    exists ([] ++ evsl ++ EPropertySet "ctl.start" "hciattach" p :: evs0).
    split; [reflexivity|]. split.
    { rewrite (proj2 (Z.leb_gt _ _) He). exact Htr. }
    split; [now apply Hcd|].
    intros Hup Hsock. destruct (Hnever Hup Hsock) as (sk' & Habs & _).
    discriminate.
  - rewrite out_run. exists (-1). eexists.
    exists ((if 0 <=? sk then [EClose sk] else [])
            ++ evsl ++ EPropertySet "ctl.start" "hciattach" p :: evs0).
    split; [reflexivity|]. split.
    { destruct (0 <=? sk); cbn [trace emit]; rewrite Htr; reflexivity. }
    split.
    { apply Hcd. now destruct (0 <=? sk). }
    intros Hup Hsock. destruct (Hnever Hup Hsock) as (sk' & _ & Hd' & Hu').
    split; [reflexivity|]. intros _ _.
    rewrite !count_app, !count_cons, Hd', Hu', Hd0, Hu0.
    destruct (0 <=? sk); cbn; lia.
Qed.

Lemma bt_enable_poll_bounded_witness :
  exists r w' evs,
    bt_enable (const_kernel 3 None 1 4 (-1) 0 0) true 0 fresh = Some (r, w') /\
    trace w' = evs ++ trace fresh /\
    (count is_devup evs <= 1000)%nat /\
    r = -1 /\ count is_devup evs = 1000%nat /\ count is_usleep evs = 1000%nat.
Proof.
  destruct (proj2 (bt_enable_poll_bounded
                     (const_kernel 3 None 1 4 (-1) 0 0) true 0 fresh) 0
              {| trace := [EClose 3; EWrite 3 "Y" 1;
                           EOpen UglyPower.BLUETOOTH_POWER_PATH O_WRONLY 3];
                 rfkill_id := -1; rfkill_state_path := None |} eq_refl)
    as (r & w' & evs & Hrun & Ht & Hle & Hto).
  exists r, w', evs.
  destruct Hto as (Hr & Hc).
  - intros t sk. simpl. discriminate.
  - intros t. simpl. lia.
  - destruct Hc as (Hd & Hu); [simpl; lia | simpl; lia |].
    repeat split; assumption.
Defined.

(** C4.  Let [1 <= k <= 1000] and let the power write and the start of
    hciattach succeed.  If sockets are created for the first [k] attempts,
    HCIDEVUP fails on attempts 1 to [k - 1] and succeeds on attempt [k]
    (attempts counted from the HCIDEVUP calls in the log at entry), then the
    log of [bt_enable] reads, oldest first: the calls [pre] up to and
    including [k - 1] failed turns; the [k]-th socket; the successful
    HCIDEVUP; then at once the start of hcid, the settle delay if that
    succeeded, and the close of the socket.  So [k] sockets, [k] bring-up
    attempts and [k - 1] retry sleeps in all, none after the success. *)
Theorem bt_enable_first_success K ugly fuel w r1 w1 (k : nat) :
  (1 <= k <= 1000)%nat ->
  set_bluetooth_power K ugly fuel 1 w = Some (r1, w1) ->
  0 <= r1 ->
  0 <= k_property_set K (trace w1) "ctl.start" "hciattach" ->
  let base := count is_devup (trace w) in
  (forall t, (count is_devup t < base + k)%nat -> 0 <= k_socket K t) ->
  (forall t sk, (count is_devup t + 1 < base + k)%nat ->
                k_ioctl K t sk HCIDEVUP HCI_DEV_ID <> 0) ->
  (forall t sk, (count is_devup t + 1 = base + k)%nat ->
                k_ioctl K t sk HCIDEVUP HCI_DEV_ID = 0) ->
  exists sk pre q w',
    let post :=
      EClose sk :: (if q <? 0 then [] else [ESleep HCID_START_DELAY_SEC]) ++
      [EPropertySet "ctl.start" "hcid" q] in
    let evs := post ++ EIoctl sk HCIDEVUP HCI_DEV_ID 0 :: ESocket sk :: pre in
    bt_enable K ugly fuel w = Some (if q <? 0 then -1 else 0, w') /\
    trace w' = evs ++ trace w /\
    count is_socket pre = (k - 1)%nat /\
    count is_devup pre = (k - 1)%nat /\
    count is_usleep pre = (k - 1)%nat /\
    count is_socket evs = k /\ count is_devup evs = k /\
    count is_usleep evs = (k - 1)%nat.
Proof.
  intros Hk Hpow Hr1 Hp base Hsock Hfail Hok.
  destruct (set_power_adds _ _ _ _ _ _ _ Hpow) as (evs0 & Ht0 & Hf0).
  destruct (file_events_count _ Hf0) as (Hd0 & Hu0 & Hs0 & _).
  rewrite (bt_enable_after_power _ _ _ _ _ _ Hpow). cbv zeta.
  rewrite (proj2 (Z.ltb_ge _ _) Hr1), (proj2 (Z.ltb_ge _ _) Hp).
  set (p := k_property_set K (trace w1) "ctl.start" "hciattach").
  set (w2 := emit (EPropertySet "ctl.start" "hciattach" p) w1).
  assert (Hbase : count is_devup (trace w2) = base).
  { unfold w2. cbn [trace emit]. rewrite count_cons, Ht0, count_app, Hd0.
    reflexivity. }
  destruct (poll_hci_up_first_success K (base + k - 1)) with
    (d := (k - 1)%nat) (attempt := POLL_ATTEMPTS) (hci_sock := -1) (w := w2)
    as (sk & pre & Hrun & Hsk & Hs & Hd & Hu & _).
  { intros t Ht. apply Hsock. lia. }
  { intros t sk Ht. apply Hfail. lia. }
  { intros t sk Ht. apply Hok. lia. }
  { lia. }
  { unfold POLL_ATTEMPTS. lia. }
  rewrite Hrun, (start_hcid_run K sk _ Hsk). cbv zeta.
  match goal with
  | |- context [k_property_set K ?t "ctl.start" "hcid"] =>
      set (q := k_property_set K t "ctl.start" "hcid")
  end.
  exists sk, (pre ++ EPropertySet "ctl.start" "hciattach" p :: evs0), q.
  eexists. split; [reflexivity|]. split.
  { destruct (q <? 0); unfold w2; cbn [trace emit app]; rewrite Ht0;
      rewrite <- ?app_assoc; reflexivity. }
  rewrite !count_app, !count_cons, !count_app, !count_cons.
  rewrite Hs, Hd, Hu, Hs0, Hd0, Hu0.
  destruct (q <? 0); cbn; repeat split; lia.
Qed.

Lemma bt_enable_first_success_witness :
  exists sk pre q w',
    let post :=
      EClose sk :: (if q <? 0 then [] else [ESleep HCID_START_DELAY_SEC]) ++
      [EPropertySet "ctl.start" "hcid" q] in
    let evs := post ++ EIoctl sk HCIDEVUP HCI_DEV_ID 0 :: ESocket sk :: pre in
    bt_enable (up_at_kernel 3 None 0 0) true 0 fresh =
      Some (if q <? 0 then -1 else 0, w') /\
    trace w' = evs ++ trace fresh /\
    count is_socket pre = (3 - 1)%nat /\
    count is_devup pre = (3 - 1)%nat /\
    count is_usleep pre = (3 - 1)%nat /\
    count is_socket evs = 3%nat /\ count is_devup evs = 3%nat /\
    count is_usleep evs = (3 - 1)%nat.
Proof.
  apply (bt_enable_first_success (up_at_kernel 3 None 0 0) true 0 fresh 0
           {| trace := [EClose 3; EWrite 3 "Y" 1;
                        EOpen UglyPower.BLUETOOTH_POWER_PATH O_WRONLY 3];
              rfkill_id := -1; rfkill_state_path := None |} 3).
  - lia.
  - reflexivity.
  - lia.
  - simpl. lia.
  - intros t _. simpl. lia.
  - intros t sk Ht. cbn [k_ioctl up_at_kernel count trace fresh] in *.
    destruct (Nat.eqb_spec (S (count is_devup t)) 3);
      [simpl in Ht; lia | discriminate].
  - intros t sk Ht. cbn [k_ioctl up_at_kernel] in *.
    destruct (Nat.eqb_spec (S (count is_devup t)) 3);
      [reflexivity | simpl in Ht; lia].
Defined.

Section Disable.

Variable K : kernel.
Variable ugly : bool.
Variable fuel : nat.

(** [bt_disable] up to the power write, call by call.  The value [d] of the
    HCIDEVDOWN ioctl is logged and looked at nowhere. *)
Lemma bt_disable_run w :
  let p := k_property_set K (trace w) "ctl.stop" "hcid" in
  let w0 := emit (EPropertySet "ctl.stop" "hcid" p) w in
  let w1 := emit (EUsleep HCID_STOP_DELAY_USEC) w0 in
  let sk := k_socket K (trace w1) in
  let w2 := emit (ESocket sk) w1 in
  let d := k_ioctl K (trace w2) sk HCIDEVDOWN HCI_DEV_ID in
  let w3 := emit (EIoctl sk HCIDEVDOWN HCI_DEV_ID d) w2 in
  let q := k_property_set K (trace w3) "ctl.stop" "hciattach" in
  let w4 := emit (EPropertySet "ctl.stop" "hciattach" q) w3 in
  bt_disable K ugly fuel w =
  if p <? 0 then Some (-1, w0)
  else if sk <? 0 then Some (-1, w2)
  else if q <? 0 then Some (-1, emit (EClose sk) w4)
  else
    match set_bluetooth_power K ugly fuel 0 w4 with
    | Some (r, w5) => Some (if r <? 0 then -1 else 0, emit (EClose sk) w5)
    | None => None
    end.
Proof.
  cbv zeta. unfold bt_disable, bind at 1, property_set at 1.
  destruct (_ <? 0); [reflexivity|].
  unfold bind at 1, usleep, bind at 1, create_hci_sock, sys_socket.
  destruct (k_socket K _ <? 0) eqn:Hsk.
  { now rewrite out_run, (neg_not_nonneg _ Hsk). }
  unfold bind at 1, sys_ioctl, bind at 1, property_set.
  destruct (k_property_set K _ "ctl.stop" "hciattach" <? 0).
  { now rewrite out_run, (not_neg_nonneg _ Hsk). }
  unfold bind.
  destruct (set_bluetooth_power K ugly fuel 0 _) as [[r w5]|]; [|reflexivity].
  destruct (r <? 0); now rewrite out_run, (not_neg_nonneg _ Hsk).
Qed.

End Disable.

(** C5.  If the power write of [bt_enable] fails, [bt_enable] returns -1 in
    the very state the write left: its new calls are file calls, so no
    property service call, no socket and no ioctl was made.  If stopping
    hcid fails, [bt_disable] returns -1 having made that one call and no
    other: no HCIDEVDOWN, no stop of hciattach, no power write. *)
Theorem abort_on_first_failure K ugly fuel w :
  (forall r1 w1,
     set_bluetooth_power K ugly fuel 1 w = Some (r1, w1) -> r1 < 0 ->
     bt_enable K ugly fuel w = Some (-1, w1) /\
     exists evs, trace w1 = evs ++ trace w /\
                 count is_service evs = 0%nat /\
                 count is_socket evs = 0%nat /\
                 count is_ioctl evs = 0%nat) /\
  (k_property_set K (trace w) "ctl.stop" "hcid" < 0 ->
   bt_disable K ugly fuel w =
   Some (-1, emit (EPropertySet "ctl.stop" "hcid"
                     (k_property_set K (trace w) "ctl.stop" "hcid")) w)).
Proof.
  split.
  - intros r1 w1 Hpow Hr1.
    rewrite (bt_enable_after_power _ _ _ _ _ _ Hpow). cbv zeta.
    rewrite (proj2 (Z.ltb_lt _ _) Hr1). split; [reflexivity|].
    destruct (set_power_adds _ _ _ _ _ _ _ Hpow) as (evs & Ht & Hf).
    destruct (file_events_count _ Hf) as (_ & _ & Hs & Hi & Hp).
    exists evs. auto.
  - intros Hp. rewrite bt_disable_run. cbv zeta.
    now rewrite (proj2 (Z.ltb_lt _ _) Hp).
Qed.

Lemma abort_on_first_failure_witness :
  bt_enable dead_kernel true 0 fresh =
    Some (-1, emit (EOpen UglyPower.BLUETOOTH_POWER_PATH O_WRONLY (-1)) fresh) /\
  bt_disable dead_kernel true 0 fresh =
    Some (-1, emit (EPropertySet "ctl.stop" "hcid" (-1)) fresh).
Proof.
  split.
  - apply (proj1 (abort_on_first_failure dead_kernel true 0 fresh) (-1)).
    + reflexivity.
    + reflexivity.
  - apply (proj2 (abort_on_first_failure dead_kernel true 0 fresh)).
    reflexivity.
Defined.

(** C6.  Once hcid is stopped: if the socket cannot be created [bt_disable]
    returns -1 there, with no ioctl, no stop of hciattach and no power
    write.  If it is created, then whatever HCIDEVDOWN returns ([d], any
    value) the next call is the stop of hciattach and, when that succeeds,
    the power write with 0, on whose result alone the return value depends. *)
Theorem bt_disable_ignores_bring_down K ugly fuel w :
  let p := k_property_set K (trace w) "ctl.stop" "hcid" in
  let w1 := emit (EUsleep HCID_STOP_DELAY_USEC)
              (emit (EPropertySet "ctl.stop" "hcid" p) w) in
  let sk := k_socket K (trace w1) in
  let w2 := emit (ESocket sk) w1 in
  let d := k_ioctl K (trace w2) sk HCIDEVDOWN HCI_DEV_ID in
  let w3 := emit (EIoctl sk HCIDEVDOWN HCI_DEV_ID d) w2 in
  let q := k_property_set K (trace w3) "ctl.stop" "hciattach" in
  let w4 := emit (EPropertySet "ctl.stop" "hciattach" q) w3 in
  0 <= p ->
  (sk < 0 -> bt_disable K ugly fuel w = Some (-1, w2)) /\
  (0 <= sk ->
   (q < 0 -> bt_disable K ugly fuel w = Some (-1, emit (EClose sk) w4)) /\
   (0 <= q ->
    forall r w5,
      set_bluetooth_power K ugly fuel 0 w4 = Some (r, w5) ->
      bt_disable K ugly fuel w =
        Some (if r <? 0 then -1 else 0, emit (EClose sk) w5))).
Proof.
  intros p w1 sk w2 d w3 q w4 Hp.
  rewrite bt_disable_run. cbv zeta. fold p. fold w1. fold sk. fold w2.
  fold d. fold w3. fold q. fold w4.
  rewrite (proj2 (Z.ltb_ge _ _) Hp). split.
  - intros Hsk. now rewrite (proj2 (Z.ltb_lt _ _) Hsk).
  - intros Hsk. rewrite (proj2 (Z.ltb_ge _ _) Hsk). split.
    + intros Hq. now rewrite (proj2 (Z.ltb_lt _ _) Hq).
    + intros Hq r w5 Hpow. now rewrite (proj2 (Z.ltb_ge _ _) Hq), Hpow.
Qed.

Lemma bt_disable_ignores_bring_down_witness :
  (* HCIDEVDOWN fails, teardown goes on and succeeds *)
  bt_disable (const_kernel 3 None 1 4 (-1) 0 0) true 0 fresh =
    Some (0, {| trace := [EClose 4; EClose 3; EWrite 3 "N" 1;
                          EOpen UglyPower.BLUETOOTH_POWER_PATH O_WRONLY 3;
                          EPropertySet "ctl.stop" "hciattach" 0;
                          EIoctl 4 HCIDEVDOWN 0 (-1); ESocket 4;
                          EUsleep 500000; EPropertySet "ctl.stop" "hcid" 0];
                rfkill_id := -1; rfkill_state_path := None |}) /\
  (* no socket: abort *)
  bt_disable (const_kernel 3 None 1 (-1) 0 0 0) true 0 fresh =
    Some (-1, {| trace := [ESocket (-1); EUsleep 500000;
                           EPropertySet "ctl.stop" "hcid" 0];
                 rfkill_id := -1; rfkill_state_path := None |}).
Proof.
  split.
  - apply (proj2 (proj2 (bt_disable_ignores_bring_down
                           (const_kernel 3 None 1 4 (-1) 0 0) true 0 fresh
                           ltac:(simpl; lia))
                    ltac:(simpl; lia))
             ltac:(simpl; lia) 0
             {| trace := [EClose 3; EWrite 3 "N" 1;
                          EOpen UglyPower.BLUETOOTH_POWER_PATH O_WRONLY 3;
                          EPropertySet "ctl.stop" "hciattach" 0;
                          EIoctl 4 HCIDEVDOWN 0 (-1); ESocket 4;
                          EUsleep 500000; EPropertySet "ctl.stop" "hcid" 0];
                rfkill_id := -1; rfkill_state_path := None |}).
    reflexivity.
  - apply (proj1 (bt_disable_ignores_bring_down
                    (const_kernel 3 None 1 (-1) 0 0 0) true 0 fresh
                    ltac:(simpl; lia))).
    simpl. lia.
Defined.

(** * The rfkill binding *)

Lemma length_take n s :
  String.length (take n s) = Nat.min n (String.length s).
Proof.
  revert s. induction n as [|n IH]; intros [|c s]; simpl; auto.
Qed.

Lemma take_take n m s : (n <= m)%nat -> take n (take m s) = take n s.
Proof.
  revert m s. induction n as [|n IH]; intros m s Hle.
  - now destruct (take m s).
  - destruct m as [|m]; [lia|]. destruct s as [|c s]; simpl; [reflexivity|].
    f_equal. apply IH. lia.
Qed.

Lemma prefix_take p s :
  String.prefix p s = String.eqb (take (String.length p) s) p.
Proof.
  revert s. induction p as [|a p IH]; intros s.
  - now destruct s.
  - destruct s as [|b s]; [reflexivity|].
    cbn [String.prefix String.length take String.eqb].
    destruct (ascii_dec a b) as [->|Hab].
    + now rewrite Ascii.eqb_refl, IH.
    + apply not_eq_sym, Ascii.eqb_neq in Hab. now rewrite Hab.
Qed.

(** The test of [init_rfkill] on up to 16 bytes read from a type file is the
    test "the type attribute begins with bluetooth". *)
Lemma is_bluetooth_prefix s :
  Rfkill.is_bluetooth (slen (take 16 s), take 16 s) =
  String.prefix "bluetooth" s.
Proof.
  unfold Rfkill.is_bluetooth. cbn [fst snd].
  rewrite prefix_take. change (String.length "bluetooth") with 9%nat.
  rewrite take_take by lia.
  destruct (String.eqb (take 9 s) "bluetooth") eqn:E;
    [|apply andb_false_r].
  apply String.eqb_eq in E. apply (f_equal String.length) in E.
  rewrite length_take in E. change (String.length "bluetooth") with 9%nat in E.
  unfold slen. rewrite length_take.
  rewrite andb_true_r. apply Z.leb_le. lia.
Qed.

Section Binding.

Variable K : kernel.

Lemma init_rfkill_from_step fuel id w :
  let fd := k_open K (trace w) (Rfkill.type_path id) O_RDONLY in
  let w1 := emit (EOpen (Rfkill.type_path id) O_RDONLY fd) w in
  Rfkill.init_rfkill_from K (S fuel) id w =
  if fd <? 0 then Some (-1, w1)
  else
    match sys_read K fd 16 w1 with
    | Some (rd, w2) =>
        if Rfkill.is_bluetooth rd then
          Some (0, {| trace := EClose fd :: trace w2;
                      rfkill_id := id;
                      rfkill_state_path :=
                        if k_asprintf K (EClose fd :: trace w2)
                        then Some (Rfkill.state_path id)
                        else None |})
        else Rfkill.init_rfkill_from K fuel (id + 1) (emit (EClose fd) w2)
    | None => None
    end.
Proof.
  cbv zeta. cbn [Rfkill.init_rfkill_from]. unfold bind at 1, sys_open at 1.
  destruct (_ <? 0); [reflexivity|].
  unfold bind at 1. destruct (sys_read K _ 16 _) as [[rd w2]|]; [|reflexivity].
  unfold bind at 1, sys_close at 1.
  now destruct (Rfkill.is_bluetooth rd).
Qed.

(** What [asprintf] can leave behind. *)
Lemma asprintf_result_cases id path :
  asprintf_result K id path ->
  path = Some (Rfkill.state_path id) \/ path = None.
Proof. intros [t ->]. destruct (k_asprintf K t); auto. Qed.

Lemma asprintf_result_allocates id path :
  allocates K ->
  asprintf_result K id path -> path = Some (Rfkill.state_path id).
Proof. intros Halloc [t ->]. now rewrite Halloc. Qed.

(** The scan over the slots [rest] that sit at the indices [n], [n + 1], ... *)
Lemma init_rfkill_from_slots rest :
  forall n fuel w,
  (forall t j s,
     nth_error rest j = Some s ->
     0 <= k_open K t (Rfkill.type_path (Z.of_nat (n + j))) O_RDONLY /\
     forall fd,
       k_read K (EOpen (Rfkill.type_path (Z.of_nat (n + j))) O_RDONLY fd :: t)
         fd 16 = Some s) ->
  (forall t,
     k_open K t (Rfkill.type_path (Z.of_nat (n + List.length rest))) O_RDONLY
     < 0) ->
  (List.length rest < fuel)%nat ->
  exists w',
    Rfkill.init_rfkill_from K fuel (Z.of_nat n) w =
      Some (match first_bluetooth rest with Some _ => 0 | None => -1 end, w') /\
    adds is_file_event w w' /\
    match first_bluetooth rest with
    | Some j =>
        rfkill_id w' = Z.of_nat (n + j) /\
        rfkill_state_path w' =
          if k_asprintf K (trace w')
          then Some (Rfkill.state_path (Z.of_nat (n + j)))
          else None
    | None => binding w' = binding w
    end.
Proof.
  induction rest as [|s rest IH]; intros n fuel w Hslots Hend Hfuel;
    (destruct fuel as [|fuel]; [simpl in Hfuel; lia|]);
    rewrite init_rfkill_from_step; cbv zeta.
  - cbn [List.length] in Hend. rewrite Nat.add_0_r in Hend.
    rewrite (proj2 (Z.ltb_lt _ _) (Hend (trace w))).
    eexists. split; [reflexivity|]. split; [|reflexivity].
    now apply adds_emit.
  - destruct (Hslots (trace w) 0%nat s eq_refl) as [Hopen Hread].
    rewrite Nat.add_0_r in Hopen, Hread.
    rewrite (proj2 (Z.ltb_ge _ _) Hopen).
    unfold sys_read. cbn [trace emit]. rewrite Hread.
    change (Z.to_nat 16) with 16%nat. rewrite is_bluetooth_prefix.
    cbn [first_bluetooth]. destruct (String.prefix "bluetooth" s).
    + eexists. split; [reflexivity|]. rewrite Nat.add_0_r.
      split; [|split; reflexivity].
      eexists [_; _; _]. split; reflexivity.
    + replace (Z.of_nat n + 1) with (Z.of_nat (S n)) by lia.
      match goal with
      | |- context [Rfkill.init_rfkill_from K fuel _ ?w0] =>
          destruct (IH (S n) fuel w0) as (w' & Hrun & Hadd & Hres)
      end.
      * intros t j s' Hj. rewrite Nat.add_succ_comm. now apply Hslots.
      * intros t. rewrite Nat.add_succ_comm. apply Hend.
      * simpl in Hfuel. lia.
      * exists w'. rewrite Hrun.
        destruct (first_bluetooth rest) as [j|]; cbn [option_map].
        -- split; [reflexivity|]. rewrite <- Nat.add_succ_comm. split; [|exact Hres].
           eapply adds_trans; [|exact Hadd]. eexists [_; _; _].
           split; reflexivity.
        -- split; [reflexivity|]. split; [|exact Hres].
           eapply adds_trans; [|exact Hadd]. eexists [_; _; _].
           split; reflexivity.
Qed.

Lemma init_rfkill_slots slots fuel w :
  presents K slots ->
  (List.length slots < fuel)%nat ->
  exists w',
    Rfkill.init_rfkill K fuel w =
      Some (match first_bluetooth slots with Some _ => 0 | None => -1 end, w') /\
    adds is_file_event w w' /\
    match first_bluetooth slots with
    | Some j =>
        rfkill_id w' = Z.of_nat j /\
        rfkill_state_path w' =
          if k_asprintf K (trace w')
          then Some (Rfkill.state_path (Z.of_nat j))
          else None
    | None => binding w' = binding w
    end.
Proof.
  intros [Hslots Hend] Hfuel.
  apply (init_rfkill_from_slots slots 0 fuel w); assumption.
Qed.

End Binding.

Lemma total_ret {A} (a : A) : total (ret a).
Proof. intros w. now exists a, w. Qed.

Lemma total_bind {A B} (m : M A) (k : A -> M B) :
  total m -> (forall a, total (k a)) -> total (bind m k).
Proof.
  intros Hm Hk w. destruct (Hm w) as (a & w1 & E).
  unfold bind. rewrite E. apply Hk.
Qed.

Lemma total_if {A} (b : bool) (m1 m2 : M A) :
  total m1 -> total m2 -> total (if b then m1 else m2).
Proof. now destruct b. Qed.

Lemma sys_read_total K fd n : total (sys_read K fd n).
Proof. intros w. unfold sys_read. destruct (k_read K _ _ _); eauto. Qed.

Lemma out_total fd r : total (out fd r).
Proof. intros w. rewrite out_run. eauto. Qed.

Lemma open_state_path_total K fl : total (Rfkill.open_state_path K fl).
Proof.
  intros w. unfold Rfkill.open_state_path, sys_open.
  destruct (rfkill_state_path w); eauto.
Qed.

Lemma sys_write_total K fd data : total (sys_write K fd data).
Proof. intros w. unfold sys_write. eauto. Qed.

#[local] Hint Resolve total_ret total_bind total_if sys_read_total out_total
  open_state_path_total sys_write_total open_state_path_frame
  open_state_path_adds : bt.

Section LazyBinding.

Variable K : kernel.

(** The scan begins by opening the type file of the slot it starts at. *)
Lemma init_rfkill_from_first_open fuel id w r w' :
  Rfkill.init_rfkill_from K fuel id w = Some (r, w') ->
  adds is_file_event
    (emit (EOpen (Rfkill.type_path id) O_RDONLY
             (k_open K (trace w) (Rfkill.type_path id) O_RDONLY)) w) w'.
Proof.
  destruct fuel as [|fuel]; [discriminate|].
  rewrite init_rfkill_from_step. cbv zeta.
  destruct (_ <? 0); [inversion 1; subst; apply adds_refl|].
  destruct (sys_read K _ 16 _) as [[rd w2]|] eqn:Hrd; [|discriminate].
  apply sys_read_adds with (p := is_file_event) in Hrd; [|reflexivity].
  destruct (Rfkill.is_bluetooth rd).
  - inversion 1; subst. eapply adds_trans; [exact Hrd|].
    now exists [EClose (k_open K (trace w) (Rfkill.type_path id) O_RDONLY)].
  - intros Hrest. apply init_rfkill_from_adds in Hrest.
    eapply adds_trans; [exact Hrd|]. eapply adds_trans; [|exact Hrest].
    now apply adds_emit.
Qed.

(** First use through the shared prologue of the two rfkill functions. *)
Lemma with_binding_first_use slots fuel k w :
  presents K slots ->
  (List.length slots < fuel)%nat ->
  total k ->
  respects same_binding k ->
  respects (adds is_file_event) k ->
  rfkill_id w = -1 ->
  exists r w' evs,
    Rfkill.with_binding K fuel k w = Some (r, w') /\
    trace w' =
      evs ++ [EOpen (Rfkill.type_path 0) O_RDONLY
                (k_open K (trace w) (Rfkill.type_path 0) O_RDONLY)]
          ++ trace w /\
    match first_bluetooth slots with
    | Some i =>
        rfkill_id w' = Z.of_nat i /\
        (allocates K ->
         rfkill_state_path w' = Some (Rfkill.state_path (Z.of_nat i)))
    | None =>
        r = -1 /\ rfkill_id w' = -1 /\
        rfkill_state_path w' = rfkill_state_path w
    end.
Proof.
  intros Hpres Hfuel Htot Hframe Hadds Hfresh.
  rewrite with_binding_unresolved by assumption.
  destruct (init_rfkill_slots K slots fuel w Hpres Hfuel)
    as (w0 & Hinit & _ & Hres).
  rewrite Hinit.
  destruct (init_rfkill_from_first_open _ _ _ _ _ Hinit) as (evs0 & Ht0 & _).
  destruct (first_bluetooth slots) as [i|].
  - cbn [Z.eqb]. destruct (Htot w0) as (r & w' & Hk). rewrite Hk.
    destruct (Hadds _ _ _ Hk) as (evs1 & Ht1 & _).
    exists r, w', (evs1 ++ evs0). split; [reflexivity|]. split.
    + rewrite Ht1, Ht0. cbn [trace emit]. now rewrite <- app_assoc.
    + apply Hframe in Hk. unfold same_binding, binding in Hk.
      injection Hk as Hid Hpath. destruct Hres as [Hi Hp].
      split; [congruence|]. intros Halloc.
      rewrite Halloc in Hp. congruence.
  - cbn [Z.eqb]. exists (-1), w0, evs0. split; [reflexivity|]. split.
    + rewrite Ht0. reflexivity.
    + unfold binding in Hres. injection Hres as Hid Hpath.
      repeat split; congruence.
Qed.

(** The two functions on a resolved binding, call by call. *)
Lemma rfkill_set_resolved fuel on w p :
  rfkill_id w <> -1 ->
  rfkill_state_path w = Some p ->
  let buffer := if on =? 0 then "0" else "1" in
  let fd := k_open K (trace w) p O_WRONLY in
  let w1 := emit (EOpen p O_WRONLY fd) w in
  let sz := k_write K (trace w1) fd buffer in
  Rfkill.set_bluetooth_power K fuel on w =
  if fd <? 0 then Some (-1, w1)
  else Some (if sz <? 0 then -1 else 0,
             emit (EClose fd) (emit (EWrite fd buffer sz) w1)).
Proof.
  intros Hid Hpath. cbv zeta. unfold Rfkill.set_bluetooth_power.
  rewrite with_binding_resolved by assumption.
  unfold bind at 1, Rfkill.open_state_path. rewrite Hpath.
  unfold sys_open at 1.
  destruct (_ <? 0) eqn:Hfd.
  { now rewrite out_run, (neg_not_nonneg _ Hfd). }
  unfold bind, sys_write.
  destruct (k_write K _ _ _ <? 0); now rewrite out_run, (not_neg_nonneg _ Hfd).
Qed.

Lemma rfkill_check_resolved fuel w p :
  rfkill_id w <> -1 ->
  rfkill_state_path w = Some p ->
  let fd := k_open K (trace w) p O_RDONLY in
  let w1 := emit (EOpen p O_RDONLY fd) w in
  exists r rd,
    Rfkill.check_bluetooth_power K fuel w =
    if fd <? 0 then Some (-1, w1)
    else Some (r, emit (EClose fd) (emit (ERead fd 1 rd) w1)).
Proof.
  intros Hid Hpath. cbv zeta. unfold Rfkill.check_bluetooth_power.
  rewrite with_binding_resolved by assumption.
  unfold bind at 1, Rfkill.open_state_path. rewrite Hpath.
  unfold sys_open at 1.
  destruct (_ <? 0) eqn:Hfd.
  { exists 0, None. now rewrite out_run, (neg_not_nonneg _ Hfd). }
  unfold bind, sys_read.
  destruct (k_read K _ _ 1); cbn [fst snd];
    repeat case_if; rewrite out_run, (not_neg_nonneg _ Hfd);
    eexists _, _; reflexivity.
Qed.

End LazyBinding.

Section BindingFrame.

Variable K : kernel.

(** What a scan can do to the statics: nothing when it fails; when it
    succeeds, a slot at or above its starting index, with the state path of
    that slot if the heap had room for it and NULL if not. *)
Lemma init_rfkill_from_result fuel :
  forall id w r w',
  Rfkill.init_rfkill_from K fuel id w = Some (r, w') ->
  (r = -1 /\ binding w' = binding w) \/
  (r = 0 /\ id <= rfkill_id w' /\
   rfkill_state_path w' =
     if k_asprintf K (trace w')
     then Some (Rfkill.state_path (rfkill_id w'))
     else None).
Proof.
  induction fuel as [|fuel IH]; intros id w r w'; [discriminate|].
  rewrite init_rfkill_from_step. cbv zeta.
  destruct (_ <? 0); [inversion 1; subst; now left|].
  destruct (sys_read K _ 16 _) as [[rd w2]|] eqn:Hrd; [|discriminate].
  apply sys_read_frame in Hrd.
  destruct (Rfkill.is_bluetooth rd).
  - inversion 1; subst. right. cbn. repeat split; auto. lia.
  - intros Hrest. apply IH in Hrest as [[-> Hb] | (-> & Hle & Hpath)].
    + left. split; [reflexivity|]. rewrite Hb. exact Hrd.
    + right. repeat split; auto. lia.
Qed.

Lemma rfkill_check_resolved_frame fuel w :
  rfkill_id w <> -1 ->
  exists r w',
    Rfkill.check_bluetooth_power K fuel w = Some (r, w') /\
    binding w' = binding w.
Proof.
  intros Hid. unfold Rfkill.check_bluetooth_power.
  rewrite with_binding_resolved by assumption.
  match goal with
  | |- exists r w', ?k w = _ /\ _ =>
      assert (Ht : total k) by eauto 20 with bt;
      assert (Hf : respects same_binding k) by eauto 20 with bt
  end.
  destruct (Ht w) as (r & w' & E). exists r, w'.
  split; [exact E | exact (Hf _ _ _ E)].
Qed.

Lemma rfkill_check_unresolved_frame fuel w r w' :
  rfkill_id w = -1 ->
  Rfkill.check_bluetooth_power K fuel w = Some (r, w') ->
  (r = -1 /\ binding w' = binding w) \/
  (0 <= rfkill_id w' /\
   (allocates K ->
    rfkill_state_path w' = Some (Rfkill.state_path (rfkill_id w')))).
Proof.
  intros Hid. unfold Rfkill.check_bluetooth_power.
  rewrite with_binding_unresolved by assumption.
  destruct (Rfkill.init_rfkill K fuel w) as [[r0 w0]|] eqn:Hinit;
    [|discriminate].
  apply init_rfkill_from_result in Hinit as [[-> Hb] | (-> & Hle & Hpath)].
  - cbn [Z.eqb]. inversion 1; subst. now left.
  - cbn [Z.eqb]. intros Hk. right.
    match type of Hk with
    | ?k w0 = _ =>
        assert (Hf : respects same_binding k) by eauto 20 with bt
    end.
    apply Hf in Hk. unfold same_binding, binding in Hk.
    injection Hk as Hi Hp. rewrite Hi, Hp. split; [lia|].
    intros Halloc. now rewrite Hpath, Halloc.
Qed.

(** After the power read [bt_is_enabled] only logs calls. *)
Lemma is_enabled_frame_after_power ugly fuel w p w1 :
  check_bluetooth_power K ugly fuel w = Some (p, w1) ->
  exists r w',
    bt_is_enabled K ugly fuel w = Some (r, w') /\
    binding w' = binding w1 /\ (p = -1 -> r = -1).
Proof.
  intros Hp. rewrite (bt_is_enabled_after_power _ _ _ _ _ _ Hp). cbv zeta.
  destruct ((p =? -1) || (p =? 0)) eqn:Hoff.
  - exists p, w1. auto.
  - apply orb_false_iff in Hoff as [Hm _]. apply Z.eqb_neq in Hm.
    destruct (_ <? 0); eexists _, _; (split; [reflexivity|]);
      (split; [reflexivity | contradiction]).
Qed.

End BindingFrame.

(** * Claims about the rfkill binding and the power write *)

(** C7, as amended.  [bt_is_enabled] returns and leaves the statics as they
    were in the direct-file variant, and in the rfkill variant once the slot
    index is resolved.  On an unresolved rfkill binding a call that returns
    either failed to resolve it (then it returns -1 and the statics are
    unchanged) or has set the slot index and, where allocations do not
    fail, the state path of that slot. *)
Theorem bt_is_enabled_binding K fuel w :
  (exists r w',
     bt_is_enabled K true fuel w = Some (r, w') /\ binding w' = binding w) /\
  (rfkill_id w <> -1 ->
   exists r w',
     bt_is_enabled K false fuel w = Some (r, w') /\ binding w' = binding w) /\
  (rfkill_id w = -1 ->
   forall r w',
     bt_is_enabled K false fuel w = Some (r, w') ->
     (r = -1 /\ binding w' = binding w) \/
     (0 <= rfkill_id w' /\
      (allocates K ->
       rfkill_state_path w' = Some (Rfkill.state_path (rfkill_id w'))))).
Proof.
  split; [|split].
  - destruct (ugly_check_total K w) as (p & w1 & Hp).
    destruct (is_enabled_frame_after_power K true fuel w p w1 Hp)
      as (r & w' & Hrun & Hb & _).
    exists r, w'. split; [exact Hrun|]. rewrite Hb.
    exact (ugly_check_frame K _ _ _ Hp).
  - intros Hid.
    destruct (rfkill_check_resolved_frame K fuel w Hid) as (p & w1 & Hp & Hb1).
    destruct (is_enabled_frame_after_power K false fuel w p w1 Hp)
      as (r & w' & Hrun & Hb & _).
    exists r, w'. split; [exact Hrun | congruence].
  - intros Hid r w' Hrun.
    destruct (check_bluetooth_power K false fuel w) as [[p w1]|] eqn:Hp.
    + destruct (is_enabled_frame_after_power K false fuel w p w1 Hp)
        as (r0 & w0 & Hrun0 & Hb & Hfail).
      rewrite Hrun in Hrun0. inversion Hrun0; subst r0 w0.
      destruct (rfkill_check_unresolved_frame K fuel w p w1 Hid Hp)
        as [[-> Hb1] | [Hle Hpath]].
      * left. split; [auto | congruence].
      * right. unfold binding in Hb. injection Hb as Hi Hq.
        rewrite Hi, Hq. auto.
    + unfold bt_is_enabled, bind in Hrun. rewrite Hp in Hrun. discriminate.
Qed.

Lemma bt_is_enabled_binding_witness :
  (exists r w',
     bt_is_enabled (const_kernel 3 (Some "1") 1 4 0 1 0) true 0 (bound 0) =
       Some (r, w') /\ binding w' = binding (bound 0)) /\
  (exists r w',
     bt_is_enabled (const_kernel 3 (Some "1") 1 4 0 1 0) false 0 (bound 0) =
       Some (r, w') /\ binding w' = binding (bound 0)) /\
  ((1 = -1 /\ binding after_first_query = binding fresh) \/
   (0 <= rfkill_id after_first_query /\
    (allocates (rfkill_kernel ["wlan"; "bluetooth"] "1" 1 4 0 1 0) ->
     rfkill_state_path after_first_query =
       Some (Rfkill.state_path (rfkill_id after_first_query))))).
Proof.
  pose proof (bt_is_enabled_binding (const_kernel 3 (Some "1") 1 4 0 1 0) 0
                (bound 0)) as (Hugly & Hbound & _).
  pose proof (bt_is_enabled_binding
                (rfkill_kernel ["wlan"; "bluetooth"] "1" 1 4 0 1 0) 3 fresh)
    as (_ & _ & Hfresh).
  split; [exact Hugly|]. split.
  - apply Hbound. discriminate.
  - apply (Hfresh eq_refl 1 after_first_query). reflexivity.
Defined.

(** C7 as stated fails: the first [bt_is_enabled] on a fresh rfkill backend
    with slots wlan, bluetooth sets [rfkill_id] to 1 and the state path. *)
Lemma bt_is_enabled_binds_fresh_rfkill :
  exists w',
    bt_is_enabled (rfkill_kernel ["wlan"; "bluetooth"] "1" 1 4 0 1 0)
      false 3 fresh = Some (1, w') /\
    binding fresh = (-1, None) /\
    binding w' = (1, Some "/sys/class/rfkill/rfkill1/state") /\
    binding w' <> binding fresh.
Proof.
  eexists. split; [vm_compute; reflexivity|].
  repeat split. discriminate.
Qed.

Section Cached.

Variable K : kernel.

(** With the slot index resolved and the path NULL, [open] fails and both
    functions return -1 without a call reaching the kernel. *)
Lemma rfkill_set_no_path fuel on w :
  rfkill_id w <> -1 ->
  rfkill_state_path w = None ->
  Rfkill.set_bluetooth_power K fuel on w = Some (-1, w).
Proof.
  intros Hid Hpath. unfold Rfkill.set_bluetooth_power.
  rewrite with_binding_resolved by assumption.
  unfold bind at 1, Rfkill.open_state_path. now rewrite Hpath.
Qed.

Lemma rfkill_check_no_path fuel w :
  rfkill_id w <> -1 ->
  rfkill_state_path w = None ->
  Rfkill.check_bluetooth_power K fuel w = Some (-1, w).
Proof.
  intros Hid Hpath. unfold Rfkill.check_bluetooth_power.
  rewrite with_binding_resolved by assumption.
  unfold bind at 1, Rfkill.open_state_path. now rewrite Hpath.
Qed.

Lemma rfkill_set_cached fuel on w :
  rfkill_id w <> -1 ->
  exists r w' evs,
    Rfkill.set_bluetooth_power K fuel on w = Some (r, w') /\
    binding w' = binding w /\ trace w' = evs ++ trace w /\ opens_cached w evs.
Proof.
  intros Hid. destruct (rfkill_state_path w) as [p|] eqn:Hpath.
  - rewrite (rfkill_set_resolved K fuel on w p Hid Hpath). cbv zeta.
    destruct (_ <? 0).
    + eexists _, _, [_]. repeat split.
      intros q fl fd [E|[]]. inversion E; subst. exact Hpath.
    + eexists _, _, [_; _; _]. repeat split.
      intros q fl fd [E|[E|[E|[]]]]; inversion E; subst. exact Hpath.
  - rewrite (rfkill_set_no_path fuel on w Hid Hpath).
    exists (-1), w, []. repeat split. intros q fl fd [].
Qed.

Lemma rfkill_check_cached fuel w :
  rfkill_id w <> -1 ->
  exists r w' evs,
    Rfkill.check_bluetooth_power K fuel w = Some (r, w') /\
    binding w' = binding w /\ trace w' = evs ++ trace w /\ opens_cached w evs.
Proof.
  intros Hid. destruct (rfkill_state_path w) as [p|] eqn:Hpath.
  - destruct (rfkill_check_resolved K fuel w p Hid Hpath) as (r & rd & ->).
    cbv zeta. destruct (_ <? 0).
    + eexists _, _, [_]. repeat split.
      intros q fl fd [E|[]]. inversion E; subst. exact Hpath.
    + eexists _, _, [_; _; _]. repeat split.
      intros q fl fd [E|[E|[E|[]]]]; inversion E; subst. exact Hpath.
  - rewrite (rfkill_check_no_path fuel w Hid Hpath).
    exists (-1), w, []. repeat split. intros q fl fd [].
Qed.

End Cached.

(** C8, as amended.  On a directory whose slots [slots] are numbered
    without a gap from 0 and whose type files open and deliver the type
    attribute in one read, both power-rail calls of the rfkill variant
    resolve the slot index on first use to the first slot, in ascending
    index order, whose type attribute begins with the nine bytes
    "bluetooth", and cache the state path of that slot where allocations do
    not fail; a resolved slot index is reused without a scan (no file but
    the cached state path is opened); a scan that finds no such slot leaves
    the binding unresolved, so that the next call scans again. *)
Theorem rfkill_binds_first_bluetooth_prefix K slots fuel :
  presents K slots ->
  (List.length slots < fuel)%nat ->
  (forall on, binds_lazily K slots (set_bluetooth_power K false fuel on)) /\
  binds_lazily K slots (check_bluetooth_power K false fuel).
Proof.
  intros Hpres Hfuel. split; [intros on|]; split.
  - intros w Hid. cbn [set_bluetooth_power].
    unfold Rfkill.set_bluetooth_power.
    apply (with_binding_first_use K slots); eauto 20 with bt.
  - intros w Hid. now apply rfkill_set_cached.
  - intros w Hid. cbn [check_bluetooth_power].
    unfold Rfkill.check_bluetooth_power.
    apply (with_binding_first_use K slots); eauto 20 with bt.
  - intros w Hid. now apply rfkill_check_cached.
Qed.

(** The kernel built from a list of two slots presents them. *)
Lemma rfkill_kernel_presents_two s0 s1 state wr sk io fl ps :
  presents (rfkill_kernel [s0; s1] state wr sk io fl ps) [s0; s1].
Proof.
  split.
  - intros t [|[|i]] s H; cbn in H.
    + injection H as <-. split; [|intros fd]; vm_compute; congruence.
    + injection H as <-. split; [|intros fd]; vm_compute; congruence.
    + now destruct i.
  - intros t. vm_compute. reflexivity.
Qed.

Lemma rfkill_binds_first_bluetooth_prefix_witness :
  (forall on,
     binds_lazily (rfkill_kernel ["wifi"; "bluetooth"] "1" 1 4 0 1 0)
       ["wifi"; "bluetooth"]
       (set_bluetooth_power (rfkill_kernel ["wifi"; "bluetooth"] "1" 1 4 0 1 0)
          false 3 on)) /\
  binds_lazily (rfkill_kernel ["wifi"; "bluetooth"] "1" 1 4 0 1 0)
    ["wifi"; "bluetooth"]
    (check_bluetooth_power (rfkill_kernel ["wifi"; "bluetooth"] "1" 1 4 0 1 0)
       false 3).
Proof.
  apply (rfkill_binds_first_bluetooth_prefix
           (rfkill_kernel ["wifi"; "bluetooth"] "1" 1 4 0 1 0)
           ["wifi"; "bluetooth"] 3).
  - apply rfkill_kernel_presents_two.
  - simpl. lia.
Defined.

(** The scenario of the specification: on slots wifi, bluetooth a first
    power read scans slots 0 and 1 and binds slot 1; a second power read,
    here given no fuel at all for a scan, opens the cached state file only. *)
Example rfkill_wifi_bluetooth :
  let K := rfkill_kernel ["wifi"; "bluetooth"] "1" 1 4 0 1 0 in
  (first <- Rfkill.check_bluetooth_power K 3 ;;
   second <- Rfkill.check_bluetooth_power K 0 ;;
   ret (first, second)) fresh =
  Some ((1, 1),
        {| trace := [EClose 3; ERead 3 1 (Some "1");
                     EOpen "/sys/class/rfkill/rfkill1/state" O_RDONLY 3;
                     EClose 3; ERead 3 1 (Some "1");
                     EOpen "/sys/class/rfkill/rfkill1/state" O_RDONLY 3;
                     EClose 3; ERead 3 16 (Some "bluetooth");
                     EOpen "/sys/class/rfkill/rfkill1/type" O_RDONLY 3;
                     EClose 3; ERead 3 16 (Some "wifi");
                     EOpen "/sys/class/rfkill/rfkill0/type" O_RDONLY 3];
           rfkill_id := 1;
           rfkill_state_path := Some "/sys/class/rfkill/rfkill1/state" |}).
Proof. reflexivity. Qed.

(** The scan ends at the first index whose type file does not open: with
    the slots rfkill0 (wlan) and rfkill2 (bluetooth) and no rfkill1, the
    type file of slot 2 is never opened and the call fails. *)
Example rfkill_gap_ends_scan :
  set_bluetooth_power
    (files_kernel [(Rfkill.type_path 0, "wlan");
                   (Rfkill.type_path 2, "bluetooth");
                   (Rfkill.state_path 2, "1")]) false 5 1 fresh =
  Some (-1,
        {| trace := [EOpen "/sys/class/rfkill/rfkill1/type" O_RDONLY (-1);
                     EClose 3; ERead 3 16 (Some "wlan");
                     EOpen "/sys/class/rfkill/rfkill0/type" O_RDONLY 3];
           rfkill_id := -1;
           rfkill_state_path := None |}).
Proof. reflexivity. Qed.

(** The result of [asprintf] is not checked: when the allocation of the
    state path fails, the slot index is cached with a NULL path, the call
    fails at [open], and so does every later call, without a new scan. *)
Example rfkill_allocation_failure_is_cached :
  let K := no_memory (rfkill_kernel ["wlan"; "bluetooth"] "1" 1 4 0 1 0) in
  (first <- set_bluetooth_power K false 3 1 ;;
   second <- set_bluetooth_power K false 3 1 ;;
   ret (first, second)) fresh =
  Some ((-1, -1),
        {| trace := [EClose 3; ERead 3 16 (Some "bluetooth");
                     EOpen "/sys/class/rfkill/rfkill1/type" O_RDONLY 3;
                     EClose 3; ERead 3 16 (Some "wlan");
                     EOpen "/sys/class/rfkill/rfkill0/type" O_RDONLY 3];
           rfkill_id := 1;
           rfkill_state_path := None |}).
Proof. reflexivity. Qed.

(** C8 as stated fails: the match is on the first nine bytes, not on
    equality.  With the type attributes bluetooth-x, bluetooth the first
    slot equal to "bluetooth" is slot 1, yet the code binds slot 0. *)
Lemma rfkill_binds_prefix_not_equal :
  let slots := ["bluetooth-x"; "bluetooth"] in
  let K := rfkill_kernel slots "1" 1 4 0 1 0 in
  presents K slots /\
  first_equal "bluetooth" slots = Some 1%nat /\
  exists w',
    set_bluetooth_power K false 3 1 fresh = Some (0, w') /\
    trace w' = [EClose 3; EWrite 3 "1" 1;
                EOpen "/sys/class/rfkill/rfkill0/state" O_WRONLY 3;
                EClose 3; ERead 3 16 (Some "bluetooth-x");
                EOpen "/sys/class/rfkill/rfkill0/type" O_RDONLY 3] /\
    rfkill_id w' = 0 /\
    rfkill_state_path w' = Some "/sys/class/rfkill/rfkill0/state" /\
    rfkill_id w' <> 1.
Proof.
  cbv zeta. split; [apply rfkill_kernel_presents_two|].
  split; [reflexivity|]. eexists. split; [vm_compute; reflexivity|].
  repeat split. discriminate.
Qed.

(** What [set_bluetooth_power] reports, variant by variant.  The
    direct-file variant returns 0 exactly when the file opened and [write]
    returned 1; the rfkill variant, on a resolved binding, returns 0 exactly
    when the file opened and [write] did not return a negative value. *)
Lemma ugly_set_power_reports K on w r w' :
  UglyPower.set_bluetooth_power K on w = Some (r, w') ->
  let fd := k_open K (trace w) UglyPower.BLUETOOTH_POWER_PATH O_WRONLY in
  let t1 := EOpen UglyPower.BLUETOOTH_POWER_PATH O_WRONLY fd :: trace w in
  (r = 0 \/ r = -1) /\
  (r = 0 <->
   fd <> -1 /\ k_write K t1 fd (if on =? 0 then "N" else "Y") = 1).
Proof.
  intros E fd t1.
  unfold UglyPower.set_bluetooth_power, bind, sys_open, sys_write in E.
  fold fd in E.
  destruct (Z.eqb_spec fd (-1)) as [Hfd|Hfd].
  - apply out_value in E. subst r. split; [auto|].
    split; [discriminate | tauto].
  - match type of E with
    | context [negb (?x =? 1)] =>
        destruct (Z.eqb_spec x 1) as [Hsz|Hsz]
    end; cbn [negb] in E; apply out_value in E; subst r;
      (split; [auto|]); (split; [try discriminate|]); tauto.
Qed.

Lemma rfkill_set_power_reports K fuel on w p r w' :
  rfkill_id w <> -1 ->
  rfkill_state_path w = Some p ->
  Rfkill.set_bluetooth_power K fuel on w = Some (r, w') ->
  let fd := k_open K (trace w) p O_WRONLY in
  let t1 := EOpen p O_WRONLY fd :: trace w in
  (r = 0 \/ r = -1) /\
  (r = 0 <-> 0 <= fd /\ 0 <= k_write K t1 fd (if on =? 0 then "0" else "1")).
Proof.
  intros Hid Hpath E fd t1.
  rewrite (rfkill_set_resolved K fuel on w p Hid Hpath) in E.
  cbv zeta in E. fold fd in E.
  destruct (Z.ltb_spec fd 0) as [Hfd|Hfd].
  - inversion E; subst. split; [auto|]. split; [discriminate | lia].
  - match type of E with
    | context [if ?x <? 0 then -1 else 0] =>
        destruct (Z.ltb_spec x 0) as [Hsz|Hsz]
    end; inversion E; subst r w'; (split; [auto|]);
      (split; [try discriminate|]).
    + intros [_ H]. change (0 <= k_write K (trace (emit (EOpen p O_WRONLY fd) w)) fd (if on =? 0 then "0" else "1")) in H. lia.
    + tauto.
    + tauto.
Qed.

(** C9: the code at the failing input.  In the rfkill variant a [write]
    that transfers no byte (returns 0) is reported as success, because the
    test is [sz < 0]; the direct-file variant, with [sz != 1], reports the
    same write as a failure. *)
Theorem rfkill_set_power_accepts_short_write :
  let K := rfkill_kernel ["bluetooth"] "0" 0 4 0 1 0 in
  set_bluetooth_power K false 2 1 fresh =
    Some (0, {| trace := [EClose 3; EWrite 3 "1" 0;
                          EOpen "/sys/class/rfkill/rfkill0/state" O_WRONLY 3;
                          EClose 3; ERead 3 16 (Some "bluetooth");
                          EOpen "/sys/class/rfkill/rfkill0/type" O_RDONLY 3];
                rfkill_id := 0;
                rfkill_state_path := Some "/sys/class/rfkill/rfkill0/state" |})
  /\
  set_bluetooth_power (const_kernel 3 None 0 4 0 1 0) true 0 1 fresh =
    Some (-1, {| trace := [EClose 3; EWrite 3 "Y" 0;
                           EOpen UglyPower.BLUETOOTH_POWER_PATH O_WRONLY 3];
                 rfkill_id := -1; rfkill_state_path := None |}).
Proof. split; reflexivity. Qed.

(** * Further properties of the power rail *)

Section PowerRuns.

Variable K : kernel.

(** The direct-file power write, call by call. *)
Lemma ugly_set_run on w :
  let fd := k_open K (trace w) UglyPower.BLUETOOTH_POWER_PATH O_WRONLY in
  let w1 := emit (EOpen UglyPower.BLUETOOTH_POWER_PATH O_WRONLY fd) w in
  let buffer := if on =? 0 then "N" else "Y" in
  let sz := k_write K (trace w1) fd buffer in
  let w2 := emit (EWrite fd buffer sz) w1 in
  UglyPower.set_bluetooth_power K on w =
  if fd =? -1 then Some (-1, w1)
  else Some (if sz =? 1 then 0 else -1,
             if 0 <=? fd then emit (EClose fd) w2 else w2).
Proof.
  cbv zeta. unfold UglyPower.set_bluetooth_power, bind at 1, sys_open at 1.
  destruct (Z.eqb_spec (k_open K (trace w) UglyPower.BLUETOOTH_POWER_PATH
                          O_WRONLY) (-1)) as [E|E].
  - rewrite out_run, E. reflexivity.
  - unfold bind, sys_write.
    destruct (k_write K _ _ _ =? 1); cbn [negb]; now rewrite out_run.
Qed.

(** The direct-file power read, call by call. *)
Lemma ugly_check_run w :
  let fd := k_open K (trace w) UglyPower.BLUETOOTH_POWER_PATH O_RDONLY in
  let w1 := emit (EOpen UglyPower.BLUETOOTH_POWER_PATH O_RDONLY fd) w in
  UglyPower.check_bluetooth_power K w =
  if fd =? -1 then Some (-1, w1)
  else
    match k_read K (trace w1) fd 1 with
    | None =>
        let w2 := emit (ERead fd 1 None) w1 in
        Some (-1, if 0 <=? fd then emit (EClose fd) w2 else w2)
    | Some s =>
        let w2 := emit (ERead fd 1 (Some (take 1 s))) w1 in
        Some (if String.eqb (take 1 s) "Y" then 1
              else if String.eqb (take 1 s) "N" then 0 else -1,
              if 0 <=? fd then emit (EClose fd) w2 else w2)
    end.
Proof.
  cbv zeta. unfold UglyPower.check_bluetooth_power, bind at 1, sys_open at 1.
  destruct (Z.eqb_spec (k_open K (trace w) UglyPower.BLUETOOTH_POWER_PATH
                          O_RDONLY) (-1)) as [E|E].
  - rewrite out_run, E. reflexivity.
  - unfold bind, sys_read. change (Z.to_nat 1) with 1%nat.
    destruct (k_read K _ _ 1) as [s|]; cbn [fst snd].
    + destruct s as [|c [|c' s]]; cbn [take slen String.length Z.of_nat];
        cbn [Z.eqb negb Pos.eqb Pos.of_succ_nat];
        repeat case_if; try (vm_compute in Heqb; discriminate);
        rewrite out_run; finish_out.
    + cbn [Z.eqb negb]. now rewrite out_run.
Qed.

(** The rfkill power read on a resolved binding, call by call. *)
Lemma rfkill_check_run fuel w p :
  rfkill_id w <> -1 ->
  rfkill_state_path w = Some p ->
  let fd := k_open K (trace w) p O_RDONLY in
  let w1 := emit (EOpen p O_RDONLY fd) w in
  Rfkill.check_bluetooth_power K fuel w =
  if fd <? 0 then Some (-1, w1)
  else
    match k_read K (trace w1) fd 1 with
    | None => Some (-1, emit (EClose fd) (emit (ERead fd 1 None) w1))
    | Some s =>
        Some (if String.eqb (take 1 s) "1" then 1
              else if String.eqb (take 1 s) "0" then 0 else -1,
              emit (EClose fd) (emit (ERead fd 1 (Some (take 1 s))) w1))
    end.
Proof.
  intros Hid Hpath. cbv zeta. unfold Rfkill.check_bluetooth_power.
  rewrite with_binding_resolved by assumption.
  unfold bind at 1, Rfkill.open_state_path. rewrite Hpath.
  unfold sys_open at 1.
  destruct (k_open K (trace w) p O_RDONLY <? 0) eqn:Hfd.
  { now rewrite out_run, (neg_not_nonneg _ Hfd). }
  unfold bind, sys_read. change (Z.to_nat 1) with 1%nat.
  destruct (k_read K _ _ 1) as [s|]; cbn [fst snd].
  - destruct s as [|c [|c' s]]; cbn [take slen String.length Z.of_nat];
      cbn [Z.eqb negb Pos.eqb Pos.of_succ_nat];
      repeat case_if; try (vm_compute in Heqb; discriminate);
      now rewrite out_run, (not_neg_nonneg _ Hfd).
  - cbn [Z.eqb negb]. now rewrite out_run, (not_neg_nonneg _ Hfd).
Qed.

End PowerRuns.

(** X1.  The direct-file power read returns 1 exactly when the file opens
    and the one byte read is 'Y', 0 exactly when it is 'N', and -1 in every
    other case: the file does not open, nothing is read, or the byte is any
    other one. *)
Theorem ugly_check_decodes K w :
  let fd := k_open K (trace w) UglyPower.BLUETOOTH_POWER_PATH O_RDONLY in
  let t1 := EOpen UglyPower.BLUETOOTH_POWER_PATH O_RDONLY fd :: trace w in
  exists r w',
    UglyPower.check_bluetooth_power K w = Some (r, w') /\
    (r = 1 <->
     fd <> -1 /\ exists s, k_read K t1 fd 1 = Some s /\ take 1 s = "Y") /\
    (r = 0 <->
     fd <> -1 /\ exists s, k_read K t1 fd 1 = Some s /\ take 1 s = "N") /\
    (r <> 1 -> r <> 0 -> r = -1).
Proof.
  intros fd t1. rewrite ugly_check_run. cbv zeta. fold fd.
  change (trace (emit (EOpen UglyPower.BLUETOOTH_POWER_PATH O_RDONLY fd) w))
    with t1.
  destruct (Z.eqb_spec fd (-1)) as [Hfd|Hfd].
  { eexists _, _. split; [reflexivity|].
    repeat split; try discriminate; try tauto. }
  destruct (k_read K t1 fd 1) as [s|].
  - destruct (String.eqb_spec (take 1 s) "Y") as [HY|HY].
    { eexists _, _. split; [reflexivity|]. repeat split; eauto; try lia.
      intros [_ (s' & E & HN)]. injection E as <-. rewrite HY in HN.
      discriminate. }
    destruct (String.eqb_spec (take 1 s) "N") as [HN|HN].
    { eexists _, _. split; [reflexivity|]. repeat split; eauto; try lia.
      intros [_ (s' & E & H)]. injection E as <-. contradiction. }
    eexists _, _. split; [reflexivity|]. repeat split; try discriminate.
    + intros [_ (s' & E & H)]. injection E as <-. contradiction.
    + intros [_ (s' & E & H)]. injection E as <-. contradiction.
  - eexists _, _. split; [reflexivity|]. repeat split; try discriminate.
    + intros [_ (s' & E & _)]. discriminate.
    + intros [_ (s' & E & _)]. discriminate.
Qed.

(** X2.  On a resolved binding the rfkill power read returns 1 exactly when
    the state file opens and the one byte read is '1', 0 exactly when it is
    '0', and -1 in every other case. *)
Theorem rfkill_check_decodes K fuel w p :
  rfkill_id w <> -1 ->
  rfkill_state_path w = Some p ->
  let fd := k_open K (trace w) p O_RDONLY in
  let t1 := EOpen p O_RDONLY fd :: trace w in
  exists r w',
    Rfkill.check_bluetooth_power K fuel w = Some (r, w') /\
    (r = 1 <->
     0 <= fd /\ exists s, k_read K t1 fd 1 = Some s /\ take 1 s = "1") /\
    (r = 0 <->
     0 <= fd /\ exists s, k_read K t1 fd 1 = Some s /\ take 1 s = "0") /\
    (r <> 1 -> r <> 0 -> r = -1).
Proof.
  intros Hid Hpath fd t1. rewrite (rfkill_check_run K fuel w p Hid Hpath).
  cbv zeta. fold fd.
  change (trace (emit (EOpen p O_RDONLY fd) w)) with t1.
  destruct (Z.ltb_spec fd 0) as [Hfd|Hfd].
  { eexists _, _. split; [reflexivity|].
    repeat split; try discriminate; try lia. }
  destruct (k_read K t1 fd 1) as [s|].
  - destruct (String.eqb_spec (take 1 s) "1") as [H1|H1].
    { eexists _, _. split; [reflexivity|]. repeat split; eauto; try lia.
      intros [_ (s' & E & H0)]. injection E as <-. rewrite H1 in H0.
      discriminate. }
    destruct (String.eqb_spec (take 1 s) "0") as [H0|H0].
    { eexists _, _. split; [reflexivity|]. repeat split; eauto; try lia.
      intros [_ (s' & E & H)]. injection E as <-. contradiction. }
    eexists _, _. split; [reflexivity|]. repeat split; try discriminate.
    + intros [_ (s' & E & H)]. injection E as <-. contradiction.
    + intros [_ (s' & E & H)]. injection E as <-. contradiction.
  - eexists _, _. split; [reflexivity|]. repeat split; try discriminate.
    + intros [_ (s' & E & _)]. discriminate.
    + intros [_ (s' & E & _)]. discriminate.
Qed.

Lemma rfkill_check_decodes_witness :
  exists r w',
    Rfkill.check_bluetooth_power (const_kernel 3 (Some "7") 1 4 0 1 0) 0
      (bound 2) = Some (r, w') /\
    (r = 1 <->
     0 <= 3 /\ exists s, Some "7" = Some s /\ take 1 s = "1") /\
    (r = 0 <->
     0 <= 3 /\ exists s, Some "7" = Some s /\ take 1 s = "0") /\
    (r <> 1 -> r <> 0 -> r = -1).
Proof.
  apply (rfkill_check_decodes (const_kernel 3 (Some "7") 1 4 0 1 0) 0
           (bound 2) (Rfkill.state_path 2)).
  - discriminate.
  - reflexivity.
Defined.

(** X3.  Round trip of the direct-file variant: on a file that keeps what
    was last written to it, a power write that reported success is read
    back by the power read as the value written: 1 for "on", 0 for "off". *)
Theorem ugly_power_round_trip K on w w1 :
  stores K ->
  UglyPower.set_bluetooth_power K on w = Some (0, w1) ->
  k_open K (trace w1) UglyPower.BLUETOOTH_POWER_PATH O_RDONLY <> -1 ->
  exists w2,
    UglyPower.check_bluetooth_power K w1 =
    Some (if on =? 0 then 0 else 1, w2).
Proof.
  intros Hstore Hset Hopen. rewrite ugly_set_run in Hset. cbv zeta in Hset.
  destruct (_ =? -1) in Hset; [discriminate|].
  match type of Hset with
  | context [if ?sz =? 1 then 0 else -1] =>
      destruct (Z.eqb_spec sz 1) as [Hsz|Hsz]; [rewrite Hsz in Hset|discriminate]
  end.
  assert (Hlast : last_write (trace w1) = Some (if on =? 0 then "N" else "Y")).
  { injection Hset as <-.
    destruct (0 <=? _); cbn [trace emit last_write];
      destruct (on =? 0); reflexivity. }
  rewrite ugly_check_run. cbv zeta.
  apply Z.eqb_neq in Hopen. rewrite Hopen.
  rewrite Hstore. cbn [trace emit last_write]. rewrite Hlast.
  destruct (on =? 0); eexists; reflexivity.
Qed.

Lemma ugly_power_round_trip_witness :
  exists w2,
    UglyPower.check_bluetooth_power (store_kernel 0 0)
      {| trace := [EClose 3; EWrite 3 "Y" 1;
                   EOpen UglyPower.BLUETOOTH_POWER_PATH O_WRONLY 3];
         rfkill_id := -1; rfkill_state_path := None |} =
    Some (if 1 =? 0 then 0 else 1, w2).
Proof.
  apply (ugly_power_round_trip (store_kernel 0 0) 1 fresh).
  - intros t fd n. reflexivity.
  - reflexivity.
  - discriminate.
Defined.

(** X4.  Round trip of the rfkill variant on a resolved binding: when
    writes are all-or-nothing and the state file keeps what was last
    written, a power write that reported success is read back as the value
    written. *)
Theorem rfkill_power_round_trip K fuel on w p w1 :
  stores K ->
  (forall t fd data, k_write K t fd data < 0 \/ k_write K t fd data = slen data) ->
  rfkill_id w <> -1 ->
  rfkill_state_path w = Some p ->
  Rfkill.set_bluetooth_power K fuel on w = Some (0, w1) ->
  0 <= k_open K (trace w1) p O_RDONLY ->
  exists w2,
    Rfkill.check_bluetooth_power K fuel w1 =
    Some (if on =? 0 then 0 else 1, w2).
Proof.
  intros Hstore Hwrite Hid Hpath Hset Hopen.
  rewrite (rfkill_set_resolved K fuel on w p Hid Hpath) in Hset.
  cbv zeta in Hset.
  destruct (_ <? 0) in Hset; [discriminate|].
  match type of Hset with
  | context [if ?sz <? 0 then -1 else 0] =>
      destruct (Z.ltb_spec sz 0) as [Hsz|Hsz]; [discriminate|];
      assert (Hfull : sz = 1)
  end.
  { match goal with
    | |- k_write K ?t ?fd ?d = 1 =>
        destruct (Hwrite t fd d) as [Hneg|Hall]; [lia|];
        rewrite Hall; now destruct (on =? 0)
    end. }
  injection Hset as <-.
  rewrite (rfkill_check_run K fuel _ p); [|exact Hid|exact Hpath].
  cbv zeta. cbn [trace emit] in *.
  rewrite (proj2 (Z.ltb_ge _ _) Hopen), Hstore.
  cbn [last_write]. rewrite Hfull.
  destruct (on =? 0); eexists; reflexivity.
Qed.

Lemma rfkill_power_round_trip_witness :
  exists w2,
    Rfkill.check_bluetooth_power (store_kernel 0 0) 0
      {| trace := [EClose 3; EWrite 3 "0" 1;
                   EOpen (Rfkill.state_path 0) O_WRONLY 3];
         rfkill_id := 0;
         rfkill_state_path := Some (Rfkill.state_path 0) |} =
    Some (if 0 =? 0 then 0 else 1, w2).
Proof.
  apply (rfkill_power_round_trip (store_kernel 0 0) 0 0 (bound 0)
           (Rfkill.state_path 0)).
  - intros t fd n. reflexivity.
  - intros t fd data. right. reflexivity.
  - discriminate.
  - reflexivity.
  - reflexivity.
  - simpl. lia.
Defined.

(** * Descriptors *)

Lemma remove_one_head fd held : remove_one fd (fd :: held) = Some held.
Proof. cbn. now rewrite Z.eqb_refl. Qed.

Lemma release_acquire fd d : 0 <= fd -> release fd (acquire fd d) = d.
Proof.
  intros H. unfold acquire. rewrite (proj2 (Z.leb_le _ _) H).
  unfold release. cbn [fst snd]. rewrite remove_one_head. now destruct d.
Qed.

Lemma acquire_negative fd d : fd < 0 -> acquire fd d = d.
Proof. intros H. unfold acquire. now rewrite (proj2 (Z.leb_gt _ _) H). Qed.

Lemma keeps_descriptors_refl w : keeps_descriptors w w.
Proof. reflexivity. Qed.

Lemma keeps_descriptors_trans w1 w2 w3 :
  keeps_descriptors w1 w2 -> keeps_descriptors w2 w3 -> keeps_descriptors w1 w3.
Proof. unfold keeps_descriptors. congruence. Qed.

(** Settles a goal on the descriptors of an explicit log. *)
Ltac settle_descriptors :=
  unfold keeps_descriptors; cbn [trace emit descriptors];
  rewrite ?release_acquire, ?acquire_negative by lia; try reflexivity.

Section PowerDescriptors.

Variable K : kernel.

Lemma ugly_set_keeps_descriptors on :
  respects keeps_descriptors (UglyPower.set_bluetooth_power K on).
Proof.
  intros w r w'. rewrite ugly_set_run. cbv zeta.
  destruct (Z.eqb_spec (k_open K (trace w) UglyPower.BLUETOOTH_POWER_PATH
                          O_WRONLY) (-1)) as [E|E].
  - inversion 1; subst. unfold keeps_descriptors. cbn [trace emit descriptors].
    rewrite E. reflexivity.
  - destruct (Z.leb_spec 0 (k_open K (trace w) UglyPower.BLUETOOTH_POWER_PATH
                              O_WRONLY)); inversion 1; subst;
      settle_descriptors.
Qed.

Lemma ugly_check_keeps_descriptors :
  respects keeps_descriptors (UglyPower.check_bluetooth_power K).
Proof.
  intros w r w'. rewrite ugly_check_run. cbv zeta.
  destruct (Z.eqb_spec (k_open K (trace w) UglyPower.BLUETOOTH_POWER_PATH
                          O_RDONLY) (-1)) as [E|E].
  - inversion 1; subst. unfold keeps_descriptors. cbn [trace emit descriptors].
    rewrite E. reflexivity.
  - destruct (k_read K _ _ 1);
      destruct (Z.leb_spec 0 (k_open K (trace w) UglyPower.BLUETOOTH_POWER_PATH
                                O_RDONLY)); inversion 1; subst;
      settle_descriptors.
Qed.

(** Each turn of the scan closes the type file it opened. *)
Lemma init_rfkill_from_keeps_descriptors fuel :
  forall id, respects keeps_descriptors (Rfkill.init_rfkill_from K fuel id).
Proof.
  induction fuel as [|fuel IH]; intros id w r w'; [discriminate|].
  rewrite init_rfkill_from_step. cbv zeta.
  destruct (Z.ltb_spec (k_open K (trace w) (Rfkill.type_path id) O_RDONLY) 0)
    as [Hfd|Hfd].
  { inversion 1; subst. settle_descriptors. }
  unfold sys_read.
  assert (Hturn : forall rd,
            descriptors
              (EClose (k_open K (trace w) (Rfkill.type_path id) O_RDONLY) ::
               ERead (k_open K (trace w) (Rfkill.type_path id) O_RDONLY) 16 rd ::
               EOpen (Rfkill.type_path id) O_RDONLY
                 (k_open K (trace w) (Rfkill.type_path id) O_RDONLY) :: trace w)
            = descriptors (trace w)).
  { intros rd. cbn [descriptors]. now rewrite release_acquire. }
  destruct (k_read K _ _ 16) as [s|]; cbn [trace emit].
  - destruct (Rfkill.is_bluetooth _).
    + inversion 1; subst. unfold keeps_descriptors. cbn [trace]. apply Hturn.
    + intros Hrest. apply IH in Hrest. unfold keeps_descriptors in *.
      rewrite Hrest. cbn [trace emit]. apply Hturn.
  - destruct (Rfkill.is_bluetooth _).
    + inversion 1; subst. unfold keeps_descriptors. cbn [trace]. apply Hturn.
    + intros Hrest. apply IH in Hrest. unfold keeps_descriptors in *.
      rewrite Hrest. cbn [trace emit]. apply Hturn.
Qed.

(** A relation kept by the scan of an unresolved binding and by the rest of
    an rfkill function on a resolved one is kept by the function. *)
Lemma with_binding_respects (R : world -> world -> Prop) fuel k :
  (forall w, R w w) ->
  (forall w1 w2 w3, R w1 w2 -> R w2 w3 -> R w1 w3) ->
  (forall w r w',
     rfkill_id w = -1 -> Rfkill.init_rfkill K fuel w = Some (r, w') -> R w w') ->
  (forall w a w', rfkill_id w <> -1 -> k w = Some (a, w') -> R w w') ->
  respects R (Rfkill.with_binding K fuel k).
Proof.
  intros Hrefl Htrans Hinit Hk w a w'.
  destruct (Z.eq_dec (rfkill_id w) (-1)) as [E|E].
  - rewrite with_binding_unresolved by assumption.
    destruct (Rfkill.init_rfkill K fuel w) as [[r0 w0]|] eqn:Hrun;
      [|discriminate].
    pose proof (Hinit _ _ _ E Hrun) as HR.
    apply init_rfkill_from_result in Hrun as [[-> Hb] | (-> & Hle & Hpath)];
      cbn [Z.eqb].
    + inversion 1; subst. exact HR.
    + intros Hrest. eapply Htrans; [exact HR|].
      apply (Hk w0 a w'); [lia | exact Hrest].
  - rewrite with_binding_resolved by assumption. now apply Hk.
Qed.

Lemma rfkill_set_keeps_descriptors fuel on :
  respects keeps_descriptors (Rfkill.set_bluetooth_power K fuel on).
Proof.
  apply with_binding_respects.
  - apply keeps_descriptors_refl.
  - apply keeps_descriptors_trans.
  - intros w r w' _. apply init_rfkill_from_keeps_descriptors.
  - intros w a w' Hid. unfold bind at 1, Rfkill.open_state_path.
    destruct (rfkill_state_path w) as [p|].
    + unfold sys_open at 1.
      destruct (Z.ltb_spec (k_open K (trace w) p O_WRONLY) 0) as [Hfd|Hfd].
      * rewrite out_run, (proj2 (Z.leb_gt _ _) Hfd). inversion 1; subst.
        settle_descriptors.
      * unfold bind, sys_write. case_if; rewrite out_run,
          (proj2 (Z.leb_le _ _) Hfd); inversion 1; subst; settle_descriptors.
    + cbn [Z.ltb Z.compare]. rewrite out_run. inversion 1; subst.
      settle_descriptors.
Qed.

Lemma rfkill_check_keeps_descriptors fuel :
  respects keeps_descriptors (Rfkill.check_bluetooth_power K fuel).
Proof.
  apply with_binding_respects.
  - apply keeps_descriptors_refl.
  - apply keeps_descriptors_trans.
  - intros w r w' _. apply init_rfkill_from_keeps_descriptors.
  - intros w a w' Hid. unfold bind at 1, Rfkill.open_state_path.
    destruct (rfkill_state_path w) as [p|].
    + unfold sys_open at 1.
      destruct (Z.ltb_spec (k_open K (trace w) p O_RDONLY) 0) as [Hfd|Hfd].
      * rewrite out_run, (proj2 (Z.leb_gt _ _) Hfd). inversion 1; subst.
        settle_descriptors.
      * unfold bind, sys_read.
        destruct (k_read K _ _ 1); cbn [fst snd]; repeat case_if;
          rewrite out_run, (proj2 (Z.leb_le _ _) Hfd); inversion 1; subst;
          settle_descriptors.
    + cbn [Z.ltb Z.compare]. rewrite out_run. inversion 1; subst.
      settle_descriptors.
Qed.

End PowerDescriptors.

(** X5.  The power rail never leaks a descriptor and never closes one it
    does not hold: whenever a power write or a power read of either variant
    returns - the first-use scan of the rfkill variant included - every
    file it opened has been closed again, exactly once. *)
Theorem power_rail_keeps_descriptors K ugly fuel w r w' :
  (exists on, set_bluetooth_power K ugly fuel on w = Some (r, w')) \/
  check_bluetooth_power K ugly fuel w = Some (r, w') ->
  descriptors (trace w') = descriptors (trace w).
Proof.
  intros [[on H] | H]; destruct ugly; cbn in H.
  - exact (ugly_set_keeps_descriptors K on _ _ _ H).
  - exact (rfkill_set_keeps_descriptors K fuel on _ _ _ H).
  - exact (ugly_check_keeps_descriptors K _ _ _ H).
  - exact (rfkill_check_keeps_descriptors K fuel _ _ _ H).
Qed.

Lemma power_rail_keeps_descriptors_witness :
  descriptors
    [EClose 3; EWrite 3 "1" 1;
     EOpen "/sys/class/rfkill/rfkill1/state" O_WRONLY 3;
     EClose 3; ERead 3 16 (Some "bluetooth");
     EOpen "/sys/class/rfkill/rfkill1/type" O_RDONLY 3;
     EClose 3; ERead 3 16 (Some "wifi");
     EOpen "/sys/class/rfkill/rfkill0/type" O_RDONLY 3] =
  descriptors [].
Proof.
  apply (power_rail_keeps_descriptors
           (rfkill_kernel ["wifi"; "bluetooth"] "1" 1 4 0 1 0) false 3 fresh 0
           {| trace := [EClose 3; EWrite 3 "1" 1;
                        EOpen "/sys/class/rfkill/rfkill1/state" O_WRONLY 3;
                        EClose 3; ERead 3 16 (Some "bluetooth");
                        EOpen "/sys/class/rfkill/rfkill1/type" O_RDONLY 3;
                        EClose 3; ERead 3 16 (Some "wifi");
                        EOpen "/sys/class/rfkill/rfkill0/type" O_RDONLY 3];
              rfkill_id := 1;
              rfkill_state_path := Some "/sys/class/rfkill/rfkill1/state" |}).
  left. exists 1. reflexivity.
Defined.

Lemma slept_usec_app t1 t2 : slept_usec (t1 ++ t2) = slept_usec t1 + slept_usec t2.
Proof.
  induction t1 as [|e t1 IH]; [reflexivity|].
  destruct e; cbn [app slept_usec]; rewrite IH; lia.
Qed.

Lemma file_events_quiet evs :
  forallb is_file_event evs = true ->
  slept_usec evs = 0 /\ count is_sleep evs = 0%nat.
Proof.
  induction evs as [|e evs IH]; [auto|].
  cbn [forallb]. intros H. apply andb_true_iff in H as [He Hrest].
  destruct (IH Hrest) as [Hs Hc]. rewrite count_cons.
  destruct e; try discriminate; cbn [slept_usec is_sleep]; auto.
Qed.

Section PublicDescriptors.

Variable K : kernel.

(** How the poll loop leaves the log, exit by exit: the socket of a [break]
    is still held, every other socket was closed once, and only the exit by
    exhaustion has slept as often as there were attempts. *)
Lemma poll_hci_up_exit attempt :
  forall hci_sock w e w',
  poll_hci_up K attempt hci_sock w = Some (e, w') ->
  exists evs,
    trace w' = evs ++ trace w /\
    slept_usec evs = 10000 * Z.of_nat (count is_usleep evs) /\
    count is_sleep evs = 0%nat /\
    match e with
    | Break sk _ =>
        0 <= sk /\
        descriptors (trace w') = acquire sk (descriptors (trace w)) /\
        (count is_usleep evs < attempt)%nat
    | GotoOut sk =>
        sk < 0 /\
        descriptors (trace w') = descriptors (trace w) /\
        (count is_usleep evs < attempt)%nat
    | Exhausted sk =>
        descriptors (trace w') = descriptors (trace w) /\
        count is_usleep evs = attempt /\
        (attempt = 0%nat -> sk = hci_sock) /\
        ((0 < attempt)%nat -> 0 <= sk)
    end.
Proof.
  induction attempt as [|attempt IH]; intros hci_sock w e w'.
  - inversion 1; subst. exists []. cbn. repeat split; auto; lia.
  - rewrite poll_hci_up_step. cbv zeta.
    destruct (Z.ltb_spec (k_socket K (trace w)) 0) as [Hsk|Hsk].
    { inversion 1; subst. exists [ESocket (k_socket K (trace w))].
      cbn [trace emit app descriptors]. rewrite acquire_negative by lia.
      cbn. repeat split; auto; lia. }
    case_if.
    { inversion 1; subst. eexists [_; _]. split; [reflexivity|].
      cbn. repeat split; auto; lia. }
    intros Hrest. apply IH in Hrest as (evs & Ht & Hs & Hq & He).
    assert (Hturn : descriptors (trace (failed_turn K w)) = descriptors (trace w)).
    { unfold failed_turn. cbn [trace emit descriptors].
      now rewrite release_acquire. }
    eexists (evs ++ [_; _; _; _]). split.
    { rewrite Ht. unfold failed_turn. cbn [trace emit].
      rewrite <- app_assoc. reflexivity. }
    rewrite slept_usec_app, !count_app. cbn [slept_usec count filter
      is_usleep is_sleep List.length]. rewrite Hs, Hq.
    split; [lia|]. split; [lia|].
    destruct e as [sk a| sk | sk]; rewrite Hturn in He.
    + destruct He as (H0 & Hd & Hu). repeat split; auto; lia.
    + destruct He as (H0 & Hd & Hu). repeat split; auto; lia.
    + destruct He as (Hd & Hu & H0 & Hpos). repeat split; auto; try lia.
Qed.

End PublicDescriptors.

Section PublicRuns.

Variable K : kernel.
Variable ugly : bool.
Variable fuel : nat.

Lemma set_power_keeps_descriptors on :
  respects keeps_descriptors (set_bluetooth_power K ugly fuel on).
Proof.
  destruct ugly; [apply ugly_set_keeps_descriptors
                 | apply rfkill_set_keeps_descriptors].
Qed.

Lemma check_power_keeps_descriptors :
  respects keeps_descriptors (check_bluetooth_power K ugly fuel).
Proof.
  destruct ugly; [apply ugly_check_keeps_descriptors
                 | apply rfkill_check_keeps_descriptors].
Qed.

(** A public function that returned made its power call return. *)
Lemma bt_enable_power_returned w r w' :
  bt_enable K ugly fuel w = Some (r, w') ->
  exists r1 w1, set_bluetooth_power K ugly fuel 1 w = Some (r1, w1).
Proof.
  unfold bt_enable, bind at 1.
  destruct (set_bluetooth_power K ugly fuel 1 w) as [[r1 w1]|];
    [eauto | discriminate].
Qed.

Lemma bt_is_enabled_power_returned w r w' :
  bt_is_enabled K ugly fuel w = Some (r, w') ->
  exists p w1, check_bluetooth_power K ugly fuel w = Some (p, w1).
Proof.
  unfold bt_is_enabled, bind at 1.
  destruct (check_bluetooth_power K ugly fuel w) as [[p w1]|];
    [eauto | discriminate].
Qed.

(** The exits of [bt_enable]: a failure short of the timeout, the timeout,
    and success, each with its descriptors and its sleeps. *)
Lemma bt_enable_exits w r w' :
  bt_enable K ugly fuel w = Some (r, w') ->
  exists evs,
    trace w' = evs ++ trace w /\
    ((r = -1 /\
      descriptors (trace w') = descriptors (trace w) /\
      (count is_usleep evs < 1000)%nat /\
      slept_usec evs = 10000 * Z.of_nat (count is_usleep evs) /\
      count is_sleep evs = 0%nat) \/
     (r = -1 /\
      count is_usleep evs = 1000%nat /\
      slept_usec evs = 10000000 /\
      count is_sleep evs = 0%nat /\
      exists sk, 0 <= sk /\
        descriptors (trace w') = release sk (descriptors (trace w))) \/
     (r = 0 /\
      descriptors (trace w') = descriptors (trace w) /\
      (count is_usleep evs < 1000)%nat /\
      slept_usec evs = 10000 * Z.of_nat (count is_usleep evs) + 5000000 /\
      count is_sleep evs = 1%nat)).
Proof.
  intros Hrun.
  destruct (bt_enable_power_returned _ _ _ Hrun) as (r1 & w1 & Hpow).
  rewrite (bt_enable_after_power _ _ _ _ _ _ Hpow) in Hrun. cbv zeta in Hrun.
  destruct (set_power_adds _ _ _ _ _ _ _ Hpow) as (evs0 & Ht0 & Hf0).
  destruct (file_events_count _ Hf0) as (_ & Hu0 & _).
  destruct (file_events_quiet _ Hf0) as (Hs0 & Hq0).
  pose proof (set_power_keeps_descriptors 1 _ _ _ Hpow) as Hd0.
  unfold keeps_descriptors in Hd0.
  destruct (r1 <? 0).
  { injection Hrun as <- <-. exists evs0. split; [exact Ht0|]. left.
    rewrite Hu0, Hs0, Hq0. repeat split; auto; lia. }
  set (p := k_property_set K (trace w1) "ctl.start" "hciattach") in *.
  set (w2 := emit (EPropertySet "ctl.start" "hciattach" p) w1) in *.
  assert (Ht2 : trace w2 = (EPropertySet "ctl.start" "hciattach" p :: evs0)
                           ++ trace w).
  { unfold w2. cbn [trace emit]. now rewrite Ht0. }
  assert (Hd2 : descriptors (trace w2) = descriptors (trace w)).
  { unfold w2. cbn [trace emit descriptors]. exact Hd0. }
  destruct (p <? 0).
  { injection Hrun as <- <-. eexists. split; [exact Ht2|]. left.
    rewrite !count_cons, Hu0, Hq0. cbn [slept_usec is_usleep is_sleep].
    rewrite Hs0. repeat split; auto; lia. }
  destruct (poll_hci_up K POLL_ATTEMPTS (-1) w2) as [[e w3]|] eqn:Hpoll;
    [|discriminate].
  apply poll_hci_up_exit in Hpoll as (evsl & Ht3 & Hsl & Hql & He).
  assert (Hpre : forall post,
    post ++ trace w3 =
     (post ++ evsl ++ EPropertySet "ctl.start" "hciattach" p :: evs0) ++ trace w /\
    count is_usleep
      (post ++ evsl ++ EPropertySet "ctl.start" "hciattach" p :: evs0) =
      (count is_usleep post + count is_usleep evsl)%nat /\
    slept_usec (post ++ evsl ++ EPropertySet "ctl.start" "hciattach" p :: evs0) =
      slept_usec post + slept_usec evsl /\
    count is_sleep
      (post ++ evsl ++ EPropertySet "ctl.start" "hciattach" p :: evs0) =
      (count is_sleep post + count is_sleep evsl)%nat).
  { intros post. rewrite Ht3, Ht2, !count_app, !count_cons, !slept_usec_app.
    cbn [slept_usec is_usleep is_sleep]. rewrite Hu0, Hs0, Hq0.
    rewrite <- !app_assoc. repeat split; lia. }
  unfold POLL_ATTEMPTS in He.
  destruct e as [sk a | sk | sk].
  - destruct He as (Hsk & Hd3 & Hu3).
    rewrite (start_hcid_run K sk w3 Hsk) in Hrun. cbv zeta in Hrun.
    set (q := k_property_set K (trace w3) "ctl.start" "hcid") in *.
    destruct (q <? 0); injection Hrun as <- <-.
    + destruct (Hpre [EClose sk; EPropertySet "ctl.start" "hcid" q])
        as (Ht & Hu & Hs & Hq).
      cbn [count filter is_usleep is_sleep List.length slept_usec] in Hu, Hs, Hq.
      eexists. split; [exact Ht|]. left. rewrite Hu, Hs, Hq, Hsl, Hql.
      cbn [trace emit descriptors]. rewrite Hd3, Hd2.
      rewrite release_acquire by assumption. repeat split; auto; lia.
    + destruct (Hpre [EClose sk; ESleep HCID_START_DELAY_SEC;
                      EPropertySet "ctl.start" "hcid" q])
        as (Ht & Hu & Hs & Hq).
      cbn [count filter is_usleep is_sleep List.length slept_usec] in Hu, Hs, Hq.
      unfold HCID_START_DELAY_SEC in *.
      eexists. split; [exact Ht|]. right. right.
      rewrite Hu, Hs, Hq, Hsl, Hql.
      cbn [trace emit descriptors]. rewrite Hd3, Hd2.
      rewrite release_acquire by assumption. repeat split; auto; lia.
  - destruct He as (Hsk & Hd3 & Hu3).
    rewrite out_run, (proj2 (Z.leb_gt _ _) Hsk) in Hrun.
    injection Hrun as <- <-.
    destruct (Hpre []) as (Ht & Hu & Hs & Hq).
    cbn [count filter is_usleep is_sleep List.length slept_usec] in Hu, Hs, Hq.
    eexists. split; [exact Ht|]. left. rewrite Hu, Hs, Hq, Hsl, Hql.
    rewrite Hd3, Hd2. repeat split; auto; lia.
  - destruct He as (Hd3 & Hu3 & _ & Hsk). specialize (Hsk ltac:(lia)).
    rewrite out_run, (proj2 (Z.leb_le _ _) Hsk) in Hrun.
    injection Hrun as <- <-.
    destruct (Hpre [EClose sk]) as (Ht & Hu & Hs & Hq).
    cbn [count filter is_usleep is_sleep List.length slept_usec] in Hu, Hs, Hq.
    eexists. split; [exact Ht|]. right. left. rewrite Hu, Hs, Hq, Hsl, Hql, Hu3.
    cbn [trace emit descriptors]. rewrite Hd3, Hd2.
    repeat split; auto; try lia. exists sk. auto.
Qed.

End PublicRuns.

(** X6.  [bt_is_enabled] and [bt_disable] close every descriptor they
    acquire - power file, type files of the scan, HCI socket - exactly once
    on every exit path, and close nothing else. *)
Theorem query_and_disable_keep_descriptors K ugly fuel w r w' :
  bt_is_enabled K ugly fuel w = Some (r, w') \/
  bt_disable K ugly fuel w = Some (r, w') ->
  descriptors (trace w') = descriptors (trace w).
Proof.
  intros [Hrun | Hrun].
  - destruct (bt_is_enabled_power_returned _ _ _ _ _ _ Hrun) as (p & w1 & Hp).
    pose proof (check_power_keeps_descriptors _ _ _ _ _ _ Hp) as Hd.
    unfold keeps_descriptors in Hd.
    rewrite (bt_is_enabled_after_power _ _ _ _ _ _ Hp) in Hrun.
    cbv zeta in Hrun.
    destruct ((p =? -1) || (p =? 0)); [now injection Hrun as <- <-|].
    destruct (Z.ltb_spec (k_socket K (trace w1)) 0);
      injection Hrun as <- <-; cbn [trace emit descriptors];
      rewrite ?release_acquire, ?acquire_negative by lia; exact Hd.
  - rewrite bt_disable_run in Hrun. cbv zeta in Hrun.
    destruct (_ <? 0) in Hrun; [now injection Hrun as <- <-|].
    match type of Hrun with
    | context [k_socket K ?t] =>
        destruct (Z.ltb_spec (k_socket K t) 0) as [Hsk|Hsk]
    end; cbn [trace emit] in Hsk.
    { injection Hrun as <- <-. cbn [trace emit descriptors].
      now rewrite acquire_negative by lia. }
    destruct (_ <? 0) in Hrun.
    { injection Hrun as <- <-. cbn [trace emit descriptors].
      now rewrite release_acquire by lia. }
    destruct (set_bluetooth_power K ugly fuel 0 _) as [[r0 w5]|] eqn:Hpow;
      [|discriminate].
    apply set_power_keeps_descriptors in Hpow. unfold keeps_descriptors in Hpow.
    injection Hrun as <- <-. cbn [trace emit descriptors] in *.
    rewrite Hpow. now rewrite release_acquire by lia.
Qed.

Lemma query_and_disable_keep_descriptors_witness :
  descriptors (trace after_query) = descriptors (trace fresh) /\
  descriptors (trace after_disable) = descriptors (trace fresh).
Proof.
  split.
  - apply (query_and_disable_keep_descriptors
             (const_kernel 3 (Some "Y") 1 4 0 1 0) true 0 fresh 1 after_query).
    left. reflexivity.
  - apply (query_and_disable_keep_descriptors
             (const_kernel 3 (Some "Y") 1 4 0 1 0) true 0 fresh 0 after_disable).
    right. reflexivity.
Defined.

(** X7.  [bt_enable] closes every descriptor it acquires exactly once on
    every exit but one.  On the timeout exit - the only one with 1000 retry
    sleeps - the socket of the last attempt, already closed in the loop, is
    closed a second time at [out:]; in a process that held no descriptor at
    entry that is one [close] of a descriptor it does not hold. *)
Theorem bt_enable_descriptors K ugly fuel w r w' :
  bt_enable K ugly fuel w = Some (r, w') ->
  exists evs,
    trace w' = evs ++ trace w /\
    (count is_usleep evs <= 1000)%nat /\
    ((count is_usleep evs < 1000)%nat ->
     descriptors (trace w') = descriptors (trace w)) /\
    (count is_usleep evs = 1000%nat ->
     r = -1 /\
     (exists sk, 0 <= sk /\
        descriptors (trace w') = release sk (descriptors (trace w))) /\
     (fst (descriptors (trace w)) = [] ->
      descriptors (trace w') = ([], S (snd (descriptors (trace w)))))).
Proof.
  intros Hrun. apply bt_enable_exits in Hrun as (evs & Ht & Hcases).
  exists evs. split; [exact Ht|].
  destruct Hcases as [(Hr & Hd & Hu & _) | [(Hr & Hu & _ & _ & sk & Hsk & Hd)
                                           | (Hr & Hd & Hu & _)]].
  - repeat split; try lia; auto.
  - repeat split; try lia; eauto.
    intros Hheld. rewrite Hd. unfold release. now rewrite Hheld.
  - repeat split; try lia; auto.
Qed.

Lemma bt_enable_descriptors_witness :
  exists evs,
    trace after_enable = evs ++ trace fresh /\
    (count is_usleep evs <= 1000)%nat /\
    ((count is_usleep evs < 1000)%nat ->
     descriptors (trace after_enable) = descriptors (trace fresh)) /\
    (count is_usleep evs = 1000%nat ->
     0 = -1 /\
     (exists sk, 0 <= sk /\
        descriptors (trace after_enable) =
        release sk (descriptors (trace fresh))) /\
     (fst (descriptors (trace fresh)) = [] ->
      descriptors (trace after_enable) =
      ([], S (snd (descriptors (trace fresh)))))).
Proof.
  apply (bt_enable_descriptors (up_at_kernel 2 None 0 0) true 0 fresh 0
           after_enable).
  reflexivity.
Defined.

(** The timeout exit on a kernel whose HCIDEVUP always fails: from a fresh
    process, 1000 sockets, and one [close] too many. *)
Example bt_enable_timeout_closes_twice :
  option_map (fun x => (fst x, descriptors (trace (snd x)),
                        count is_socket (trace (snd x)),
                        count is_usleep (trace (snd x))))
    (bt_enable (const_kernel 3 None 1 4 (-1) 0 0) true 0 fresh) =
  Some (-1, ([], 1%nat), 1000%nat, 1000%nat).
Proof. vm_compute. reflexivity. Qed.

(** X8.  [bt_enable] blocks in sleeps for a bounded time: when it fails it
    has slept 10 ms per retry, 10 s at most, and never the settle delay;
    when it succeeds it has slept the 5 s settle delay once plus 10 ms per
    failed attempt, less than 15 s in all. *)
Theorem bt_enable_sleeps_bounded K ugly fuel w r w' :
  bt_enable K ugly fuel w = Some (r, w') ->
  exists evs,
    trace w' = evs ++ trace w /\
    (r = 0 \/ r = -1) /\
    (r = -1 ->
     slept_usec evs = 10000 * Z.of_nat (count is_usleep evs) /\
     0 <= slept_usec evs <= 10000000 /\ count is_sleep evs = 0%nat) /\
    (r = 0 ->
     slept_usec evs = 5000000 + 10000 * Z.of_nat (count is_usleep evs) /\
     5000000 <= slept_usec evs <= 14990000 /\ count is_sleep evs = 1%nat).
Proof.
  intros Hrun. apply bt_enable_exits in Hrun as (evs & Ht & Hcases).
  exists evs. split; [exact Ht|].
  destruct Hcases as [(Hr & _ & Hu & Hs & Hq)
                     | [(Hr & Hu & Hs & Hq & _) | (Hr & _ & Hu & Hs & Hq)]];
    subst r; (split; [auto|]); split; intros; try discriminate;
    repeat split; try lia.
Qed.

Lemma bt_enable_sleeps_bounded_witness :
  exists evs,
    trace after_enable = evs ++ trace fresh /\
    (0 = 0 \/ 0 = -1) /\
    (0 = -1 ->
     slept_usec evs = 10000 * Z.of_nat (count is_usleep evs) /\
     0 <= slept_usec evs <= 10000000 /\ count is_sleep evs = 0%nat) /\
    (0 = 0 ->
     slept_usec evs = 5000000 + 10000 * Z.of_nat (count is_usleep evs) /\
     5000000 <= slept_usec evs <= 14990000 /\ count is_sleep evs = 1%nat).
Proof.
  apply (bt_enable_sleeps_bounded (up_at_kernel 2 None 0 0) true 0 fresh 0
           after_enable).
  reflexivity.
Defined.

(** * The binding is written once *)

Lemma binds_once_refl K w : binds_once K w w.
Proof. now left. Qed.

Lemma binds_once_trans K w1 w2 w3 :
  binds_once K w1 w2 -> binds_once K w2 w3 -> binds_once K w1 w3.
Proof.
  unfold binds_once, binding.
  intros [H12 | (Hid & Hle & Hpath)] [H23 | (Hid' & Hle' & Hpath')].
  - left. congruence.
  - right. injection H12 as Hi Hp. split; [congruence|]. now split.
  - right. injection H23 as Hi Hp. rewrite Hi, Hp. now split.
  - lia.
Qed.

Lemma respects_same_binding_once K {A} (m : M A) :
  respects same_binding m -> respects (binds_once K) m.
Proof. intros H w a w' E. left. exact (H _ _ _ E). Qed.

Lemma usleep_frame usec : respects same_binding (usleep usec).
Proof. intros w a w' E. now inversion E. Qed.

Lemma sleep_frame sec : respects same_binding (sleep sec).
Proof. intros w a w' E. now inversion E. Qed.

#[local] Hint Resolve usleep_frame sleep_frame : bt.

Section WriteOnce.

Variable K : kernel.

Lemma poll_hci_up_frame attempt :
  forall hci_sock, respects same_binding (poll_hci_up K attempt hci_sock).
Proof.
  induction attempt as [|attempt IH]; intros hci_sock; cbn [poll_hci_up];
    unfold create_hci_sock; eauto 20 with bt.
Qed.

Lemma start_hcid_frame sk : respects same_binding (start_hcid K sk).
Proof. unfold start_hcid. eauto 20 with bt. Qed.

Lemma with_binding_binds_once fuel k :
  respects same_binding k ->
  respects (binds_once K) (Rfkill.with_binding K fuel k).
Proof.
  intros Hk. apply with_binding_respects.
  - apply binds_once_refl.
  - apply binds_once_trans.
  - intros w r w' Hid E.
    apply init_rfkill_from_result in E as [[_ Hb] | (_ & Hle & Hpath)].
    + now left.
    + right. split; [exact Hid|]. split; [exact Hle|].
      exists (trace w'). exact Hpath.
  - intros w a w' _ E. left. exact (Hk _ _ _ E).
Qed.

Lemma rfkill_set_binds_once fuel on :
  respects (binds_once K) (Rfkill.set_bluetooth_power K fuel on).
Proof. apply with_binding_binds_once. eauto 20 with bt. Qed.

Lemma rfkill_check_binds_once fuel :
  respects (binds_once K) (Rfkill.check_bluetooth_power K fuel).
Proof. apply with_binding_binds_once. eauto 20 with bt. Qed.

Lemma set_power_binds_once ugly fuel on :
  respects (binds_once K) (set_bluetooth_power K ugly fuel on).
Proof.
  destruct ugly; [|apply rfkill_set_binds_once].
  apply respects_same_binding_once, ugly_set_frame.
Qed.

Lemma check_power_binds_once ugly fuel :
  respects (binds_once K) (check_bluetooth_power K ugly fuel).
Proof.
  destruct ugly; [|apply rfkill_check_binds_once].
  apply respects_same_binding_once, ugly_check_frame.
Qed.

(** The three public functions, given what their power call does to the
    statics, do no more to them. *)
Lemma public_respects (R : world -> world -> Prop) ugly fuel :
  (forall w, R w w) ->
  (forall w1 w2 w3, R w1 w2 -> R w2 w3 -> R w1 w3) ->
  (forall w w', same_binding w w' -> R w w') ->
  (forall on, respects R (set_bluetooth_power K ugly fuel on)) ->
  respects R (check_bluetooth_power K ugly fuel) ->
  respects R (bt_enable K ugly fuel) /\
  respects R (bt_disable K ugly fuel) /\
  respects R (bt_is_enabled K ugly fuel).
Proof.
  intros Hrefl Htrans Hsame Hset Hcheck.
  assert (Hlift : forall A (m : M A), respects same_binding m -> respects R m).
  { intros A m Hm w a w' E. apply Hsame. exact (Hm _ _ _ E). }
  pose proof poll_hci_up_frame as Hpoll.
  pose proof start_hcid_frame as Hstart.
  split; [|split].
  - unfold bt_enable. apply (respects_bind R Htrans); [apply Hset|].
    intros r1. apply Hlift.
    apply respects_if; [eauto with bt|].
    apply (respects_bind same_binding same_binding_trans); [eauto with bt|].
    intros p. apply respects_if; [eauto with bt|].
    apply (respects_bind same_binding same_binding_trans); [apply Hpoll|].
    intros [sk a|sk|sk]; eauto with bt.
  - unfold bt_disable.
    apply (respects_bind R Htrans); [apply Hlift; eauto with bt|]. intros p.
    apply respects_if; [apply Hlift; eauto with bt|].
    apply (respects_bind R Htrans); [apply Hlift; eauto with bt|]. intros _.
    apply (respects_bind R Htrans);
      [apply Hlift; unfold create_hci_sock; eauto with bt|].
    intros sk.
    apply respects_if; [apply Hlift; eauto with bt|].
    apply (respects_bind R Htrans); [apply Hlift; eauto with bt|]. intros _.
    apply (respects_bind R Htrans); [apply Hlift; eauto with bt|]. intros q.
    apply respects_if; [apply Hlift; eauto with bt|].
    apply (respects_bind R Htrans); [apply Hset|]. intros r.
    apply Hlift. eauto with bt.
  - unfold bt_is_enabled. apply (respects_bind R Htrans); [apply Hcheck|].
    intros r. apply Hlift. unfold create_hci_sock. eauto 20 with bt.
Qed.

(** Every public function writes the binding at most once. *)
Lemma public_run_binds_once ugly fuel w r w' :
  bt_enable K ugly fuel w = Some (r, w') \/
  bt_disable K ugly fuel w = Some (r, w') \/
  bt_is_enabled K ugly fuel w = Some (r, w') ->
  binds_once K w w'.
Proof.
  destruct (public_respects (binds_once K) ugly fuel (binds_once_refl K)
              (binds_once_trans K) (fun w w' H => or_introl H)
              (set_power_binds_once ugly fuel)
              (check_power_binds_once ugly fuel)) as (He & Hd & Hq).
  intros [H | [H | H]];
    [exact (He _ _ _ H) | exact (Hd _ _ _ H) | exact (Hq _ _ _ H)].
Qed.

End WriteOnce.

(** X9.  The rfkill binding is written at most once.  Whichever public
    function runs, the statics are afterwards what they were, unless the
    slot index was unresolved and the call resolved it to a slot index, with
    the path [asprintf] left for that slot: its state path or, when the
    allocation failed, NULL.  In the direct-file variant, and once the slot
    index is resolved, the statics never change; where allocations do not
    fail, a binding that changed holds the state path of its slot. *)
Theorem public_binds_once K ugly fuel w r w' :
  bt_enable K ugly fuel w = Some (r, w') \/
  bt_disable K ugly fuel w = Some (r, w') \/
  bt_is_enabled K ugly fuel w = Some (r, w') ->
  binds_once K w w' /\
  (ugly = true \/ rfkill_id w <> -1 -> binding w' = binding w) /\
  (binding w' <> binding w ->
   rfkill_id w = -1 /\ 0 <= rfkill_id w' /\
   (rfkill_state_path w' = Some (Rfkill.state_path (rfkill_id w')) \/
    rfkill_state_path w' = None) /\
   (allocates K ->
    rfkill_state_path w' = Some (Rfkill.state_path (rfkill_id w')))).
Proof.
  intros Hrun.
  pose proof (public_run_binds_once K ugly fuel w r w' Hrun) as Honce.
  split; [exact Honce|]. split.
  - intros [-> | Hid].
    + destruct (public_respects K same_binding true fuel same_binding_refl
                  same_binding_trans (fun w w' H => H)
                  (fun on => ugly_set_frame K on) (ugly_check_frame K))
        as (He & Hd & Hq).
      destruct Hrun as [H | [H | H]];
        [exact (He _ _ _ H) | exact (Hd _ _ _ H) | exact (Hq _ _ _ H)].
    + destruct Honce as [Hsame | (Hfresh & _)]; [exact Hsame | contradiction].
  - intros Hchanged.
    destruct Honce as [Hsame | (Hfresh & Hle & Hpath)]; [contradiction|].
    split; [exact Hfresh|]. split; [exact Hle|]. split.
    + exact (asprintf_result_cases K _ _ Hpath).
    + intros Halloc. exact (asprintf_result_allocates K _ _ Halloc Hpath).
Qed.

Lemma public_binds_once_witness :
  binds_once (rfkill_kernel ["wlan"; "bluetooth"] "1" 1 4 0 1 0)
    fresh after_first_query /\
  (false = true \/ rfkill_id fresh <> -1 ->
   binding after_first_query = binding fresh) /\
  (binding after_first_query <> binding fresh ->
   rfkill_id fresh = -1 /\ 0 <= rfkill_id after_first_query /\
   (rfkill_state_path after_first_query =
      Some (Rfkill.state_path (rfkill_id after_first_query)) \/
    rfkill_state_path after_first_query = None) /\
   (allocates (rfkill_kernel ["wlan"; "bluetooth"] "1" 1 4 0 1 0) ->
    rfkill_state_path after_first_query =
      Some (Rfkill.state_path (rfkill_id after_first_query)))).
Proof.
  apply (public_binds_once (rfkill_kernel ["wlan"; "bluetooth"] "1" 1 4 0 1 0)
           false 3 fresh 1).
  right. right. reflexivity.
Defined.

(** X10.  In every state a process can reach from its start by calls of the
    three public functions, the two statics are consistent: either no slot
    is bound and the path is NULL, or [rfkill_id] is a slot index and
    [rfkill_state_path] is what [asprintf] left for that very slot, its
    state file or, when the allocation failed, NULL; never the file of
    another slot.  Where allocations do not fail, a bound slot always has
    its state path, so that no call opens a NULL path once a slot is
    bound. *)
Theorem reachable_well_bound K ugly fuel w :
  reachable K ugly fuel w ->
  well_bound K w /\ (allocates K -> fully_bound w).
Proof.
  intros Hreach.
  assert (Hwell : well_bound K w).
  { assert (Hstep : forall w w',
              well_bound K w -> binds_once K w w' -> well_bound K w').
    { intros w0 w' Hw [Hsame | (_ & Hle & Hpath)].
      - unfold binding in Hsame. injection Hsame as Hi Hp.
        unfold well_bound. rewrite Hi, Hp. exact Hw.
      - right. auto. }
    induction Hreach
      as [| w0 r w' _ IH Hrun | w0 r w' _ IH Hrun | w0 r w' _ IH Hrun].
    - left. split; reflexivity.
    - apply (Hstep _ _ IH), (public_run_binds_once K ugly fuel w0 r); auto.
    - apply (Hstep _ _ IH), (public_run_binds_once K ugly fuel w0 r); auto.
    - apply (Hstep _ _ IH), (public_run_binds_once K ugly fuel w0 r); auto. }
  split; [exact Hwell|]. intros Halloc.
  destruct Hwell as [Hnone | [Hle Hpath]]; [now left|].
  right. split; [exact Hle|].
  exact (asprintf_result_allocates K _ _ Halloc Hpath).
Qed.

Lemma reachable_well_bound_witness :
  well_bound (no_memory (rfkill_kernel ["wlan"; "bluetooth"] "1" 1 4 0 1 0))
    half_bound /\
  (allocates (no_memory (rfkill_kernel ["wlan"; "bluetooth"] "1" 1 4 0 1 0)) ->
   fully_bound half_bound).
Proof.
  apply (reachable_well_bound
           (no_memory (rfkill_kernel ["wlan"; "bluetooth"] "1" 1 4 0 1 0))
           false 3).
  apply (reach_is_enabled _ _ _ fresh (-1)); [apply reach_fresh|].
  reflexivity.
Defined.

(** * What each operation never does *)

Section CallKinds.

Variable K : kernel.
Variable p : event -> bool.

Lemma sys_socket_adds :
  (forall sk, p (ESocket sk) = true) -> respects (adds p) (sys_socket K).
Proof. intros H w a w' E. inversion E; subst. now apply adds_emit. Qed.

Lemma sys_ioctl_adds sk req dev :
  (forall r, p (EIoctl sk req dev r) = true) ->
  respects (adds p) (sys_ioctl K sk req dev).
Proof. intros H w a w' E. inversion E; subst. now apply adds_emit. Qed.

Lemma sys_ioctl_devinfo_adds sk dev :
  (forall r, p (EIoctl sk HCIGETDEVINFO dev r) = true) ->
  respects (adds p) (sys_ioctl_devinfo K sk dev).
Proof. intros H w a w' E. inversion E; subst. now apply adds_emit. Qed.

Lemma property_set_adds key value :
  (forall r, p (EPropertySet key value r) = true) ->
  respects (adds p) (property_set K key value).
Proof. intros H w a w' E. inversion E; subst. now apply adds_emit. Qed.

Lemma usleep_adds usec : p (EUsleep usec) = true -> respects (adds p) (usleep usec).
Proof. intros H w a w' E. inversion E; subst. now apply adds_emit. Qed.

Lemma sleep_adds sec : p (ESleep sec) = true -> respects (adds p) (sleep sec).
Proof. intros H w a w' E. inversion E; subst. now apply adds_emit. Qed.

Lemma set_rfkill_id_adds_any id : respects (adds p) (Rfkill.set_rfkill_id id).
Proof. intros w a w' E. inversion E; subst. now exists []. Qed.

Lemma asprintf_state_path_adds_any :
  respects (adds p) (Rfkill.asprintf_state_path K).
Proof. intros w a w' E. inversion E; subst. now exists []. Qed.

Lemma open_state_path_adds_any fl :
  (forall path fd, p (EOpen path fl fd) = true) ->
  respects (adds p) (Rfkill.open_state_path K fl).
Proof.
  intros H w a w' E. unfold Rfkill.open_state_path in E.
  destruct (rfkill_state_path w).
  - revert E. apply sys_open_adds. auto.
  - inversion E; subst. apply adds_refl.
Qed.

(** The scan opens read-only, reads and closes, and makes no other call. *)
Lemma init_rfkill_from_adds_any fuel :
  (forall path fd, p (EOpen path O_RDONLY fd) = true) ->
  (forall fd n r, p (ERead fd n r) = true) ->
  (forall fd, p (EClose fd) = true) ->
  forall id, respects (adds p) (Rfkill.init_rfkill_from K fuel id).
Proof.
  intros Hopen Hread Hclose.
  induction fuel as [|fuel IH]; intros id; cbn [Rfkill.init_rfkill_from].
  - apply respects_diverge.
  - apply (respects_bind _ (adds_trans p)); [apply sys_open_adds; auto|].
    intros fd. apply respects_if; [apply respects_ret, adds_refl|].
    apply (respects_bind _ (adds_trans p)); [apply sys_read_adds; auto|].
    intros rd.
    apply (respects_bind _ (adds_trans p)); [apply sys_close_adds; auto|].
    intros _. apply respects_if; [|apply IH].
    apply (respects_bind _ (adds_trans p)); [apply set_rfkill_id_adds_any|].
    intros _.
    apply (respects_bind _ (adds_trans p));
      [apply asprintf_state_path_adds_any|].
    intros _. apply respects_ret, adds_refl.
Qed.

Lemma with_binding_adds_any fuel k :
  (forall path fd, p (EOpen path O_RDONLY fd) = true) ->
  (forall fd n r, p (ERead fd n r) = true) ->
  (forall fd, p (EClose fd) = true) ->
  respects (adds p) k ->
  respects (adds p) (Rfkill.with_binding K fuel k).
Proof.
  intros Hopen Hread Hclose Hk. apply with_binding_respects.
  - apply adds_refl.
  - apply adds_trans.
  - intros w r w' _. now apply init_rfkill_from_adds_any.
  - intros w a w' _. apply Hk.
Qed.

End CallKinds.

#[local] Hint Resolve sys_socket_adds sys_ioctl_adds sys_ioctl_devinfo_adds
  property_set_adds usleep_adds sleep_adds open_state_path_adds_any : bt.

Section Never.

Variable K : kernel.

Lemma set_power_writes_byte p ugly fuel on :
  (forall path fl fd, p (EOpen path fl fd) = true) ->
  (forall fd n r, p (ERead fd n r) = true) ->
  (forall fd, p (EClose fd) = true) ->
  (forall fd sz, p (EWrite fd (power_byte ugly on) sz) = true) ->
  respects (adds p) (set_bluetooth_power K ugly fuel on).
Proof.
  intros Hopen Hread Hclose Hwrite. destruct ugly; cbn [set_bluetooth_power].
  - unfold UglyPower.set_bluetooth_power.
    apply (respects_bind _ (adds_trans p)); [apply sys_open_adds; auto|].
    intros fd. apply respects_if; [apply out_adds; auto|].
    apply (respects_bind _ (adds_trans p));
      [apply sys_write_adds; intros sz; apply Hwrite|].
    intros sz. apply respects_if; apply out_adds; auto.
  - unfold Rfkill.set_bluetooth_power.
    apply with_binding_adds_any; auto.
    apply (respects_bind _ (adds_trans p));
      [apply open_state_path_adds_any; auto|].
    intros fd. apply respects_if; [apply out_adds; auto|].
    apply (respects_bind _ (adds_trans p));
      [apply sys_write_adds; intros sz; apply Hwrite|].
    intros sz. apply respects_if; apply out_adds; auto.
Qed.

Lemma poll_hci_up_adds p attempt :
  (forall sk, p (ESocket sk) = true) ->
  (forall sk r, p (EIoctl sk HCIDEVUP HCI_DEV_ID r) = true) ->
  (forall fd, p (EClose fd) = true) ->
  p (EUsleep 10000) = true ->
  forall hci_sock, respects (adds p) (poll_hci_up K attempt hci_sock).
Proof.
  intros Hsock Hup Hclose Hsleep.
  induction attempt as [|attempt IH]; intros hci_sock; cbn [poll_hci_up].
  - apply respects_ret, adds_refl.
  - apply (respects_bind _ (adds_trans p));
      [unfold create_hci_sock; apply sys_socket_adds; auto|].
    intros sk. apply respects_if; [apply respects_ret, adds_refl|].
    apply (respects_bind _ (adds_trans p)); [apply sys_ioctl_adds; auto|].
    intros r. apply respects_if; [apply respects_ret, adds_refl|].
    apply (respects_bind _ (adds_trans p)); [apply sys_close_adds; auto|].
    intros _.
    apply (respects_bind _ (adds_trans p)); [apply usleep_adds; auto|].
    intros _. apply IH.
Qed.

Lemma bt_enable_calls ugly fuel :
  respects (adds (enable_call ugly)) (bt_enable K ugly fuel).
Proof.
  set (p := enable_call ugly).
  assert (Hout : forall fd r, respects (adds p) (out fd r))
    by (intros; apply out_adds; reflexivity).
  unfold bt_enable.
  apply (respects_bind _ (adds_trans p)).
  { apply set_power_writes_byte; try reflexivity.
    intros fd sz. unfold p, enable_call. apply String.eqb_refl. }
  intros r1. apply respects_if; [apply Hout|].
  apply (respects_bind _ (adds_trans p));
    [apply property_set_adds; reflexivity|].
  intros q. apply respects_if; [apply Hout|].
  apply (respects_bind _ (adds_trans p));
    [apply poll_hci_up_adds; reflexivity|].
  intros [sk a|sk|sk]; try apply Hout.
  unfold start_hcid.
  apply (respects_bind _ (adds_trans p));
    [apply property_set_adds; reflexivity|].
  intros h. apply respects_if; [apply Hout|].
  apply (respects_bind _ (adds_trans p)); [apply sleep_adds; reflexivity|].
  intros _. apply Hout.
Qed.

Lemma bt_disable_calls ugly fuel :
  respects (adds (disable_call ugly)) (bt_disable K ugly fuel).
Proof.
  set (p := disable_call ugly).
  assert (Hout : forall fd r, respects (adds p) (out fd r))
    by (intros; apply out_adds; reflexivity).
  unfold bt_disable.
  apply (respects_bind _ (adds_trans p));
    [apply property_set_adds; reflexivity|].
  intros q. apply respects_if; [apply Hout|].
  apply (respects_bind _ (adds_trans p)); [apply usleep_adds; reflexivity|].
  intros _.
  apply (respects_bind _ (adds_trans p));
    [unfold create_hci_sock; apply sys_socket_adds; reflexivity|].
  intros sk. apply respects_if; [apply Hout|].
  apply (respects_bind _ (adds_trans p)); [apply sys_ioctl_adds; reflexivity|].
  intros _.
  apply (respects_bind _ (adds_trans p));
    [apply property_set_adds; reflexivity|].
  intros h. apply respects_if; [apply Hout|].
  apply (respects_bind _ (adds_trans p)).
  { apply set_power_writes_byte; try reflexivity.
    intros fd sz. unfold p, disable_call. apply String.eqb_refl. }
  intros r. apply respects_if; apply Hout.
Qed.

Lemma check_power_reads ugly fuel :
  respects (adds query_call) (check_bluetooth_power K ugly fuel).
Proof.
  assert (Hout : forall fd r, respects (adds query_call) (out fd r))
    by (intros; apply out_adds; reflexivity).
  destruct ugly; cbn [check_bluetooth_power].
  - unfold UglyPower.check_bluetooth_power.
    apply (respects_bind _ (adds_trans query_call));
      [apply sys_open_adds; reflexivity|].
    intros fd. apply respects_if; [apply Hout|].
    apply (respects_bind _ (adds_trans query_call));
      [apply sys_read_adds; reflexivity|].
    intros rd. repeat (apply respects_if; try apply Hout).
  - unfold Rfkill.check_bluetooth_power.
    apply with_binding_adds_any; try reflexivity.
    apply (respects_bind _ (adds_trans query_call));
      [apply open_state_path_adds_any; reflexivity|].
    intros fd. apply respects_if; [apply Hout|].
    apply (respects_bind _ (adds_trans query_call));
      [apply sys_read_adds; reflexivity|].
    intros rd. repeat (apply respects_if; try apply Hout).
Qed.

Lemma bt_is_enabled_calls ugly fuel :
  respects (adds query_call) (bt_is_enabled K ugly fuel).
Proof.
  assert (Hout : forall fd r, respects (adds query_call) (out fd r))
    by (intros; apply out_adds; reflexivity).
  unfold bt_is_enabled.
  apply (respects_bind _ (adds_trans query_call)); [apply check_power_reads|].
  intros r. apply respects_if; [apply Hout|].
  apply (respects_bind _ (adds_trans query_call));
    [unfold create_hci_sock; apply sys_socket_adds; reflexivity|].
  intros sk. apply respects_if; [apply Hout|].
  apply (respects_bind _ (adds_trans query_call));
    [apply sys_ioctl_devinfo_adds; reflexivity|].
  intros info. apply respects_if; apply Hout.
Qed.

End Never.

(** X11.  [bt_enable] only ever brings up: beyond opening, reading and
    closing files it writes nothing but the "on" byte, issues no ioctl but
    HCIDEVUP and no property request but "ctl.start".  In particular a
    failed stage is never rolled back: no "off" write, no HCIDEVDOWN, no
    "ctl.stop". *)
Theorem bt_enable_only_brings_up K ugly fuel w r w' :
  bt_enable K ugly fuel w = Some (r, w') ->
  exists evs,
    trace w' = evs ++ trace w /\ forallb (enable_call ugly) evs = true.
Proof. apply bt_enable_calls. Qed.

Lemma bt_enable_only_brings_up_witness :
  exists evs,
    trace after_enable = evs ++ trace fresh /\
    forallb (enable_call true) evs = true.
Proof.
  apply (bt_enable_only_brings_up (up_at_kernel 2 None 0 0) true 0 fresh 0).
  reflexivity.
Defined.

(** X12.  [bt_disable] only ever takes down: it writes nothing but the
    "off" byte, issues no ioctl but HCIDEVDOWN and no property request but
    "ctl.stop", and sleeps only the 500 ms [usleep]. *)
Theorem bt_disable_only_takes_down K ugly fuel w r w' :
  bt_disable K ugly fuel w = Some (r, w') ->
  exists evs,
    trace w' = evs ++ trace w /\ forallb (disable_call ugly) evs = true.
Proof. apply bt_disable_calls. Qed.

Lemma bt_disable_only_takes_down_witness :
  exists evs,
    trace after_disable = evs ++ trace fresh /\
    forallb (disable_call true) evs = true.
Proof.
  apply (bt_disable_only_takes_down (const_kernel 3 (Some "Y") 1 4 0 1 0)
           true 0 fresh 0).
  reflexivity.
Defined.

(** X13.  [bt_is_enabled] only looks: it opens files read-only, never
    writes, never calls the property service, never sleeps, and its only
    ioctl is HCIGETDEVINFO. *)
Theorem bt_is_enabled_only_looks K ugly fuel w r w' :
  bt_is_enabled K ugly fuel w = Some (r, w') ->
  exists evs,
    trace w' = evs ++ trace w /\ forallb query_call evs = true.
Proof. apply bt_is_enabled_calls. Qed.

Lemma bt_is_enabled_only_looks_witness :
  exists evs,
    trace after_query = evs ++ trace fresh /\
    forallb query_call evs = true.
Proof.
  apply (bt_is_enabled_only_looks (const_kernel 3 (Some "Y") 1 4 0 1 0)
           true 0 fresh 1).
  reflexivity.
Defined.

(** * How the public functions end *)

Section Exits.

Variable K : kernel.

(** The newest calls in the log at each exit of the poll loop. *)
Lemma poll_hci_up_last_calls attempt :
  forall hci_sock w e w',
  poll_hci_up K attempt hci_sock w = Some (e, w') ->
  match e with
  | Break sk _ =>
      0 <= sk /\
      exists rest,
        trace w' = EIoctl sk HCIDEVUP HCI_DEV_ID 0 :: ESocket sk ::
                   rest ++ trace w
  | GotoOut sk =>
      sk < 0 /\ exists rest, trace w' = ESocket sk :: rest ++ trace w
  | Exhausted sk =>
      (attempt = 0%nat /\ w' = w /\ sk = hci_sock) \/
      (0 <= sk /\
       exists d rest,
         d <> 0 /\
         trace w' = EUsleep 10000 :: EClose sk ::
                    EIoctl sk HCIDEVUP HCI_DEV_ID d :: ESocket sk ::
                    rest ++ trace w)
  end.
Proof.
  induction attempt as [|attempt IH]; intros hci_sock w e w'.
  - inversion 1; subst. left. auto.
  - rewrite poll_hci_up_step. cbv zeta.
    destruct (Z.ltb_spec (k_socket K (trace w)) 0) as [Hsk|Hsk].
    { inversion 1; subst. split; [exact Hsk|]. now exists []. }
    destruct (Z.eqb_spec
                (k_ioctl K (trace (emit (ESocket (k_socket K (trace w))) w))
                   (k_socket K (trace w)) HCIDEVUP HCI_DEV_ID) 0) as [Hup|Hup].
    { intros E. injection E as <- <-. split; [exact Hsk|]. exists [].
      cbn [trace emit] in *. rewrite Hup. reflexivity. }
    intros Hrest. apply IH in Hrest.
    destruct e as [sk a|sk|sk].
    + destruct Hrest as (H0 & rest & Ht). split; [exact H0|].
      exists (rest ++ [EUsleep 10000; EClose (k_socket K (trace w));
                       EIoctl (k_socket K (trace w)) HCIDEVUP HCI_DEV_ID
                         (k_ioctl K (trace (emit (ESocket (k_socket K (trace w))) w))
                            (k_socket K (trace w)) HCIDEVUP HCI_DEV_ID);
                       ESocket (k_socket K (trace w))]).
      rewrite Ht. unfold failed_turn. cbn [trace emit].
      now rewrite <- app_assoc.
    + destruct Hrest as (H0 & rest & Ht). split; [exact H0|].
      exists (rest ++ [EUsleep 10000; EClose (k_socket K (trace w));
                       EIoctl (k_socket K (trace w)) HCIDEVUP HCI_DEV_ID
                         (k_ioctl K (trace (emit (ESocket (k_socket K (trace w))) w))
                            (k_socket K (trace w)) HCIDEVUP HCI_DEV_ID);
                       ESocket (k_socket K (trace w))]).
      rewrite Ht. unfold failed_turn. cbn [trace emit].
      now rewrite <- app_assoc.
    + right. destruct Hrest as [(_ & -> & ->) | (H0 & d & rest & Hd & Ht)].
      * split; [exact Hsk|]. eexists _, []. split; [exact Hup|]. reflexivity.
      * split; [exact H0|].
        exists d, (rest ++ [EUsleep 10000; EClose (k_socket K (trace w));
                       EIoctl (k_socket K (trace w)) HCIDEVUP HCI_DEV_ID
                         (k_ioctl K (trace (emit (ESocket (k_socket K (trace w))) w))
                            (k_socket K (trace w)) HCIDEVUP HCI_DEV_ID);
                       ESocket (k_socket K (trace w))]).
        split; [exact Hd|]. rewrite Ht. unfold failed_turn. cbn [trace emit].
        now rewrite <- !app_assoc.
Qed.

End Exits.

(** X14.  [bt_enable] ends in one of six ways, told apart by its result and
    its newest calls.  It returns 0 only after a successful power write, a
    successful start of hciattach, a successful HCIDEVUP, a successful
    start of hcid and the 5 s settle delay, in that order.  It returns -1
    when the power write fails, when the start of hciattach fails (nothing
    is called after it), when a socket cannot be created in the loop (that
    failed [socket] is its last call: no retry), when the start of hcid
    fails (the socket is closed, the settle delay skipped), and on the
    timeout, where the last socket is closed in the loop and again at
    [out:]. *)
Theorem bt_enable_ends K ugly fuel w r w' :
  bt_enable K ugly fuel w = Some (r, w') ->
  exists r1 w1,
    set_bluetooth_power K ugly fuel 1 w = Some (r1, w1) /\
    let p := k_property_set K (trace w1) "ctl.start" "hciattach" in
    let t2 := EPropertySet "ctl.start" "hciattach" p :: trace w1 in
    (r1 < 0 /\ r = -1 /\ w' = w1) \/
    (0 <= r1 /\ p < 0 /\ r = -1 /\ trace w' = t2) \/
    (0 <= r1 /\ 0 <= p /\ r = -1 /\
     exists sk rest, sk < 0 /\ trace w' = ESocket sk :: rest ++ t2) \/
    (0 <= r1 /\ 0 <= p /\ r = -1 /\
     exists sk d rest,
       0 <= sk /\ d <> 0 /\
       trace w' = EClose sk :: EUsleep 10000 :: EClose sk ::
                  EIoctl sk HCIDEVUP HCI_DEV_ID d :: ESocket sk ::
                  rest ++ t2) \/
    (0 <= r1 /\ 0 <= p /\ r = -1 /\
     exists sk q rest,
       0 <= sk /\ q < 0 /\
       trace w' = EClose sk :: EPropertySet "ctl.start" "hcid" q ::
                  EIoctl sk HCIDEVUP HCI_DEV_ID 0 :: ESocket sk ::
                  rest ++ t2) \/
    (0 <= r1 /\ 0 <= p /\ r = 0 /\
     exists sk q rest,
       0 <= sk /\ 0 <= q /\
       trace w' = EClose sk :: ESleep HCID_START_DELAY_SEC ::
                  EPropertySet "ctl.start" "hcid" q ::
                  EIoctl sk HCIDEVUP HCI_DEV_ID 0 :: ESocket sk ::
                  rest ++ t2).
Proof.
  intros Hrun.
  destruct (bt_enable_power_returned _ _ _ _ _ _ Hrun) as (r1 & w1 & Hpow).
  exists r1, w1. split; [exact Hpow|].
  rewrite (bt_enable_after_power _ _ _ _ _ _ Hpow) in Hrun.
  cbv zeta in *.
  set (p := k_property_set K (trace w1) "ctl.start" "hciattach") in *.
  destruct (Z.ltb_spec r1 0) as [Hr1|Hr1].
  { injection Hrun as <- <-. left. auto. }
  destruct (Z.ltb_spec p 0) as [Hp|Hp].
  { injection Hrun as <- <-. right. left. auto. }
  destruct (poll_hci_up K POLL_ATTEMPTS (-1) _) as [[e w3]|] eqn:Hpoll;
    [|discriminate].
  apply poll_hci_up_last_calls in Hpoll. cbn [trace emit] in Hpoll.
  destruct e as [sk a|sk|sk].
  - destruct Hpoll as (Hsk & rest & Ht).
    rewrite (start_hcid_run K sk w3 Hsk) in Hrun. cbv zeta in Hrun.
    set (q := k_property_set K (trace w3) "ctl.start" "hcid") in *.
    destruct (Z.ltb_spec q 0) as [Hq|Hq]; injection Hrun as <- <-;
      cbn [trace emit]; rewrite Ht.
    + do 4 right. left. repeat split; auto.
      exists sk, q, rest. repeat split; auto.
    + do 5 right. repeat split; auto.
      exists sk, q, rest. repeat split; auto.
  - destruct Hpoll as (Hsk & rest & Ht).
    rewrite out_run, (proj2 (Z.leb_gt _ _) Hsk) in Hrun.
    injection Hrun as <- <-. right. right. left. repeat split; auto.
    exists sk, rest. split; auto.
  - destruct Hpoll as [(Habs & _) | (Hsk & d & rest & Hd & Ht)];
      [discriminate|].
    rewrite out_run, (proj2 (Z.leb_le _ _) Hsk) in Hrun.
    injection Hrun as <- <-. do 3 right. left. repeat split; auto.
    exists sk, d, rest. cbn [trace emit]. rewrite Ht. repeat split; auto.
Qed.

Lemma bt_enable_ends_witness :
  exists r1 w1,
    set_bluetooth_power (up_at_kernel 2 None 0 0) true 0 1 fresh =
      Some (r1, w1) /\
    let p := k_property_set (up_at_kernel 2 None 0 0) (trace w1)
               "ctl.start" "hciattach" in
    let t2 := EPropertySet "ctl.start" "hciattach" p :: trace w1 in
    (r1 < 0 /\ 0 = -1 /\ after_enable = w1) \/
    (0 <= r1 /\ p < 0 /\ 0 = -1 /\ trace after_enable = t2) \/
    (0 <= r1 /\ 0 <= p /\ 0 = -1 /\
     exists sk rest, sk < 0 /\ trace after_enable = ESocket sk :: rest ++ t2) \/
    (0 <= r1 /\ 0 <= p /\ 0 = -1 /\
     exists sk d rest,
       0 <= sk /\ d <> 0 /\
       trace after_enable = EClose sk :: EUsleep 10000 :: EClose sk ::
                  EIoctl sk HCIDEVUP HCI_DEV_ID d :: ESocket sk ::
                  rest ++ t2) \/
    (0 <= r1 /\ 0 <= p /\ 0 = -1 /\
     exists sk q rest,
       0 <= sk /\ q < 0 /\
       trace after_enable = EClose sk :: EPropertySet "ctl.start" "hcid" q ::
                  EIoctl sk HCIDEVUP HCI_DEV_ID 0 :: ESocket sk ::
                  rest ++ t2) \/
    (0 <= r1 /\ 0 <= p /\ 0 = 0 /\
     exists sk q rest,
       0 <= sk /\ 0 <= q /\
       trace after_enable = EClose sk :: ESleep HCID_START_DELAY_SEC ::
                  EPropertySet "ctl.start" "hcid" q ::
                  EIoctl sk HCIDEVUP HCI_DEV_ID 0 :: ESocket sk ::
                  rest ++ t2).
Proof.
  apply (bt_enable_ends (up_at_kernel 2 None 0 0) true 0 fresh 0 after_enable).
  reflexivity.
Defined.

(** X15.  [bt_disable] returns 0 or -1, and 0 exactly when its four
    fallible stages all succeed: the stop of hcid, the creation of the
    socket, the stop of hciattach and the power write.  The result of
    HCIDEVDOWN has no part in it. *)
Theorem bt_disable_succeeds_iff K ugly fuel w r w' :
  bt_disable K ugly fuel w = Some (r, w') ->
  let p := k_property_set K (trace w) "ctl.stop" "hcid" in
  let t1 := EUsleep HCID_STOP_DELAY_USEC ::
            EPropertySet "ctl.stop" "hcid" p :: trace w in
  let sk := k_socket K t1 in
  let t3 := EIoctl sk HCIDEVDOWN HCI_DEV_ID
              (k_ioctl K (ESocket sk :: t1) sk HCIDEVDOWN HCI_DEV_ID) ::
            ESocket sk :: t1 in
  let q := k_property_set K t3 "ctl.stop" "hciattach" in
  let w4 := {| trace := EPropertySet "ctl.stop" "hciattach" q :: t3;
               rfkill_id := rfkill_id w;
               rfkill_state_path := rfkill_state_path w |} in
  (r = 0 \/ r = -1) /\
  (r = 0 <->
   0 <= p /\ 0 <= sk /\ 0 <= q /\
   exists r5 w5,
     set_bluetooth_power K ugly fuel 0 w4 = Some (r5, w5) /\ 0 <= r5).
Proof.
  intros Hrun p t1 sk t3 q w4. rewrite bt_disable_run in Hrun.
  cbv zeta in Hrun. cbn [trace emit] in Hrun.
  fold p in Hrun. fold t1 in Hrun. fold sk in Hrun. fold t3 in Hrun.
  fold q in Hrun.
  change (emit (EPropertySet "ctl.stop" "hciattach" q)
            (emit (EIoctl sk HCIDEVDOWN HCI_DEV_ID
                     (k_ioctl K (ESocket sk :: t1) sk HCIDEVDOWN HCI_DEV_ID))
               (emit (ESocket sk)
                  (emit (EUsleep HCID_STOP_DELAY_USEC)
                     (emit (EPropertySet "ctl.stop" "hcid" p) w)))))
    with w4 in Hrun.
  destruct (Z.ltb_spec p 0) as [Hp|Hp].
  { injection Hrun as <- _. split; [auto|]. split; [discriminate | lia]. }
  destruct (Z.ltb_spec sk 0) as [Hsk|Hsk].
  { injection Hrun as <- _. split; [auto|]. split; [discriminate | lia]. }
  destruct (Z.ltb_spec q 0) as [Hq|Hq].
  { injection Hrun as <- _. split; [auto|]. split; [discriminate | lia]. }
  destruct (set_bluetooth_power K ugly fuel 0 w4) as [[r5 w5]|];
    [|discriminate].
  destruct (Z.ltb_spec r5 0) as [Hr|Hr]; injection Hrun as <- _.
  - split; [auto|]. split; [discriminate|].
    intros (_ & _ & _ & r6 & w6 & E & Hr6). injection E as <- _. lia.
  - split; [auto|]. split; [|reflexivity]. intros _. eauto 8.
Qed.

Lemma bt_disable_succeeds_iff_witness :
  (0 = 0 \/ 0 = -1) /\
  (0 = 0 <->
   0 <= 0 /\ 0 <= 4 /\ 0 <= 0 /\
   exists r5 w5,
     set_bluetooth_power (const_kernel 3 (Some "Y") 1 4 0 1 0) true 0 0
       {| trace := [EPropertySet "ctl.stop" "hciattach" 0;
                    EIoctl 4 HCIDEVDOWN 0 0; ESocket 4; EUsleep 500000;
                    EPropertySet "ctl.stop" "hcid" 0];
          rfkill_id := -1; rfkill_state_path := None |} = Some (r5, w5) /\
     0 <= r5).
Proof.
  apply (bt_disable_succeeds_iff (const_kernel 3 (Some "Y") 1 4 0 1 0)
           true 0 fresh 0 after_disable).
  reflexivity.
Defined.

(** X16.  [bt_is_enabled] returns -1, 0 or 1, and the error outcome -1
    exactly when the power read is Unknown or, with the power On, the HCI
    socket cannot be created. *)
Theorem bt_is_enabled_error_iff K ugly fuel w r w' :
  bt_is_enabled K ugly fuel w = Some (r, w') ->
  exists p w1,
    check_bluetooth_power K ugly fuel w = Some (p, w1) /\
    (r = -1 \/ r = 0 \/ r = 1) /\
    (r = -1 <-> p = -1 \/ (p = 1 /\ k_socket K (trace w1) < 0)).
Proof.
  intros Hrun.
  destruct (bt_is_enabled_power_returned _ _ _ _ _ _ Hrun) as (p & w1 & Hp).
  exists p, w1. split; [exact Hp|].
  rewrite (bt_is_enabled_after_power _ _ _ _ _ _ Hp) in Hrun.
  cbv zeta in Hrun.
  destruct (check_power_range _ _ _ _ _ _ Hp) as [->| [->| ->]];
    cbn [Z.eqb orb Pos.eqb] in Hrun.
  - injection Hrun as <- _. split; [auto|]. split; auto.
  - injection Hrun as <- _. split; [auto|]. split; [discriminate|].
    intros [H | [H _]]; discriminate.
  - destruct (Z.ltb_spec (k_socket K (trace w1)) 0) as [Hsk|Hsk].
    { injection Hrun as <- _. split; [auto|]. split; auto. }
    match type of Hrun with
    | context [if ?b then 0 else _] => destruct b
    end; injection Hrun as <- _.
    + split; [auto|]. split; [discriminate|].
      intros [H | [_ H]]; [discriminate | lia].
    + rewrite hci_test_bit_up.
      destruct (Z.testbit _ HCI_UP); cbn [Z.b2z];
        (split; [auto|]); (split; [discriminate|]);
        intros [H | [_ H]]; try discriminate; lia.
Qed.

Lemma bt_is_enabled_error_iff_witness :
  exists p w1,
    check_bluetooth_power (const_kernel 3 (Some "Y") 1 4 0 1 0) true 0 fresh =
      Some (p, w1) /\
    (1 = -1 \/ 1 = 0 \/ 1 = 1) /\
    (1 = -1 <->
     p = -1 \/
     (p = 1 /\ k_socket (const_kernel 3 (Some "Y") 1 4 0 1 0) (trace w1) < 0)).
Proof.
  apply (bt_is_enabled_error_iff (const_kernel 3 (Some "Y") 1 4 0 1 0)
           true 0 fresh 1 after_query).
  reflexivity.
Defined.

(** * The cost of the scan *)

Lemma opened_app t1 t2 : opened (t1 ++ t2) = opened t2 ++ opened t1.
Proof.
  induction t1 as [|e t1 IH]; cbn [app opened].
  - now rewrite app_nil_r.
  - destruct e; rewrite ?IH, ?app_assoc; reflexivity.
Qed.

Section ScanCost.

Variable K : kernel.

Lemma init_rfkill_from_cost rest :
  forall n fuel w,
  (forall t j s,
     nth_error rest j = Some s ->
     0 <= k_open K t (Rfkill.type_path (Z.of_nat (n + j))) O_RDONLY /\
     forall fd,
       k_read K (EOpen (Rfkill.type_path (Z.of_nat (n + j))) O_RDONLY fd :: t)
         fd 16 = Some s) ->
  (forall t,
     k_open K t (Rfkill.type_path (Z.of_nat (n + List.length rest))) O_RDONLY
     < 0) ->
  (List.length rest < fuel)%nat ->
  exists w' evs,
    Rfkill.init_rfkill_from K fuel (Z.of_nat n) w =
      Some (match first_bluetooth rest with Some _ => 0 | None => -1 end, w') /\
    trace w' = evs ++ trace w /\
    opened evs =
      map (fun i => Rfkill.type_path (Z.of_nat i))
        (seq n match first_bluetooth rest with
               | Some j => S j
               | None => S (List.length rest)
               end) /\
    count is_read evs =
      match first_bluetooth rest with
      | Some j => S j
      | None => List.length rest
      end.
Proof.
  induction rest as [|s rest IH]; intros n fuel w Hslots Hend Hfuel;
    (destruct fuel as [|fuel]; [simpl in Hfuel; lia|]);
    rewrite init_rfkill_from_step; cbv zeta.
  - cbn [List.length] in Hend. rewrite Nat.add_0_r in Hend.
    rewrite (proj2 (Z.ltb_lt _ _) (Hend (trace w))).
    eexists _, [_]. split; [reflexivity|]. split; [reflexivity|].
    split; reflexivity.
  - destruct (Hslots (trace w) 0%nat s eq_refl) as [Hopen Hread].
    rewrite Nat.add_0_r in Hopen, Hread.
    rewrite (proj2 (Z.ltb_ge _ _) Hopen).
    unfold sys_read. cbn [trace emit]. rewrite Hread.
    change (Z.to_nat 16) with 16%nat. rewrite is_bluetooth_prefix.
    cbn [first_bluetooth]. destruct (String.prefix "bluetooth" s).
    + eexists _, [_; _; _]. split; [reflexivity|]. split; [reflexivity|].
      split; reflexivity.
    + replace (Z.of_nat n + 1) with (Z.of_nat (S n)) by lia.
      match goal with
      | |- context [Rfkill.init_rfkill_from K fuel _ ?w0] =>
          destruct (IH (S n) fuel w0) as (w' & evs & Hrun & Ht & Ho & Hr)
      end.
      * intros t j s' Hj. rewrite Nat.add_succ_comm. now apply Hslots.
      * intros t. rewrite Nat.add_succ_comm. apply Hend.
      * simpl in Hfuel. lia.
      * exists w'. eexists (evs ++ [_; _; _]). rewrite Hrun.
        split; [now destruct (first_bluetooth rest)|]. split.
        { rewrite Ht. cbn [trace emit]. now rewrite <- app_assoc. }
        rewrite opened_app, count_app, Ho, Hr.
        destruct (first_bluetooth rest); cbn [option_map List.length];
          (split; [reflexivity | cbn; lia]).
Qed.

End ScanCost.

(** X17.  The first-use scan costs no more than it must.  On a directory
    whose slots [slots] are numbered without a gap from 0, given fuel for
    one slot more than there are, [init_rfkill] returns: 0 when a slot
    begins with "bluetooth", with [rfkill_id] the index of the first such
    slot, and -1 with the binding untouched when none does.  It makes file
    calls only; the files it opens are, in this order and once each, the
    type files of the slots 0, 1, ... up to and including the first one that
    begins with "bluetooth", or, without such a slot, the type files of
    every slot and of the first index past the last one (the [open] that
    fails); it reads each file that opened once.  On an empty directory
    that is one failed [open] of the type file of slot 0. *)
Theorem init_rfkill_cost K slots fuel w :
  presents K slots ->
  (List.length slots < fuel)%nat ->
  exists r w' evs,
    Rfkill.init_rfkill K fuel w = Some (r, w') /\
    trace w' = evs ++ trace w /\
    forallb is_file_event evs = true /\
    match first_bluetooth slots with
    | Some j =>
        r = 0 /\ rfkill_id w' = Z.of_nat j /\
        opened evs = type_paths (S j) /\
        count is_read evs = S j
    | None =>
        r = -1 /\ binding w' = binding w /\
        opened evs = type_paths (S (List.length slots)) /\
        count is_read evs = List.length slots
    end.
Proof.
  intros Hpres Hfuel.
  destruct (init_rfkill_slots K slots fuel w Hpres Hfuel)
    as (w0 & Hrun0 & _ & Hres).
  destruct Hpres as [Hslots Hend].
  destruct (init_rfkill_from_cost K slots 0 fuel w Hslots Hend Hfuel)
    as (w' & evs & Hrun & Ht & Ho & Hr).
  change (Z.of_nat 0) with 0 in Hrun.
  unfold Rfkill.init_rfkill in *. rewrite Hrun in Hrun0.
  injection Hrun0 as <-.
  pose proof (init_rfkill_from_adds K fuel 0 _ _ _ Hrun) as (evs0 & Ht0 & Hf0).
  assert (evs = evs0) as <-.
  { rewrite Ht in Ht0. now apply app_inv_tail in Ht0. }
  eexists _, w', evs. split; [exact Hrun|]. split; [exact Ht|].
  split; [exact Hf0|].
  unfold type_paths. destruct (first_bluetooth slots) as [j|].
  - destruct Hres as [Hid _]. auto.
  - auto.
Qed.

Lemma init_rfkill_cost_witness :
  exists r w' evs,
    Rfkill.init_rfkill (rfkill_kernel ["wifi"; "bluetooth"] "1" 1 4 0 1 0)
      3 fresh = Some (r, w') /\
    trace w' = evs ++ trace fresh /\
    forallb is_file_event evs = true /\
    r = 0 /\ rfkill_id w' = 1 /\
    opened evs = ["/sys/class/rfkill/rfkill0/type";
                  "/sys/class/rfkill/rfkill1/type"] /\
    count is_read evs = 2%nat.
Proof.
  apply (init_rfkill_cost (rfkill_kernel ["wifi"; "bluetooth"] "1" 1 4 0 1 0)
           ["wifi"; "bluetooth"] 3 fresh).
  - apply rfkill_kernel_presents_two.
  - simpl. lia.
Defined.

(** * A slot index without its path *)



(** * The length of the rfkill paths *)

Lemma string_length_append (s1 s2 : string) :
  String.length (s1 ++ s2)%string = (String.length s1 + String.length s2)%nat.
Proof. induction s1 as [|c s1 IH]; cbn; [reflexivity | now rewrite IH]. Qed.

Lemma nilempty_length d :
  String.length (NilEmpty.string_of_uint d) = Decimal.nb_digits d.
Proof. induction d; cbn; now rewrite ?IHd. Qed.

Lemma little_double_digits d :
  (Decimal.nb_digits (Decimal.Little.double d) <= S (Decimal.nb_digits d))%nat /\
  (Decimal.nb_digits (Decimal.Little.succ_double d) <= S (Decimal.nb_digits d))%nat.
Proof.
  induction d; cbn [Decimal.Little.double Decimal.Little.succ_double
                    Decimal.nb_digits]; try destruct IHd; lia.
Qed.

Lemma to_little_uint_digits p :
  (Decimal.nb_digits (Pos.to_little_uint p) <= Pos.size_nat p)%nat.
Proof.
  induction p as [p IH|p IH|]; cbn [Pos.to_little_uint Pos.size_nat].
  - pose proof (proj2 (little_double_digits (Pos.to_little_uint p))). lia.
  - pose proof (proj1 (little_double_digits (Pos.to_little_uint p))). lia.
  - cbn. lia.
Qed.

Lemma size_nat_bound n :
  forall p, Z.pos p < 2 ^ Z.of_nat n -> (Pos.size_nat p <= n)%nat.
Proof.
  induction n as [|n IH]; intros p Hp.
  - cbn in Hp. lia.
  - rewrite Nat2Z.inj_succ, Z.pow_succ_r in Hp by lia.
    destruct p as [p|p|]; cbn [Pos.size_nat].
    + apply le_n_S, IH. lia.
    + apply le_n_S, IH. lia.
    + lia.
Qed.

(** [%d] of an [int] that is not negative takes at most 31 characters (one
    per bit is a generous count; 10 is the true bound). *)
Lemma dec_length id :
  0 <= id < 2 ^ 31 -> (String.length (Rfkill.dec id) <= 31)%nat.
Proof.
  intros [H0 H1]. unfold Rfkill.dec.
  destruct id as [|p|p]; [cbn; lia | | lia].
  cbn [Z.to_int NilZero.string_of_int]. unfold Pos.to_uint.
  pose proof (to_little_uint_digits p) as Hd.
  pose proof (size_nat_bound 31 p H1) as Hs.
  rewrite <- DecimalFacts.nb_digits_rev in Hd.
  unfold NilZero.string_of_uint.
  destruct (Decimal.rev (Pos.to_little_uint p)) eqn:E;
    [cbn; lia | rewrite nilempty_length; lia ..].
Qed.

(** X18.  The paths of the scan fit their buffer: for every slot index an
    [int] can hold, the type path that [snprintf] formats is shorter than
    the 64 bytes of [path], so it is never truncated and the file opened is
    the type file of that very slot. *)
Theorem type_path_fits id :
  0 <= id < 2 ^ 31 -> (String.length (Rfkill.type_path id) < 64)%nat.
Proof.
  intros H. unfold Rfkill.type_path. rewrite !string_length_append.
  pose proof (dec_length id H).
  change (String.length "/sys/class/rfkill/rfkill") with 24%nat.
  change (String.length "/type") with 5%nat. lia.
Qed.

Lemma type_path_fits_witness :
  (String.length (Rfkill.type_path 2147483647) < 64)%nat.
Proof.
  apply (type_path_fits 2147483647). lia.
Defined.
